(** * Article service of the blogging platform: model and properties

    A shallow embedding of [backend/models/Article.js] (schema and
    [pre('save')] hook) and of the article routes (create, update, list,
    detail, like, bookmark, comments, bulk delete, bulk update, trending),
    followed by the properties stated about them.

    Conventions of the model:
    - a JS string is the list of its UTF-16 code units;
    - an ObjectId is a number, a [Date] is its millisecond timestamp;
    - the [Article] collection is a finite map from [_id] to document;
    - a handler is a function from the request and the collection to an
      HTTP response together with the collection it leaves behind;
    - the clock ([now]) and the ids the driver generates ([new_id]) are
      arguments of the handler that needs them.

    What the routes call but do not define is an argument as well: the
    outcome of the express-validator chains ([valid]), the
    authenticated user ([user], or [requester] where the token is
    optional), the ODM's casts, the regular-expression match of the
    store and [String.prototype.toLowerCase]. The [User] collection is
    not modelled, so a populated reference stays the id it refers to.
    Numbers are integers of any size. *)

From Stdlib Require Import ZArith Lia.
From stdpp Require Import base numbers option list sorting gmap strings fin_maps fin_sets.

Local Open Scope Z_scope.

(** ** JS strings *)

Abbreviation jschar := N (only parsing).
Abbreviation jsstring := (list N) (only parsing).

(** Code units of an ASCII literal. *)
Definition js (s : string) : jsstring :=
  (λ c, Ascii.N_of_ascii c) <$> String.list_ascii_of_string s.

(** The character class [\s] of a JS regular expression (WhiteSpace and
    LineTerminator code points). *)
Definition is_space (c : jschar) : bool :=
  ((9 <=? c) && (c <=? 13) || (c =? 32) || (c =? 160) || (c =? 5760)
   || (8192 <=? c) && (c <=? 8202) || (c =? 8232) || (c =? 8233)
   || (c =? 8239) || (c =? 8287) || (c =? 12288) || (c =? 65279))%N.

(** [s.split(/\s+/)]: [in_sep] holds while a separator run is being
    consumed, [piece] is the piece collected since the last separator.
    The piece open at the end of the string is always emitted, so the
    result is never empty and a leading or trailing run of whitespace
    yields an empty piece. *)
Fixpoint split_go (in_sep : bool) (piece : jsstring) (s : jsstring)
  : list jsstring :=
  match s with
  | [] => [piece]
  | c :: s' =>
      if is_space c then
        if in_sep then split_go true [] s'
        else piece :: split_go true [] s'
      else split_go false (piece ++ [c]) s'
  end.

Definition split_ws (s : jsstring) : list jsstring := split_go false [] s.

(** [s.replace(/[#*`]/g, '')] *)
Definition is_marker (c : jschar) : bool :=
  ((c =? 35) || (c =? 42) || (c =? 96))%N.

Definition strip_markers (s : jsstring) : jsstring :=
  filter (λ c, is_marker c = false) s.

(** [s.substring(0, n)] *)
Definition substring0 (n : nat) (s : jsstring) : jsstring := take n s.

(** [s.trim()] *)
Fixpoint drop_space (s : jsstring) : jsstring :=
  match s with
  | c :: s' => if is_space c then drop_space s' else s
  | [] => []
  end.

Definition trim (s : jsstring) : jsstring :=
  reverse (drop_space (reverse (drop_space s))).

(** Truthiness of a string-valued field that may be absent. *)
Definition truthy_str (o : option jsstring) : bool :=
  match o with
  | Some (_ :: _) => true
  | _ => false
  end.

(** [Math.ceil(a / b)] for integers [a] and [b ≠ 0]. *)
Definition ceil_div (a b : Z) : Z := - ((- a) / b).

(** ** The Article schema *)

Abbreviation ObjectId := N (only parsing).
Abbreviation Date := Z (only parsing).

Record Like := mkLike {
  like_id : ObjectId;
  like_user : ObjectId;
  like_createdAt : Date
}.

Record Comment := mkComment {
  comment_id : ObjectId;
  comment_user : ObjectId;
  comment_content : jsstring;
  comment_createdAt : Date
}.

Record Image := mkImage {
  public_id : option jsstring;
  url : option jsstring
}.

Record Article := mkArticle {
  title : jsstring;
  content : jsstring;
  excerpt : option jsstring;
  author : ObjectId;
  tags : list jsstring;
  category : jsstring;
  featuredImage : Image;
  readTime : Z;
  likes : list Like;
  comments : list Comment;
  published : bool;
  publishedAt : option Date;
  views : Z;
  bookmarks : list ObjectId;
  createdAt : Date;
  updatedAt : Date
}.

#[global] Instance Like_eq_dec : EqDecision Like.
Proof. solve_decision. Defined.
#[global] Instance Comment_eq_dec : EqDecision Comment.
Proof. solve_decision. Defined.
#[global] Instance Image_eq_dec : EqDecision Image.
Proof. solve_decision. Defined.
#[global] Instance Article_eq_dec : EqDecision Article.
Proof. solve_decision. Defined.

(** Field updates, one per path the routes or the hook assign. *)
Definition set_title v (a : Article) :=
  mkArticle v (content a) (excerpt a) (author a) (tags a)
    (category a) (featuredImage a) (readTime a) (likes a) (comments a)
    (published a) (publishedAt a) (views a) (bookmarks a) (createdAt a)
    (updatedAt a).
Definition set_content v (a : Article) :=
  mkArticle (title a) v (excerpt a) (author a) (tags a)
    (category a) (featuredImage a) (readTime a) (likes a) (comments a)
    (published a) (publishedAt a) (views a) (bookmarks a) (createdAt a)
    (updatedAt a).
Definition set_excerpt v (a : Article) :=
  mkArticle (title a) (content a) v (author a) (tags a)
    (category a) (featuredImage a) (readTime a) (likes a) (comments a)
    (published a) (publishedAt a) (views a) (bookmarks a) (createdAt a)
    (updatedAt a).
Definition set_author v (a : Article) :=
  mkArticle (title a) (content a) (excerpt a) v (tags a)
    (category a) (featuredImage a) (readTime a) (likes a) (comments a)
    (published a) (publishedAt a) (views a) (bookmarks a) (createdAt a)
    (updatedAt a).
Definition set_tags v (a : Article) :=
  mkArticle (title a) (content a) (excerpt a) (author a) v
    (category a) (featuredImage a) (readTime a) (likes a) (comments a)
    (published a) (publishedAt a) (views a) (bookmarks a) (createdAt a)
    (updatedAt a).
Definition set_category v (a : Article) :=
  mkArticle (title a) (content a) (excerpt a) (author a) (tags a)
    v (featuredImage a) (readTime a) (likes a) (comments a)
    (published a) (publishedAt a) (views a) (bookmarks a) (createdAt a)
    (updatedAt a).
Definition set_featuredImage v (a : Article) :=
  mkArticle (title a) (content a) (excerpt a) (author a) (tags a)
    (category a) v (readTime a) (likes a) (comments a)
    (published a) (publishedAt a) (views a) (bookmarks a) (createdAt a)
    (updatedAt a).
Definition set_readTime v (a : Article) :=
  mkArticle (title a) (content a) (excerpt a) (author a) (tags a)
    (category a) (featuredImage a) v (likes a) (comments a)
    (published a) (publishedAt a) (views a) (bookmarks a) (createdAt a)
    (updatedAt a).
Definition set_likes v (a : Article) :=
  mkArticle (title a) (content a) (excerpt a) (author a) (tags a)
    (category a) (featuredImage a) (readTime a) v (comments a)
    (published a) (publishedAt a) (views a) (bookmarks a) (createdAt a)
    (updatedAt a).
Definition set_comments v (a : Article) :=
  mkArticle (title a) (content a) (excerpt a) (author a) (tags a)
    (category a) (featuredImage a) (readTime a) (likes a) v
    (published a) (publishedAt a) (views a) (bookmarks a) (createdAt a)
    (updatedAt a).
Definition set_published v (a : Article) :=
  mkArticle (title a) (content a) (excerpt a) (author a) (tags a)
    (category a) (featuredImage a) (readTime a) (likes a) (comments a)
    v (publishedAt a) (views a) (bookmarks a) (createdAt a)
    (updatedAt a).
Definition set_publishedAt v (a : Article) :=
  mkArticle (title a) (content a) (excerpt a) (author a) (tags a)
    (category a) (featuredImage a) (readTime a) (likes a) (comments a)
    (published a) v (views a) (bookmarks a) (createdAt a)
    (updatedAt a).
Definition set_views v (a : Article) :=
  mkArticle (title a) (content a) (excerpt a) (author a) (tags a)
    (category a) (featuredImage a) (readTime a) (likes a) (comments a)
    (published a) (publishedAt a) v (bookmarks a) (createdAt a)
    (updatedAt a).
Definition set_bookmarks v (a : Article) :=
  mkArticle (title a) (content a) (excerpt a) (author a) (tags a)
    (category a) (featuredImage a) (readTime a) (likes a) (comments a)
    (published a) (publishedAt a) (views a) v (createdAt a)
    (updatedAt a).
Definition set_updatedAt v (a : Article) :=
  mkArticle (title a) (content a) (excerpt a) (author a) (tags a)
    (category a) (featuredImage a) (readTime a) (likes a) (comments a)
    (published a) (publishedAt a) (views a) (bookmarks a) (createdAt a)
    v.

(** ** The [pre('save')] hook

    [Path] names the paths the schema declares; the hook asks
    [isModified] about two of them. *)
Inductive Path :=
| P_title | P_content | P_excerpt | P_author | P_tags | P_category
| P_featuredImage | P_readTime | P_likes | P_comments | P_published
| P_publishedAt | P_views | P_bookmarks.

#[global] Instance Path_eq_dec : EqDecision Path.
Proof. solve_decision. Defined.

Definition all_paths : list Path :=
  [P_title; P_content; P_excerpt; P_author; P_tags; P_category;
   P_featuredImage; P_readTime; P_likes; P_comments; P_published;
   P_publishedAt; P_views; P_bookmarks].

Definition wordsPerMinute : Z := 200.

Definition wordCount (c : jsstring) : Z := Z.of_nat (length (split_ws c)).

(** The derived excerpt: markers stripped from the whole content, the
    first 300 code units of that, and three dots when exactly 300 code
    units were kept. *)
Definition plainText (c : jsstring) : jsstring :=
  substring0 300 (strip_markers c).

Definition derive_excerpt (c : jsstring) : jsstring :=
  plainText c ++ (if (length (plainText c) =? 300)%nat then js "..." else []).

Definition pre_save (isModified : Path → bool) (now : Date) (this : Article)
  : Article :=
  let this :=
    if isModified P_content
    then set_readTime (ceil_div (wordCount (content this)) wordsPerMinute) this
    else this in
  let this :=
    if isModified P_content && negb (truthy_str (excerpt this))
    then set_excerpt (Some (derive_excerpt (content this))) this
    else this in
  let this :=
    if isModified P_published && published this
       && negb (bool_decide (is_Some (publishedAt this)))
    then set_publishedAt (Some now) this
    else this in
  this.

(** ** Saving a document

    [doc.save()] of the ODM runs, in this order: schema validation, the
    [pre('save')] hook, the [timestamps] option, and the write.
    Validation covers every path of the document, those a request has
    modified and those loaded from the store alike. What the hook
    assigns is written without validation, and is validated by the next
    [save] of the document. *)

Definition categories : list jsstring :=
  js <$> ["Technology"; "Health"; "Business"; "Science"; "Politics";
          "Sports"; "Entertainment"; "Other"]%string.

Definition nonempty (s : jsstring) : bool :=
  match s with [] => false | _ => true end.

Definition comment_ok (c : Comment) : bool :=
  nonempty (comment_content c) && (length (comment_content c) <=? 1000)%nat.

(** The validators of the schema: [required] and [maxlength] of
    [title], [required] of [content], [maxlength] of [excerpt] and of
    each tag, [enum] of [category], and those of each comment. The
    required [author] and [comments.user] are always there in this
    model. *)
Definition validate (doc : Article) : bool :=
  nonempty (title doc) && (length (title doc) <=? 200)%nat
  && nonempty (content doc)
  && (length (default [] (excerpt doc)) <=? 300)%nat
  && forallb (λ t, (length t <=? 30)%nat) (tags doc)
  && bool_decide (category doc ∈ categories)
  && forallb comment_ok (comments doc).

Definition timestamps (isNew : bool) (isModified : Path → bool) (now : Date)
    (doc : Article) : Article :=
  if isNew then
    mkArticle (title doc) (content doc) (excerpt doc) (author doc) (tags doc)
      (category doc) (featuredImage doc) (readTime doc) (likes doc)
      (comments doc) (published doc) (publishedAt doc) (views doc)
      (bookmarks doc) now now
  else if existsb isModified all_paths then set_updatedAt now doc
  else doc.

(** [None] stands for the validation error [save] throws. *)
Definition save (isNew : bool) (isModified : Path → bool) (now : Date)
    (id : ObjectId) (doc : Article) (db : gmap N Article)
  : option (Article * gmap N Article) :=
  if validate doc then
    let doc := timestamps isNew isModified now (pre_save isModified now doc) in
    Some (doc, <[id := doc]> db)
  else None.

(** ** Responses *)

Inductive Response (A : Type) :=
| Ok (status : nat) (body : A)
| Err (status : nat) (message : string).
Arguments Ok {A} status body.
Arguments Err {A} status message.

Definition status_of {A} (r : Response A) : nat :=
  match r with Ok s _ => s | Err s _ => s end.

(** ** Create and update

    [valid] is the outcome of [validationResult(req).isEmpty()], and
    [toLowerCase] is the string method the [lowercase] setter of [tags]
    calls.

    [ArticleBody] holds the six keys the create route takes out of the
    request body. [Updates] is the request body of the update route,
    which [Object.assign] copies onto the document key by key: one
    optional field for each path the schema declares, holding the value
    as the ODM casts it ([null] is [None] for [excerpt] and
    [publishedAt]). A key that names neither a path nor a member of
    the document is not stored; the paths the ODM adds to the schema
    ([_id], [__v] and the two timestamps, [createdAt] being immutable)
    are not among the fields. *)

Record ArticleBody := mkBody {
  b_title : option jsstring;
  b_content : option jsstring;
  b_excerpt : option jsstring;
  b_tags : option (list jsstring);
  b_category : option jsstring;
  b_published : option bool
}.

Record Updates := mkUpdates {
  u_title : option jsstring;
  u_content : option jsstring;
  u_excerpt : option (option jsstring);
  u_author : option ObjectId;
  u_tags : option (list jsstring);
  u_category : option jsstring;
  u_featuredImage : option Image;
  u_readTime : option Z;
  u_likes : option (list Like);
  u_comments : option (list Comment);
  u_published : option bool;
  u_publishedAt : option (option Date);
  u_views : option Z;
  u_bookmarks : option (list ObjectId)
}.

Section CreateUpdate.
Variable toLowerCase : jsstring → jsstring.

(** The setters of a tag: [trim], then [lowercase]. *)
Definition tag_setter (t : jsstring) : jsstring := toLowerCase (trim t).

(** [new Article({ title, content, excerpt, author: req.user._id,
    tags: tags || [], category: category || 'Other',
    published: published || false })]; a missing [title] or [content]
    leaves a document that fails the [required] validator. *)
Definition new_Article (user : ObjectId) (body : ArticleBody)
  : option Article :=
  t ← b_title body;
  c ← b_content body;
  Some (mkArticle (trim t) c (b_excerpt body) user
          (tag_setter <$> default [] (b_tags body))
          (match b_category body with
           | Some (x :: k) => x :: k
           | _ => js "Other"
           end)
          (mkImage None None) 1 [] [] (default false (b_published body))
          None 0 [] 0 0).

Definition create_article (valid : bool) (user new_id : ObjectId)
    (now : Date) (body : ArticleBody) (db : gmap N Article)
  : Response Article * gmap N Article :=
  if negb valid then (Err 400 "Validation failed", db) else
  match new_Article user body with
  | None => (Err 500 "Server error", db)
  | Some article =>
      match save true (λ _, true) now new_id article db with
      | Some (doc, db') => (Ok 201 doc, db')
      | None => (Err 500 "Server error", db)
      end
  end.

(** [article[key] = updates[key]] when [updates] has the key. *)
Definition assign_key {V} (set : V → Article → Article) (value : option V)
    (a : Article) : Article :=
  match value with
  | Some v => set v a
  | None => a
  end.

(** [Object.assign(article, updates)]: each key of the body is assigned
    to the path of its name, through the setters of the path. *)
Definition assign (updates : Updates) (a : Article) : Article :=
  let a := assign_key (λ v, set_title (trim v)) (u_title updates) a in
  let a := assign_key set_content (u_content updates) a in
  let a := assign_key set_excerpt (u_excerpt updates) a in
  let a := assign_key set_author (u_author updates) a in
  let a := assign_key (λ v, set_tags (tag_setter <$> v)) (u_tags updates) a in
  let a := assign_key set_category (u_category updates) a in
  let a := assign_key set_featuredImage (u_featuredImage updates) a in
  let a := assign_key set_readTime (u_readTime updates) a in
  let a := assign_key set_likes (u_likes updates) a in
  let a := assign_key set_comments (u_comments updates) a in
  let a := assign_key set_published (u_published updates) a in
  let a := assign_key set_publishedAt (u_publishedAt updates) a in
  let a := assign_key set_views (u_views updates) a in
  let a := assign_key set_bookmarks (u_bookmarks updates) a in
  a.

(** A path is modified when the assigned value differs from the stored
    one. *)
Definition changed (old new : Article) (p : Path) : bool :=
  match p with
  | P_title => bool_decide (title old ≠ title new)
  | P_content => bool_decide (content old ≠ content new)
  | P_excerpt => bool_decide (excerpt old ≠ excerpt new)
  | P_author => bool_decide (author old ≠ author new)
  | P_tags => bool_decide (tags old ≠ tags new)
  | P_category => bool_decide (category old ≠ category new)
  | P_featuredImage => bool_decide (featuredImage old ≠ featuredImage new)
  | P_readTime => bool_decide (readTime old ≠ readTime new)
  | P_likes => bool_decide (likes old ≠ likes new)
  | P_comments => bool_decide (comments old ≠ comments new)
  | P_published => bool_decide (published old ≠ published new)
  | P_publishedAt => bool_decide (publishedAt old ≠ publishedAt new)
  | P_views => bool_decide (views old ≠ views new)
  | P_bookmarks => bool_decide (bookmarks old ≠ bookmarks new)
  end.

Definition update_article (valid : bool) (user id : ObjectId) (now : Date)
    (updates : Updates) (db : gmap N Article)
  : Response Article * gmap N Article :=
  if negb valid then (Err 400 "Validation failed", db) else
  match db !! id with
  | None => (Err 404 "Article not found", db)
  | Some article =>
      if bool_decide (author article ≠ user)
      then (Err 403 "Not authorized to update this article", db)
      else
        let article' := assign updates article in
        match save false (changed article article') now id article' db with
        | Some (doc, db') => (Ok 200 doc, db')
        | None => (Err 500 "Server error", db)
        end
  end.
End CreateUpdate.

(** ** Like and bookmark toggles *)

Record LikeResult := mkLikeResult { likesCount : nat; isLiked : bool }.

Definition only (p : Path) : Path → bool := λ q, bool_decide (q = p).

Definition like_article (user id new_id : ObjectId) (now : Date)
    (db : gmap N Article) : Response LikeResult * gmap N Article :=
  match db !! id with
  | None => (Err 404 "Article not found", db)
  | Some article =>
      let existingLike :=
        list_find (λ like, like_user like = user) (likes article) in
      let article' :=
        match existingLike with
        | Some _ =>
            set_likes (filter (λ like, like_user like ≠ user) (likes article))
              article
        | None => set_likes (likes article ++ [mkLike new_id user now]) article
        end in
      match save false (only P_likes) now id article' db with
      | Some (doc, db') =>
          (Ok 200 (mkLikeResult (length (likes doc))
                     (negb (bool_decide (is_Some existingLike)))), db')
      | None => (Err 500 "Server error", db)
      end
  end.

Definition bookmark_article (user id : ObjectId) (now : Date)
    (db : gmap N Article) : Response bool * gmap N Article :=
  match db !! id with
  | None => (Err 404 "Article not found", db)
  | Some article =>
      let isBookmarked := bool_decide (user ∈ bookmarks article) in
      let article' :=
        if isBookmarked
        then set_bookmarks (filter (λ b, b ≠ user) (bookmarks article)) article
        else set_bookmarks (bookmarks article ++ [user]) article in
      match save false (only P_bookmarks) now id article' db with
      | Some (doc, db') => (Ok 200 (negb isBookmarked), db')
      | None => (Err 500 "Server error", db)
      end
  end.

(** ** Comments

    [content] is [req.body.content] as the sanitizers leave it. *)

Definition comment_by_id (cid : ObjectId) (a : Article) : option Comment :=
  snd <$> list_find (λ c, comment_id c = cid) (comments a).

(** [comment.content = v] on the subdocument [comments.id(cid)] returns:
    the first comment with that id. *)
Fixpoint edit_first (cid : ObjectId) (v : jsstring) (cs : list Comment)
  : list Comment :=
  match cs with
  | [] => []
  | c :: cs' =>
      if bool_decide (comment_id c = cid)
      then mkComment (comment_id c) (comment_user c) v (comment_createdAt c)
           :: cs'
      else c :: edit_first cid v cs'
  end.

Definition add_comment (valid : bool) (user id new_id : ObjectId)
    (now : Date) (content : jsstring) (db : gmap N Article)
  : Response Comment * gmap N Article :=
  if negb valid then (Err 400 "Validation failed", db) else
  match db !! id with
  | None => (Err 404 "Article not found", db)
  | Some article =>
      let comment := mkComment new_id user content now in
      let article' := set_comments (comments article ++ [comment]) article in
      match save false (only P_comments) now id article' db with
      | Some (doc, db') =>
          match last (comments doc) with
          | Some newComment => (Ok 201 newComment, db')
          | None => (Err 500 "Server error", db')
          end
      | None => (Err 500 "Server error", db)
      end
  end.

Definition update_comment (valid : bool) (user id cid : ObjectId)
    (now : Date) (content : jsstring) (db : gmap N Article)
  : Response Comment * gmap N Article :=
  if negb valid then (Err 400 "Validation failed", db) else
  match db !! id with
  | None => (Err 404 "Article not found", db)
  | Some article =>
      match comment_by_id cid article with
      | None => (Err 404 "Comment not found", db)
      | Some comment =>
          if bool_decide (comment_user comment ≠ user)
          then (Err 403 "Not authorized to update this comment", db)
          else
            let article' :=
              set_comments (edit_first cid content (comments article))
                article in
            match save false (changed article article') now id article' db with
            | Some (doc, db') =>
                match comment_by_id cid doc with
                | Some updatedComment => (Ok 200 updatedComment, db')
                | None => (Err 500 "Server error", db')
                end
            | None => (Err 500 "Server error", db)
            end
      end
  end.

Definition delete_comment (user id cid : ObjectId) (now : Date)
    (db : gmap N Article) : Response unit * gmap N Article :=
  match db !! id with
  | None => (Err 404 "Article not found", db)
  | Some article =>
      match comment_by_id cid article with
      | None => (Err 404 "Comment not found", db)
      | Some comment =>
          if bool_decide (comment_user comment ≠ user)
             && bool_decide (author article ≠ user)
          then (Err 403 "Not authorized to delete this comment", db)
          else
            let article' :=
              set_comments
                (filter (λ c, comment_id c ≠ cid) (comments article))
                article in
            match save false (only P_comments) now id article' db with
            | Some (doc, db') => (Ok 200 (), db')
            | None => (Err 500 "Server error", db)
            end
      end
  end.

(** ** Detail

    [requester] is [req.user] as [optionalAuth] leaves it. The view
    counter is raised by [findByIdAndUpdate], which the [timestamps]
    option extends with [updatedAt]. *)

Definition isAuthor (requester : option ObjectId) (a : Article) : bool :=
  match requester with
  | Some u => bool_decide (author a = u)
  | None => false
  end.

Definition get_article (requester : option ObjectId) (id : ObjectId)
    (now : Date) (db : gmap N Article) : Response Article * gmap N Article :=
  match db !! id with
  | None => (Err 404 "Article not found", db)
  | Some article =>
      if negb (published article) && negb (isAuthor requester article)
      then (Err 404 "Article not found", db)
      else
        (Ok 200 (set_views (views article + 1) article),
         alter (λ a, set_updatedAt now (set_views (views a + 1) a)) id db)
  end.

(** ** Sorting as the document store does it

    A sort path is resolved field by field, entering the elements of an
    array on the way; a document in which the path selects nothing sorts
    as [null]. Values of different types are ordered by type first:
    null, numbers, ObjectIds, dates. *)

Inductive BValue :=
| BNull | BNum (z : Z) | BOid (o : ObjectId) | BDate (d : Date).

Definition bson_rank (v : BValue) : Z :=
  match v with BNull => 1 | BNum _ => 2 | BOid _ => 7 | BDate _ => 9 end.

Definition bson_payload (v : BValue) : Z :=
  match v with BNull => 0 | BNum z => z | BOid o => Z.of_N o | BDate d => d end.

Definition bson_leb (x y : BValue) : bool :=
  (bson_rank x <? bson_rank y)
  || (bson_rank x =? bson_rank y) && (bson_payload x <=? bson_payload y).

Definition bson_max (x y : BValue) : BValue := if bson_leb x y then y else x.

(** The fields of a like subdocument. *)
Definition like_field (f : string) (l : Like) : option BValue :=
  if bool_decide (f = "_id"%string) then Some (BOid (like_id l))
  else if bool_decide (f = "user"%string) then Some (BOid (like_user l))
  else if bool_decide (f = "createdAt"%string) then Some (BDate (like_createdAt l))
  else None.

(** The sort paths of the routes: [views], [publishedAt], [createdAt]
    and [likes.<f>]. *)
Inductive SortPath :=
| ByViews | ByPublishedAt | ByCreatedAt | ByLikes (f : string).

Definition path_values (p : SortPath) (a : Article) : list BValue :=
  match p with
  | ByViews => [BNum (views a)]
  | ByPublishedAt => from_option (λ d, [BDate d]) [] (publishedAt a)
  | ByCreatedAt => [BDate (createdAt a)]
  | ByLikes f => omap (like_field f) (likes a)
  end.

(** Key of a descending sort: the largest selected value, [null] when
    there is none. *)
Definition sort_key (p : SortPath) (a : Article) : BValue :=
  foldr bson_max BNull (path_values p a).

(** [a] may come before [b] under [.sort({ p1: -1, p2: -1, ... })]. *)
Fixpoint desc_leb (spec : list SortPath) (a b : Article) : bool :=
  match spec with
  | [] => true
  | p :: spec' =>
      let ka := sort_key p a in
      let kb := sort_key p b in
      if bson_leb ka kb && bson_leb kb ka then desc_leb spec' a b
      else bson_leb kb ka
  end.

Definition before (spec : list SortPath) (x y : ObjectId * Article) : Prop :=
  Is_true (desc_leb spec x.2 y.2).

#[global] Instance before_dec spec x y : Decision (before spec x y).
Proof. unfold before. apply _. Defined.

Definition sort_desc (spec : list SortPath) (l : list (ObjectId * Article))
  : list (ObjectId * Article) :=
  merge_sort (before spec) l.

(** ** Pages

    [parseInt(x) || d], where [x] is [None] when [parseInt] gives
    [NaN]: a negative number is kept, zero and [NaN] give [d]. *)
Definition or_default (d : Z) (x : option Z) : Z :=
  match x with
  | Some z => if z =? 0 then d else z
  | None => d
  end.

Record Page := mkPage {
  articles : list (ObjectId * Article);
  page : Z;
  limit : Z;
  total : nat;
  pages : Z
}.

(** [.skip(skip).limit(limit)] on the sorted result of a query. The
    store refuses a negative [skip] ([None]: the query throws); of a
    negative [limit] the driver sends the absolute value. *)
Definition skip_limit {A} (skip limit : Z) (found : list A)
  : option (list A) :=
  if skip <? 0 then None
  else Some (take (Z.to_nat (Z.abs limit)) (drop (Z.to_nat skip) found)).

(** The page a list route answers with, [None] when its query throws;
    [total] is the [countDocuments] of the same query. *)
Definition paginate (q_page q_limit : option Z)
    (found : list (ObjectId * Article)) : option Page :=
  let page := or_default 1 q_page in
  let limit := or_default 10 q_limit in
  let skip := (page - 1) * limit in
  articles ← skip_limit skip limit found;
  Some (mkPage articles page limit (length found)
          (ceil_div (Z.of_nat (length found)) limit)).

(** The response of a list route: the page, or the answer of its
    [catch] block. *)
Definition page_response (p : option Page) : Response Page :=
  match p with
  | Some pg => Ok 200 pg
  | None => Err 500 "Server error"
  end.

(** ** The public feed

    [regex_i pattern] is the case-insensitive [$regex] match of the
    store ([None]: the pattern is rejected), [castObjectId] the cast the
    ODM applies to the [author] parameter. The ODM casts the value of
    the [tags] condition as it casts a tag, through the setters of the
    path. The response is modelled by the documents its entries are
    built from; [requester] only adds the per-user flags to an entry and
    plays no part in the selection. *)

Record ListQuery := mkListQuery {
  q_page : option Z;
  q_limit : option Z;
  q_tag : option jsstring;
  q_category : option jsstring;
  q_search : option jsstring;
  q_author : option jsstring
}.

Definition present (o : option jsstring) : option jsstring :=
  match o with
  | Some s => if nonempty s && nonempty (trim s) then Some (trim s) else None
  | None => None
  end.

Section Feed.
Variable toLowerCase : jsstring → jsstring.
Variable regex_i : jsstring → option (jsstring → bool).
Variable castObjectId : jsstring → option ObjectId.

(** The query object of the feed, as a predicate on documents; [None]
    when the store or the ODM rejects it. *)
Definition feed_query (q : ListQuery) : option (Article → bool) :=
  let by_published := λ a : Article, published a in
  let by_tag := λ a : Article,
    match present (q_tag q) with
    | Some t => bool_decide (tag_setter toLowerCase t ∈ tags a)
    | None => true
    end in
  let by_category := λ a : Article,
    match present (q_category q) with
    | Some c =>
        if bool_decide (q_category q = Some (js "All")) then true
        else bool_decide (category a = c)
    | None => true
    end in
  author_filter ←
    match present (q_author q) with
    | Some s => (λ o (a : Article), bool_decide (author a = o)) <$> castObjectId s
    | None => Some (λ _, true)
    end;
  search_filter ←
    match present (q_search q) with
    | Some searchTerm =>
        (λ m (a : Article), m (title a) || m (content a) || existsb m (tags a))
          <$> regex_i searchTerm
    | None => Some (λ _, true)
    end;
  Some (λ a, by_published a && by_tag a && by_category a
             && author_filter a && search_filter a).

Definition list_articles (requester : option ObjectId) (q : ListQuery)
    (db : gmap N Article) : Response Page :=
  match feed_query q with
  | None => Err 500 "Server error"
  | Some matches =>
      let found := filter (λ ia, Is_true (matches ia.2)) (map_to_list db) in
      page_response (paginate (q_page q) (q_limit q)
                       (sort_desc [ByPublishedAt] found))
  end.
End Feed.

(** ** Trending

    [dateThreshold.setDate(dateThreshold.getDate() - days)] moves the
    clock back by whole days (of 86400000 ms, the server clock being
    UTC). *)

Definition msPerDay : Z := 86400000.

Definition trending_candidate (dateThreshold : Date) (a : Article) : bool :=
  published a
  && match publishedAt a with
     | Some d => dateThreshold <=? d
     | None => false
     end.

Definition trending_sort : list SortPath :=
  [ByViews; ByLikes "length"; ByPublishedAt].

Definition trending (requester : option ObjectId) (q_page q_limit : option Z)
    (q_days : option Z) (now : Date) (db : gmap N Article) : Response Page :=
  let days := or_default 7 q_days in
  let dateThreshold := now - days * msPerDay in
  let found :=
    filter (λ ia, Is_true (trending_candidate dateThreshold ia.2))
      (map_to_list db) in
  page_response (paginate q_page q_limit (sort_desc trending_sort found)).

(** ** Bulk delete

    The handler's effects are recorded in the order it issues them:
    [deleteImage] calls (whose failures are caught and logged), then the
    [deleteMany]. *)

Inductive Event :=
| ImageDeleted (public_id : jsstring)
| ArticlesDeleted (ids : list ObjectId) (owner : ObjectId).

Definition owned_in (ids : list ObjectId) (user : ObjectId)
    (ia : ObjectId * Article) : Prop :=
  ia.1 ∈ ids ∧ author ia.2 = user.

#[global] Instance owned_in_dec ids user ia : Decision (owned_in ids user ia).
Proof. unfold owned_in. apply _. Defined.

(** One [deleteImage] per found article whose [featuredImage.public_id]
    is truthy. *)
Definition image_events (found : list (ObjectId * Article)) : list Event :=
  omap (λ ia : ObjectId * Article,
          match public_id (featuredImage ia.2) with
          | Some (c :: pid) => Some (ImageDeleted (c :: pid))
          | _ => None
          end) found.

Definition bulk_delete (valid : bool) (user : ObjectId)
    (articleIds : list ObjectId) (db : gmap N Article)
  : Response nat * gmap N Article * list Event :=
  if negb valid then (Err 400 "Validation failed", db, []) else
  let found := map_to_list (filter (owned_in articleIds user) db) in
  if bool_decide (length found ≠ length articleIds)
  then (Err 403 "Some articles not found or not authorized", db, [])
  else
    (Ok 200 (length found),
     filter (λ ia, ¬ owned_in articleIds user ia) db,
     image_events found ++ [ArticlesDeleted articleIds user]).

(** ** Bulk update

    [updates] is a JSON object; [castBoolean] and [castString] are the
    casts the ODM applies to the values of [published] and [category]
    before [updateMany] reaches the store ([None]: a cast error).
    [updateMany] sets every key of the object it is given: [castOther
    key v] is what it does with the value [v] of a key other than these
    two, namely the assignment of the cast value to the path [key]
    names, nothing for a key that names no path of the schema, and
    [None] on a cast error. The [timestamps] option adds [updatedAt] to
    the update. [updateMany] runs neither the schema validators nor the
    [pre('save')] hook, and [modifiedCount] counts the matched documents
    the update changed. *)

Inductive JsValue :=
| JBool (b : bool) | JNum (n : Z) | JStr (s : jsstring).

#[global] Instance JsValue_eq_dec : EqDecision JsValue.
Proof. solve_decision. Defined.

Definition allowedUpdates : list string := ["published"; "category"]%string.

(** The casted [$set] document: for [published], [category] and
    [publishedAt], whether the key is set and to what; the assignments
    of the other keys; and [updatedAt]. *)
Record SetDoc := mkSetDoc {
  set_pub : option bool;
  set_cat : option jsstring;
  set_pubAt : option Date;
  set_other : list (Article → Article);
  set_upd : Date
}.

Section BulkUpdate.
Variable castBoolean : JsValue → option bool.
Variable castString : JsValue → option jsstring.
Variable castOther : string → JsValue → option (Article → Article).

(** The keys of the update other than [published] and [category]. *)
Definition other_keys (filteredUpdates : gmap string JsValue)
  : list (string * JsValue) :=
  map_to_list
    (filter (λ kv : string * JsValue,
               kv.1 ≠ "published"%string ∧ kv.1 ≠ "category"%string)
       filteredUpdates).

Definition cast_update (filteredUpdates : gmap string JsValue)
    (stamp : option Date) (now : Date) : option SetDoc :=
  pub ← match filteredUpdates !! "published"%string with
        | Some v => Some <$> castBoolean v
        | None => Some None
        end;
  cat ← match filteredUpdates !! "category"%string with
        | Some v => Some <$> castString v
        | None => Some None
        end;
  other ← mapM (λ kv : string * JsValue, castOther kv.1 kv.2)
            (other_keys filteredUpdates);
  Some (mkSetDoc pub cat stamp other now).

Definition apply_set (u : SetDoc) (a : Article) : Article :=
  let a := foldr (λ set a, set a) a (set_other u) in
  let a := from_option (λ v, set_published v a) a (set_pub u) in
  let a := from_option (λ v, set_category v a) a (set_cat u) in
  let a := from_option (λ v, set_publishedAt (Some v) a) a (set_pubAt u) in
  set_updatedAt (set_upd u) a.

Definition updateMany (ids : list ObjectId) (user : ObjectId) (u : SetDoc)
    (db : gmap N Article) : nat * gmap N Article :=
  (size (filter (λ ia, owned_in ids user ia ∧ apply_set u ia.2 ≠ ia.2) db),
   map_imap (λ i a, Some (if decide (owned_in ids user (i, a))
                          then apply_set u a else a)) db).

(** The keys of [updates] that are in [allowedUpdates]. *)
Definition filter_updates (updates : gmap string JsValue)
  : gmap string JsValue :=
  filter (λ kv : string * JsValue, kv.1 ∈ allowedUpdates) updates.

(** [if (filteredUpdates.published === true)
       filteredUpdates.publishedAt = new Date()] *)
Definition publish_stamp (filteredUpdates : gmap string JsValue)
    (now : Date) : option Date :=
  if bool_decide (filteredUpdates !! "published"%string = Some (JBool true))
  then Some now else None.

Definition bulk_update (valid : bool) (user : ObjectId)
    (articleIds : list ObjectId) (updates : gmap string JsValue)
    (now : Date) (db : gmap N Article) : Response nat * gmap N Article :=
  if negb valid then (Err 400 "Validation failed", db) else
  let filteredUpdates := filter_updates updates in
  if bool_decide (size filteredUpdates = 0%nat)
  then (Err 400 "No valid updates provided", db)
  else
    let stamp := publish_stamp filteredUpdates now in
    match cast_update filteredUpdates stamp now with
    | None => (Err 500 "Server error", db)
    | Some u =>
        let '(modifiedCount, db') := updateMany articleIds user u db in
        (Ok 200 modifiedCount, db')
    end.
End BulkUpdate.

(** ** Reference definitions

    Notions the properties below are stated with. They are not part of
    the program. *)

(** The number of words of a text, as a reader counts them: the maximal
    runs of characters that are not whitespace. *)
Fixpoint count_words_go (in_word : bool) (s : jsstring) : nat :=
  match s with
  | [] => 0
  | c :: s' =>
      if is_space c then count_words_go false s'
      else ((if in_word then 0 else 1) + count_words_go true s')%nat
  end.

Definition count_words (s : jsstring) : nat := count_words_go false s.

(** Whether the text ends in whitespace ([d] for the empty text). *)
Fixpoint ends_space (d : bool) (s : jsstring) : bool :=
  match s with
  | [] => d
  | c :: s' => ends_space (is_space c) s'
  end.

Definition starts_space (s : jsstring) : bool :=
  match s with
  | [] => true
  | c :: _ => is_space c
  end.


(** The read time the specification states: [max(1, ceil(words / 200))]. *)
Definition spec_readTime (c : jsstring) : Z :=
  Z.max 1 (ceil_div (Z.of_nat (count_words c)) 200).

(** The excerpt the specification states: the markers stripped from the
    first 300 characters of the content, an ellipsis when the content
    was cut. *)
Definition spec_excerpt (c : jsstring) : jsstring :=
  strip_markers (substring0 300 c)
  ++ (if (300 <? length c)%nat then js "..." else []).

Definition body_of {A} (r : Response A) : option A :=
  match r with Ok _ b => Some b | Err _ _ => None end.

(** Sample requests. *)
Definition two_hundred_words : jsstring :=
  concat (replicate 200 (js "word ")).

Definition draft_of (c : jsstring) : ArticleBody :=
  mkBody (Some (js "Title")) (Some c) None None None None.

(** The update request that carries the six keys of [body] and no
    other. *)
Definition updates_of (body : ArticleBody) : Updates :=
  mkUpdates (b_title body) (b_content body) (Some <$> b_excerpt body) None
    (b_tags body) (b_category body) None None None None (b_published body)
    None None None.

Definition markers_then_hello : jsstring :=
  replicate 300 35%N ++ js "hello".

(** The number of stored documents a call changed. *)
Definition updated_records (db db' : gmap N Article) : nat :=
  size (filter (λ ia : N * Article, db' !! ia.1 ≠ Some ia.2) db).

(** Two documents that agree outside the paths a bulk update writes
    ([published], [category], [publishedAt], [updatedAt]). *)
Definition same_outside_bulk (a a' : Article) : Prop :=
  title a' = title a ∧ content a' = content a ∧ excerpt a' = excerpt a
  ∧ author a' = author a ∧ tags a' = tags a
  ∧ featuredImage a' = featuredImage a ∧ readTime a' = readTime a
  ∧ likes a' = likes a ∧ comments a' = comments a ∧ views a' = views a
  ∧ bookmarks a' = bookmarks a ∧ createdAt a' = createdAt a.

(** Casts that accept the values of a path's own type, to run the
    examples with. *)
Definition own_castBoolean (v : JsValue) : option bool :=
  match v with JBool b => Some b | _ => None end.

Definition own_castString (v : JsValue) : option jsstring :=
  match v with JStr s => Some s | _ => None end.

(** What [updateMany] does with the other keys, for the examples: a
    string under [title] is set as the title, a number under [views] as
    the view counter, and a key that names no path is dropped. *)
Definition own_castOther (key : string) (v : JsValue)
  : option (Article → Article) :=
  if bool_decide (key = "title"%string)
  then match v with JStr s => Some (set_title (trim s)) | _ => None end
  else if bool_decide (key = "views"%string)
  then match v with JNum n => Some (set_views n) | _ => None end
  else Some (λ a, a).

(** A stored article of [owner]. *)
Definition sample (owner : ObjectId) (pub : bool) (pubAt : option Date)
    (v : Z) (lk : list Like) : Article :=
  mkArticle (js "Title") (js "Some content") None owner [] (js "Other")
    (mkImage None None) 1 lk [] pub pubAt v [] 0 0.

(** Like state and bookmark state of a user on an article. *)
Definition user_likes (user : ObjectId) (a : Article) : bool :=
  bool_decide (user ∈ like_user <$> likes a).

Definition user_bookmarked (user : ObjectId) (a : Article) : bool :=
  bool_decide (user ∈ bookmarks a).

(** The paths a like or bookmark toggle must leave alone. *)
Definition same_content (a a' : Article) : Prop :=
  title a' = title a ∧ content a' = content a ∧ excerpt a' = excerpt a
  ∧ author a' = author a ∧ tags a' = tags a ∧ category a' = category a
  ∧ featuredImage a' = featuredImage a ∧ readTime a' = readTime a
  ∧ comments a' = comments a ∧ published a' = published a
  ∧ publishedAt a' = publishedAt a ∧ views a' = views a.

(** The visibility rule of the specification: published, or requested
    by the author. *)
Definition visible (requester : option ObjectId) (a : Article) : bool :=
  published a || isAuthor requester a.

(** A feed request without filters or paging parameters. *)
Definition plain_query : ListQuery := mkListQuery None None None None None None.

(** The trending order of the specification: views descending, then the
    number of likes descending, then [publishedAt] descending. [true]
    when [a] may come before [b]. *)
Definition spec_trending_before (a b : Article) : bool :=
  (views b <? views a)
  || (views a =? views b)
     && ((length (likes b) <? length (likes a))%nat
         || (length (likes a) =? length (likes b))%nat
            && bson_leb (sort_key ByPublishedAt b) (sort_key ByPublishedAt a)).

(** Ten days after the epoch, in milliseconds, as the clock of the
    trending examples. *)
Definition day (n : Z) : Date := n * msPerDay.

Definition likes_of (users : list ObjectId) : list Like :=
  (λ u, mkLike u u 0) <$> users.

(** ** Requests

    One step is one request served by one of the handlers; the id of a
    new article is fresh. *)

Inductive step (db : gmap N Article) : gmap N Article → Prop :=
| step_create toLowerCase valid user new_id now body :
    db !! new_id = None →
    step db (create_article toLowerCase valid user new_id now body db).2
| step_update toLowerCase valid user id now updates :
    step db (update_article toLowerCase valid user id now updates db).2
| step_detail requester id now :
    step db (get_article requester id now db).2
| step_like user id new_id now :
    step db (like_article user id new_id now db).2
| step_bookmark user id now :
    step db (bookmark_article user id now db).2
| step_add_comment valid user id new_id now text :
    step db (add_comment valid user id new_id now text db).2
| step_update_comment valid user id cid now text :
    step db (update_comment valid user id cid now text db).2
| step_delete_comment user id cid now :
    step db (delete_comment user id cid now db).2
| step_bulk_delete valid user ids :
    step db (bulk_delete valid user ids db).1.2
| step_bulk_update castBoolean castString castOther valid user ids updates now :
    step db (bulk_update castBoolean castString castOther valid user ids
               updates now db).2.

(** Proof automation: case analysis on every [if] of the goal. *)
Ltac case_ifs :=
  repeat match goal with
         | |- context [if ?b then _ else _] => destruct b eqn:?
         end.

(** Turns the comparisons of sort keys in the context into integer
    facts, given the two characterisations of [bson_leb]. *)
Ltac bson_facts leb_true leb_false :=
  repeat match goal with
         | H : bson_leb _ _ = true |- _ => apply leb_true in H
         | H : bson_leb _ _ = false |- _ => apply leb_false in H
         end.

(** * The remaining article routes, the upload filter and the article
      manager of the client *)

(** ** Delete

    [deleteImage] is the upload service's function, given by its
    outcome on a [public_id]: [None] when it resolves, the message of
    the error when it throws. The events are the [deleteImage] calls a
    handler issues. *)

(** [article.featuredImage && article.featuredImage.public_id], when
    truthy. *)
Definition old_image (a : Article) : option jsstring :=
  match public_id (featuredImage a) with
  | Some (c :: pid) => Some (c :: pid)
  | _ => None
  end.

Definition delete_article (deleteImage : jsstring → option string)
    (user id : ObjectId) (db : gmap N Article)
  : Response unit * gmap N Article * list Event :=
  match db !! id with
  | None => (Err 404 "Article not found", db, [])
  | Some article =>
      if bool_decide (author article ≠ user)
      then (Err 403 "Not authorized to delete this article", db, [])
      else
        match old_image article with
        | Some pid =>
            match deleteImage pid with
            | None => (Ok 200 (), delete id db, [ImageDeleted pid])
            | Some _ => (Err 500 "Server error", db, [ImageDeleted pid])
            end
        | None => (Ok 200 (), delete id db, [])
        end
  end.

(** ** Featured image

    [file] is [req.file] as the upload middleware leaves it. The two
    calls of [uploadImage] are given by their outcomes: [primary] for
    the first call, [fallback] for the call made with the Cloudinary
    configuration disabled. [validationError] is the message of the
    error [save] throws when the document does not validate. *)

Record File := mkFile {
  file_originalname : jsstring;
  file_mimetype : jsstring;
  file_size : Z;
  file_buffer : option (list N)
}.

Inductive Outcome :=
| Uploaded (uploadResult : Image)
| Failed (message : string).

(** [s.includes(w)]: [w] starts [s], or is included in what follows the
    first code unit of [s]. *)
Fixpoint starts_with (w s : jsstring) : bool :=
  match w, s with
  | [], _ => true
  | c :: w', d :: s' => (c =? d)%N && starts_with w' s'
  | _ :: _, [] => false
  end.

Fixpoint includes (w s : jsstring) : bool :=
  starts_with w s
  || match s with
     | [] => false
     | _ :: s' => includes w s'
     end.

(** The upload with its fallback: the second call is made when the
    first one throws an error whose message includes ['Cloudinary']. *)
Definition upload_with_fallback (primary fallback : Outcome) : Outcome :=
  match primary with
  | Uploaded r => Uploaded r
  | Failed msg =>
      if includes (js "Cloudinary") (js msg) then fallback else Failed msg
  end.

Definition upload_article_image (deleteImage : jsstring → option string)
    (primary fallback : Outcome) (validationError : string)
    (user id : ObjectId) (now : Date) (file : option File)
    (db : gmap N Article)
  : Response Image * gmap N Article * list Event :=
  match file with
  | None => (Err 400 "Please upload an image file", db, [])
  | Some f =>
      if match file_buffer f with
         | Some buffer => bool_decide (length buffer = 0%nat)
         | None => false
         end
      then (Err 400 "Uploaded file is empty", db, [])
      else if file_size f =? 0
      then (Err 400 "Uploaded file has no content", db, [])
      else
        match db !! id with
        | None => (Err 404 "Article not found", db, [])
        | Some article =>
            if bool_decide (author article ≠ user)
            then (Err 403 "Not authorized to update this article", db, [])
            else
              let released :=
                from_option (λ pid, [ImageDeleted pid]) [] (old_image article) in
              match old_image article ≫= deleteImage with
              | Some msg => (Err 500 ("Server error: " +:+ msg), db, released)
              | None =>
                  match upload_with_fallback primary fallback with
                  | Failed msg =>
                      (Err 500 ("Server error: " +:+ msg), db, released)
                  | Uploaded r =>
                      let article' :=
                        set_featuredImage (mkImage (public_id r) (url r))
                          article in
                      match save false (changed article article') now id
                              article' db with
                      | Some (doc, db') =>
                          (Ok 200 (featuredImage doc), db', released)
                      | None =>
                          (Err 500 ("Server error: " +:+ validationError),
                           db, released)
                      end
                  end
              end
        end
  end.

(** ** The lists of a user

    [my_articles] is [GET /user/my-articles], [bookmarked_articles] is
    [GET /user/bookmarks] and [user_articles] is [GET /user/:userId],
    whose [userId] has passed [validateUserId] and is the ObjectId the
    ODM casts it to. As for the feed, a page is modelled by the
    documents its entries are built from. *)

Definition my_articles (user : ObjectId) (q_page q_limit : option Z)
    (db : gmap N Article) : Response Page :=
  let found :=
    filter (λ ia : ObjectId * Article, author ia.2 = user) (map_to_list db) in
  page_response (paginate q_page q_limit (sort_desc [ByCreatedAt] found)).

Definition bookmarked_articles (user : ObjectId) (q_page q_limit : option Z)
    (db : gmap N Article) : Response Page :=
  let found :=
    filter (λ ia : ObjectId * Article,
              user ∈ bookmarks ia.2 ∧ published ia.2 = true)
      (map_to_list db) in
  page_response (paginate q_page q_limit (sort_desc [ByCreatedAt] found)).

Definition user_articles (requester : option ObjectId) (userId : ObjectId)
    (q_page q_limit : option Z) (db : gmap N Article) : Response Page :=
  let found :=
    filter (λ ia : ObjectId * Article,
              author ia.2 = userId ∧ published ia.2 = true)
      (map_to_list db) in
  page_response (paginate q_page q_limit (sort_desc [ByPublishedAt] found)).

(** ** Statistics

    [countDocuments(query)], and the pipeline [$match] by author then
    [$group] with [_id: null] and a [$sum]: one group when a document
    matches, none otherwise. *)

Record Stats := mkStats {
  totalArticles : nat;
  publishedArticles : nat;
  draftArticles : nat;
  totalViews : Z;
  totalLikes : Z;
  totalComments : Z;
  totalBookmarks : Z
}.

Definition countDocuments (query : Article → Prop)
    `{!∀ a, Decision (query a)} (db : gmap N Article) : nat :=
  length (filter (λ ia : ObjectId * Article, query ia.2) (map_to_list db)).

Definition aggregate_sum (userId : ObjectId) (f : Article → Z)
    (db : gmap N Article) : list Z :=
  match filter (λ ia : ObjectId * Article, author ia.2 = userId)
          (map_to_list db) with
  | [] => []
  | matched => [foldr Z.add 0 ((λ ia, f ia.2) <$> matched)]
  end.

(** [result[0]?.total || 0] *)
Definition total_or_0 (result : list Z) : Z :=
  match result with
  | total :: _ => total
  | [] => 0
  end.

Definition stats_overview (userId : ObjectId) (db : gmap N Article) : Stats :=
  mkStats
    (countDocuments (λ a, author a = userId) db)
    (countDocuments (λ a, author a = userId ∧ published a = true) db)
    (countDocuments (λ a, author a = userId ∧ published a = false) db)
    (total_or_0 (aggregate_sum userId views db))
    (total_or_0 (aggregate_sum userId (λ a, Z.of_nat (length (likes a))) db))
    (total_or_0 (aggregate_sum userId (λ a, Z.of_nat (length (comments a))) db))
    (total_or_0 (aggregate_sum userId (λ a, Z.of_nat (length (bookmarks a))) db)).

(** ** The upload filter ([middleware/smartUpload.js])

    [allowedTypes] is the regular expression [/jpeg|jpg|png|gif|webp/];
    [extname] is [path.extname] and [toLowerCase] the string method.
    [None] accepts the file, [Some message] refuses it with an
    error. *)

Definition allowedTypes : list jsstring :=
  js <$> ["jpeg"; "jpg"; "png"; "gif"; "webp"]%string.

Definition allowedTypes_test (s : jsstring) : bool :=
  existsb (λ w, includes w s) allowedTypes.

Definition fileFilter (extname toLowerCase : jsstring → jsstring)
    (file : File) : option string :=
  let extname :=
    allowedTypes_test (toLowerCase (extname (file_originalname file))) in
  let mimetype := allowedTypes_test (file_mimetype file) in
  if mimetype && extname then None
  else Some "Only image files are allowed"%string.

(** ** The article manager of the client
      ([frontend/src/components/ArticleCard.tsx])

    The state updates of [handleSelectArticle] and [handleSelectAll],
    and the request [handleBulkAction] sends; [articles] is the list
    the manager shows. *)

Definition handleSelectArticle (prev : list ObjectId) (articleId : ObjectId)
  : list ObjectId :=
  if bool_decide (articleId ∈ prev)
  then filter (λ id, id ≠ articleId) prev
  else prev ++ [articleId].

Definition handleSelectAll (selectedArticles : list ObjectId)
    (articles : list (ObjectId * Article)) : list ObjectId :=
  if bool_decide (length selectedArticles = length articles)
  then []
  else articles.*1.

Inductive BulkAction := Publish | Unpublish | Delete.

#[global] Instance BulkAction_eq_dec : EqDecision BulkAction.
Proof. solve_decision. Defined.

(** [None]: the handler returns without a request. The body validator
    of both bulk routes asks for a non-empty array, which the guard on
    [selectedArticles.length] has checked; [castBoolean], [castString]
    and [castOther] are the casts of the bulk update route. *)
Definition handleBulkAction (castBoolean : JsValue → option bool)
    (castString : JsValue → option jsstring)
    (castOther : string → JsValue → option (Article → Article))
    (bulkAction : option BulkAction)
    (selectedArticles : list ObjectId) (user : ObjectId) (now : Date)
    (db : gmap N Article) : option (Response nat * gmap N Article) :=
  match bulkAction with
  | None => None
  | Some action =>
      if bool_decide (length selectedArticles = 0%nat) then None
      else
        match action with
        | Delete => Some (bulk_delete true user selectedArticles db).1
        | _ =>
            Some (bulk_update castBoolean castString castOther true user
                    selectedArticles
                    {[ "published"%string :=
                         JBool (bool_decide (action = Publish)) ]}
                    now db)
        end
  end.

(** ** The GET routes of the router

    [get_routes] lists the paths [router.get] registers, in the order of
    registration. The path of a request is the list of its segments. A
    request goes to the first route whose path matches it: a literal
    segment matches the same segment, whatever the case of its letters,
    and a parameter matches any segment. The first middleware of the
    detail route and of the profile route is [validateObjectId] and
    [validateUserId], which answers 400 unless [isValid], that is
    [mongoose.Types.ObjectId.isValid], accepts the parameter; a request
    so answered is passed to no other route. *)

Inductive Segment := Lit (s : string) | Param (name : string).

Inductive GetRoute :=
| GetFeed | GetDetail | GetMyArticles | GetBookmarks | GetUserArticles
| GetStats | GetTrending.

#[global] Instance GetRoute_eq_dec : EqDecision GetRoute.
Proof. solve_decision. Defined.

Definition get_routes : list (list Segment * GetRoute) :=
  [ ([], GetFeed);
    ([Param "id"], GetDetail);
    ([Lit "user"; Lit "my-articles"], GetMyArticles);
    ([Lit "user"; Lit "bookmarks"], GetBookmarks);
    ([Lit "user"; Param "userId"], GetUserArticles);
    ([Lit "stats"; Lit "overview"], GetStats);
    ([Lit "trending"], GetTrending) ]%string.

(** What the router does with a GET request: it runs the handler of a
    route with the parameters of the path, a middleware of the route
    answers, or no route matches. *)
Inductive Dispatch :=
| Handled (route : GetRoute) (params : list (string * jsstring))
| Refused (status : nat) (message : string)
| Unmatched.

Section Router.
Variable isValid : jsstring → bool.
Variable toLowerCase : jsstring → jsstring.

(** The parameters of the path when it matches the pattern. *)
Fixpoint match_path (pattern : list Segment) (path : list jsstring)
  : option (list (string * jsstring)) :=
  match pattern, path with
  | [], [] => Some []
  | Lit s :: pattern', segment :: path' =>
      if bool_decide (toLowerCase segment = js s)
      then match_path pattern' path' else None
  | Param name :: pattern', segment :: path' =>
      ((name, segment) ::.) <$> match_path pattern' path'
  | _, _ => None
  end.

Definition route_of (path : list jsstring)
  : option (GetRoute * list (string * jsstring)) :=
  head (omap (λ r : list Segment * GetRoute,
                (r.2,.) <$> match_path r.1 path) get_routes).

(** [req.params[name]] *)
Definition param (name : string) (params : list (string * jsstring))
  : option jsstring :=
  (λ p, p.2.2) <$> list_find (λ p : string * jsstring, p.1 = name) params.

Definition validate_param (name message : string)
    (params : list (string * jsstring)) (next : Dispatch) : Dispatch :=
  if from_option isValid false (param name params) then next
  else Refused 400 message.

Definition dispatch_get (path : list jsstring) : Dispatch :=
  match route_of path with
  | None => Unmatched
  | Some (route, params) =>
      match route with
      | GetDetail =>
          validate_param "id" "Invalid article ID format" params
            (Handled route params)
      | GetUserArticles =>
          validate_param "userId" "Invalid user ID format" params
            (Handled route params)
      | _ => Handled route params
      end
  end.
End Router.

(** ** Reference definitions for the properties of these routes *)

(** Whether the router runs the handler of [route]. *)
Definition runs (route : GetRoute) (d : Dispatch) : bool :=
  match d with
  | Handled r _ => bool_decide (r = route)
  | _ => false
  end.

(** [toLowerCase] on the letters A to Z, to run the examples with. *)
Definition ascii_toLowerCase (s : jsstring) : jsstring :=
  (λ c, if (65 <=? c) && (c <=? 90) then c + 32 else c)%N <$> s.

(** An [isValid] to run the examples with: a string of 24 hexadecimal
    digits. *)
Definition is_hex (c : N) : bool :=
  ((48 <=? c) && (c <=? 57) || (65 <=? c) && (c <=? 70)
   || (97 <=? c) && (c <=? 102))%N.

Definition hex24 (s : jsstring) : bool :=
  (length s =? 24)%nat && forallb is_hex s.

(** What the user does in the article manager: a click on the box of
    an article, or on the box that selects all. The selection starts
    empty. *)
Inductive Click := Toggle (articleId : ObjectId) | ToggleAll.

Definition selection_after (articles : list (ObjectId * Article))
    (clicks : list Click) : list ObjectId :=
  foldl (λ selectedArticles click,
           match click with
           | Toggle articleId => handleSelectArticle selectedArticles articleId
           | ToggleAll => handleSelectAll selectedArticles articles
           end) [] clicks.

(** The clicks that are possible on the articles shown. *)
Definition clicks_on (articles : list (ObjectId * Article))
    (clicks : list Click) : Prop :=
  Forall (λ click, match click with
                   | Toggle articleId => articleId ∈ articles.*1
                   | ToggleAll => True
                   end) clicks.

(** A cast to boolean that, like the ODM's, also takes the number 1
    and the string ['true'] for true, to run an example with. *)
Definition lenient_castBoolean (v : JsValue) : option bool :=
  match v with
  | JBool b => Some b
  | JNum n => if n =? 1 then Some true else if n =? 0 then Some false else None
  | JStr s =>
      if bool_decide (s = js "true") then Some true
      else if bool_decide (s = js "false") then Some false else None
  end.

(** The stored articles of [userId], and the sum of [f] over a list of
    articles. *)
Definition own (userId : ObjectId) (db : gmap N Article)
  : list (ObjectId * Article) :=
  filter (λ ia : ObjectId * Article, author ia.2 = userId) (map_to_list db).

Definition sum_of (f : Article → Z) (l : list (ObjectId * Article)) : Z :=
  foldr Z.add 0 ((λ ia : ObjectId * Article, f ia.2) <$> l).

(** The statistics of a list of articles. *)
Definition stats_of (l : list (ObjectId * Article)) : Stats :=
  mkStats (length l)
    (length (filter (λ ia : ObjectId * Article, published ia.2 = true) l))
    (length (filter (λ ia : ObjectId * Article, published ia.2 = false) l))
    (sum_of views l)
    (sum_of (λ a, Z.of_nat (length (likes a))) l)
    (sum_of (λ a, Z.of_nat (length (comments a))) l)
    (sum_of (λ a, Z.of_nat (length (bookmarks a))) l).

(** Two documents that agree outside [featuredImage] and [updatedAt]. *)
Definition same_outside_image (a a' : Article) : Prop :=
  title a' = title a ∧ content a' = content a ∧ excerpt a' = excerpt a
  ∧ author a' = author a ∧ tags a' = tags a ∧ category a' = category a
  ∧ readTime a' = readTime a ∧ likes a' = likes a
  ∧ comments a' = comments a ∧ published a' = published a
  ∧ publishedAt a' = publishedAt a ∧ views a' = views a
  ∧ bookmarks a' = bookmarks a ∧ createdAt a' = createdAt a.


(** The validators the stored articles pass in every store the
    handlers reach: those of [title], [content], the tags and the
    comments. Those of [excerpt] and [category] are not among them. *)
Definition always_valid (a : Article) : bool :=
  nonempty (title a) && (length (title a) <=? 200)%nat
  && nonempty (content a)
  && forallb (λ t, (length t <=? 30)%nat) (tags a)
  && forallb comment_ok (comments a).

Definition store_valid (db : gmap N Article) : Prop :=
  ∀ i a, db !! i = Some a → always_valid a = true.


(** One request served by any of the modelled handlers. *)
Inductive step_any (db : gmap N Article) : gmap N Article → Prop :=
| step_any_step db' : step db db' → step_any db db'
| step_any_delete deleteImage user id :
    step_any db (delete_article deleteImage user id db).1.2
| step_any_image deleteImage primary fallback validationError user id now file :
    step_any db
      (upload_article_image deleteImage primary fallback validationError
         user id now file db).1.2.

Inductive reachable_any : gmap N Article → Prop :=
| reachable_any_empty : reachable_any ∅
| reachable_any_step db db' :
    reachable_any db → step_any db db' → reachable_any db'.


(** Proof automation: closes a goal about the status of a response by
    case analysis on the conjunctions, disjunctions and existentials
    at hand. *)
Ltac solve_refusal :=
  solve [ repeat match goal with
                 | |- _ ↔ _ => split
                 | |- _ → _ => intro
                 | H : _ ∧ _ |- _ => destruct H
                 | H : _ ∨ _ |- _ => destruct H
                 | H : ∃ _, _ |- _ => destruct H
                 | H : Some _ = Some _ |- _ => injection H as H; subst
                 | H : Some _ = None |- _ => discriminate H
                 | H : None = Some _ |- _ => discriminate H
                 end; try done; try congruence; eauto ].
(** * Properties *)

(** ** Arithmetic and strings *)

Lemma ceil_div_spec a b q :
  0 < b → ceil_div a b = q ↔ (q - 1) * b < a ≤ q * b.
Proof.
  intros Hb. unfold ceil_div.
  pose proof (Z.div_mod (- a) b ltac:(lia)) as Hdm.
  pose proof (Z.mod_pos_bound (- a) b Hb) as Hm.
  split; intros H; [subst q; nia|].
  assert (- a / b = - q) as ->; [|lia].
  symmetry. apply (Z.div_unique _ _ _ (q * b - a)); lia.
Qed.

Lemma ceil_div_pos a b : 0 < b → 1 ≤ a → 1 ≤ ceil_div a b.
Proof.
  intros Hb Ha.
  destruct (ceil_div_spec a b (ceil_div a b) Hb) as [H _].
  specialize (H eq_refl). nia.
Qed.

Lemma split_go_nonempty in_sep piece s : (1 ≤ length (split_go in_sep piece s))%nat.
Proof.
  revert in_sep piece. induction s as [|c s IH]; intros in_sep piece; simpl.
  - lia.
  - destruct (is_space c); [destruct in_sep|]; simpl; auto with lia.
Qed.

Lemma wordCount_pos c : 1 ≤ wordCount c.
Proof.
  unfold wordCount, split_ws.
  pose proof (split_go_nonempty false [] c). lia.
Qed.

Lemma split_go_length s :
  ∀ piece,
    length (split_go false piece s)
    = (count_words_go true s + 1 + (if ends_space false s then 1 else 0))%nat
    ∧ length (split_go true piece s)
      = (count_words_go false s + (if ends_space true s then 1 else 0))%nat.
Proof.
  induction s as [|c s IH]; intros piece; simpl; [done|].
  destruct (is_space c) eqn:Hc; simpl.
  - destruct (IH []) as [_ ->]. split; lia.
  - destruct (IH (piece ++ [c])) as [-> _]. split; lia.
Qed.

(** What [split(/\s+/).length] counts: the words, one more piece when
    the text is empty or starts with whitespace, and one more when it
    ends with whitespace. *)
Lemma wordCount_count_words c :
  wordCount c
  = Z.of_nat (count_words c)
    + (if starts_space c then 1 else 0)
    + (if ends_space false c then 1 else 0).
Proof.
  unfold wordCount, split_ws, count_words.
  destruct (split_go_length c []) as [-> _].
  destruct c as [|x c]; simpl; [done|].
  destruct (is_space x); simpl; destruct (ends_space _ c); lia.
Qed.

(** ** The hook, field by field *)

Lemma pre_save_readTime isModified now a :
  readTime (pre_save isModified now a)
  = if isModified P_content
    then ceil_div (wordCount (content a)) wordsPerMinute
    else readTime a.
Proof.
  unfold pre_save.
  case_ifs; simpl in *; congruence.
Qed.

Lemma pre_save_excerpt isModified now a :
  excerpt (pre_save isModified now a)
  = if isModified P_content && negb (truthy_str (excerpt a))
    then Some (derive_excerpt (content a))
    else excerpt a.
Proof.
  unfold pre_save.
  destruct (isModified P_content); simpl;
    case_ifs; simpl in *; congruence.
Qed.

Lemma pre_save_publishedAt isModified now a :
  publishedAt (pre_save isModified now a)
  = if isModified P_published && published a
       && negb (bool_decide (is_Some (publishedAt a)))
    then Some now
    else publishedAt a.
Proof.
  unfold pre_save.
  destruct (isModified P_content); simpl;
    destruct (truthy_str (excerpt a)); simpl;
    case_ifs; simpl in *; congruence.
Qed.

Lemma pre_save_frame isModified now a :
  let a' := pre_save isModified now a in
  title a' = title a ∧ content a' = content a ∧ author a' = author a
  ∧ tags a' = tags a ∧ category a' = category a
  ∧ featuredImage a' = featuredImage a ∧ likes a' = likes a
  ∧ comments a' = comments a ∧ published a' = published a
  ∧ views a' = views a ∧ bookmarks a' = bookmarks a
  ∧ createdAt a' = createdAt a ∧ updatedAt a' = updatedAt a.
Proof.
  unfold pre_save.
  case_ifs; simpl; repeat split; reflexivity.
Qed.

(** The hook leaves a document alone when neither [content] nor
    [published] is modified. *)
Lemma pre_save_unmodified isModified now a :
  isModified P_content = false → isModified P_published = false →
  pre_save isModified now a = a.
Proof. intros H1 H2. unfold pre_save. rewrite H1, H2. reflexivity. Qed.

(** Once set, [publishedAt] survives the hook. *)
Lemma pre_save_publishedAt_stable isModified now a d :
  publishedAt a = Some d → publishedAt (pre_save isModified now a) = Some d.
Proof.
  intros H. rewrite pre_save_publishedAt, H.
  rewrite (bool_decide_eq_true_2 (is_Some (Some d))) by eauto.
  rewrite !andb_false_r. reflexivity.
Qed.

(** After a save that modified [content], [readTime] is at least one. *)
Lemma readTime_at_least_one isModified now a :
  isModified P_content = true → 1 ≤ readTime (pre_save isModified now a).
Proof.
  intros H. rewrite pre_save_readTime, H.
  apply ceil_div_pos; [done|apply wordCount_pos].
Qed.

Lemma timestamps_frame isNew isModified now a :
  let a' := timestamps isNew isModified now a in
  title a' = title a ∧ content a' = content a ∧ excerpt a' = excerpt a
  ∧ author a' = author a ∧ tags a' = tags a ∧ category a' = category a
  ∧ featuredImage a' = featuredImage a ∧ readTime a' = readTime a
  ∧ likes a' = likes a ∧ comments a' = comments a
  ∧ published a' = published a ∧ publishedAt a' = publishedAt a
  ∧ views a' = views a ∧ bookmarks a' = bookmarks a.
Proof.
  unfold timestamps.
  destruct isNew; [|destruct (existsb _ _)]; simpl; repeat split; reflexivity.
Qed.

Lemma save_Some isNew isModified now id a db :
  validate a = true →
  save isNew isModified now id a db
  = Some (timestamps isNew isModified now (pre_save isModified now a),
          <[id := timestamps isNew isModified now (pre_save isModified now a)]> db).
Proof. intros H. unfold save. rewrite H. reflexivity. Qed.

(** ** Create and update, through the hook *)

Section CreateUpdateFacts.
Variable toLowerCase : jsstring → jsstring.

(** A key of the body leaves alone what its setter leaves alone. *)
Lemma assign_key_frame {V X} (f : Article → X) (set : V → Article → Article)
    value a :
  (∀ v a, f (set v a) = f a) → f (assign_key set value a) = f a.
Proof. intros H. destruct value; [apply H|done]. Qed.


Lemma assign_content updates a :
  content (assign toLowerCase updates a)
  = default (content a) (u_content updates).
Proof.
  unfold assign. cbv zeta. rewrite !(assign_key_frame content) by done.
  destruct (u_content updates); cbn [assign_key default]; [done|].
  by rewrite !(assign_key_frame content).
Qed.









Lemma assign_published updates a :
  published (assign toLowerCase updates a)
  = default (published a) (u_published updates).
Proof.
  unfold assign. cbv zeta. rewrite !(assign_key_frame published) by done.
  destruct (u_published updates); cbn [assign_key default]; [done|].
  by rewrite !(assign_key_frame published).
Qed.

Lemma assign_publishedAt updates a :
  publishedAt (assign toLowerCase updates a)
  = default (publishedAt a) (u_publishedAt updates).
Proof.
  unfold assign. cbv zeta. rewrite !(assign_key_frame publishedAt) by done.
  destruct (u_publishedAt updates); cbn [assign_key default]; [done|].
  by rewrite !(assign_key_frame publishedAt).
Qed.




(** What a successful update stores. *)
Lemma update_article_Ok valid user id now updates (db : gmap N Article) doc db' :
  update_article toLowerCase valid user id now updates db = (Ok 200 doc, db') →
  ∃ a, db !! id = Some a ∧ author a = user
       ∧ validate (assign toLowerCase updates a) = true
       ∧ doc = timestamps false (changed a (assign toLowerCase updates a)) now
                 (pre_save (changed a (assign toLowerCase updates a)) now
                    (assign toLowerCase updates a))
       ∧ db' = <[id := doc]> db.
Proof.
  unfold update_article. destruct valid; [|done]. cbn [negb].
  destruct (db !! id) as [a|]; [|done].
  case_bool_decide as Hau; [done|].
  unfold save. destruct (validate _) eqn:Hv; [|done].
  intros [= <- <-]. exists a. repeat split; try done.
Qed.

(** The single-article update keeps a [publishedAt] when the body has
    no key of that name. *)
Lemma update_article_keeps_publishedAt valid user id now updates
    (db : gmap N Article) a d doc db' :
  db !! id = Some a → publishedAt a = Some d →
  u_publishedAt updates = None →
  update_article toLowerCase valid user id now updates db = (Ok 200 doc, db') →
  publishedAt doc = Some d.
Proof.
  intros Hdb Hd Hu (a' & Hdb' & _ & _ & -> & _)%update_article_Ok.
  assert (a' = a) as -> by congruence.
  destruct (timestamps_frame false (changed a (assign toLowerCase updates a)) now
              (pre_save (changed a (assign toLowerCase updates a)) now
                 (assign toLowerCase updates a)))
    as (_ & _ & _ & _ & _ & _ & _ & _ & _ & _ & _ & -> & _).
  apply pre_save_publishedAt_stable.
  by rewrite assign_publishedAt, Hu.
Qed.

(** With the key, the update stores the [publishedAt] of the body, a
    date or [null]. *)
Lemma update_article_sets_publishedAt valid user id now updates
    (db : gmap N Article) d doc db' :
  u_publishedAt updates = Some (Some d) →
  update_article toLowerCase valid user id now updates db = (Ok 200 doc, db') →
  publishedAt doc = Some d.
Proof.
  intros Hu (a & Hdb & _ & _ & -> & _)%update_article_Ok.
  destruct (timestamps_frame false (changed a (assign toLowerCase updates a)) now
              (pre_save (changed a (assign toLowerCase updates a)) now
                 (assign toLowerCase updates a)))
    as (_ & _ & _ & _ & _ & _ & _ & _ & _ & _ & _ & -> & _).
  apply pre_save_publishedAt_stable.
  by rewrite assign_publishedAt, Hu.
Qed.

(** Publishing a draft that was never published stamps [publishedAt]
    with the time of the update. *)
Lemma update_article_first_publish valid user id now updates
    (db : gmap N Article) a doc db' :
  db !! id = Some a → published a = false → publishedAt a = None →
  u_published updates = Some true → u_publishedAt updates = None →
  update_article toLowerCase valid user id now updates db = (Ok 200 doc, db') →
  published doc = true ∧ publishedAt doc = Some now.
Proof.
  intros Hdb Hp Hd Hb Hu (a' & Hdb' & _ & _ & -> & _)%update_article_Ok.
  assert (a' = a) as -> by congruence.
  set (a1 := assign toLowerCase updates a).
  assert (published a1 = true) as Hp1
    by (unfold a1; by rewrite assign_published, Hb).
  assert (publishedAt a1 = None) as Hd1
    by (unfold a1; by rewrite assign_publishedAt, Hu).
  destruct (timestamps_frame false (changed a a1) now
              (pre_save (changed a a1) now a1))
    as (_ & _ & _ & _ & _ & _ & _ & _ & _ & _ & -> & -> & _).
  destruct (pre_save_frame (changed a a1) now a1)
    as (_ & _ & _ & _ & _ & _ & _ & _ & -> & _).
  split; [done|].
  rewrite pre_save_publishedAt, Hp1, Hd1. cbn [changed].
  rewrite Hp, Hp1. by rewrite bool_decide_eq_true_2.
Qed.

(** An update that changes the content stores the read time of the new
    content, whatever [readTime] the body carries. *)
Lemma update_article_readTime valid user id now updates (db : gmap N Article)
    a c doc db' :
  db !! id = Some a → u_content updates = Some c → c ≠ content a →
  update_article toLowerCase valid user id now updates db = (Ok 200 doc, db') →
  content doc = c ∧ readTime doc = ceil_div (wordCount c) wordsPerMinute
  ∧ 1 ≤ readTime doc.
Proof.
  intros Hdb Hb Hne (a' & Hdb' & _ & _ & -> & _)%update_article_Ok.
  assert (a' = a) as -> by congruence.
  set (a1 := assign toLowerCase updates a).
  assert (content a1 = c) as Hc1
    by (unfold a1; by rewrite assign_content, Hb).
  assert (changed a a1 P_content = true) as Hm.
  { cbn. apply bool_decide_eq_true_2. congruence. }
  destruct (timestamps_frame false (changed a a1) now
              (pre_save (changed a a1) now a1))
    as (_ & -> & _ & _ & _ & _ & _ & -> & _).
  destruct (pre_save_frame (changed a a1) now a1) as (_ & -> & _).
  split; [done|].
  pose proof (readTime_at_least_one (changed a a1) now a1 Hm) as Hge.
  rewrite pre_save_readTime, Hm, Hc1 in *. done.
Qed.

(** What a successful create stores: the read time of the content, and
    [publishedAt] exactly when the article is created published. *)
Lemma create_article_Ok valid user new_id now body (db : gmap N Article)
    doc db' :
  create_article toLowerCase valid user new_id now body db = (Ok 201 doc, db') →
  db' = <[new_id := doc]> db
  ∧ readTime doc = ceil_div (wordCount (content doc)) wordsPerMinute
  ∧ 1 ≤ readTime doc
  ∧ publishedAt doc = (if published doc then Some now else None)
  ∧ likes doc = [] ∧ bookmarks doc = [] ∧ comments doc = []
  ∧ author doc = user.
Proof.
  unfold create_article. destruct valid; [|done]. cbn [negb].
  destruct (new_Article toLowerCase user body) as [a|] eqn:Hnew; [|done].
  unfold save. destruct (validate _); [|done].
  intros [= <- <-]. split; [done|].
  assert (likes a = [] ∧ bookmarks a = [] ∧ comments a = [] ∧ author a = user
          ∧ publishedAt a = None) as (Hl0 & Hb0 & Hc0 & Hau0 & Hpa0).
  { unfold new_Article in Hnew.
    destruct (b_title body) as [t|]; [|done].
    destruct (b_content body) as [c|]; [|done].
    cbn in Hnew. by injection Hnew as <-. }
  pose proof (readTime_at_least_one (λ _, true) now a eq_refl) as Hge.
  destruct (pre_save_frame (λ _, true) now a)
    as (_ & Hc' & Hau' & _ & _ & _ & Hl' & Hcs' & Hp' & _ & Hb' & _).
  cbn [readTime content publishedAt published likes bookmarks comments author].
  rewrite Hc', Hau', Hl', Hcs', Hp', Hb'.
  rewrite pre_save_readTime, pre_save_publishedAt in *. cbn [andb] in *.
  rewrite Hpa0. rewrite (bool_decide_eq_false_2 (is_Some None)) by (by intros [? ?]).
  cbn [negb]. rewrite andb_true_r.
  repeat split; try done.
Qed.
End CreateUpdateFacts.

(** ** Read time *)

(** On content without leading or trailing whitespace the stored read
    time is the one the specification states. *)
Lemma readTime_trimmed_content isModified now a :
  isModified P_content = true →
  starts_space (content a) = false → ends_space false (content a) = false →
  readTime (pre_save isModified now a) = spec_readTime (content a).
Proof.
  intros Hm Hs He. rewrite pre_save_readTime, Hm.
  pose proof (wordCount_pos (content a)) as Hpos.
  rewrite wordCount_count_words, Hs, He, !Z.add_0_r in *.
  unfold spec_readTime, wordsPerMinute.
  pose proof (ceil_div_pos (Z.of_nat (count_words (content a))) 200). lia.
Qed.

(** C3 (defect of the code). Creating an article whose content is the
    word "word" two hundred times, each followed by a space, stores
    [readTime = 2]: [split(/\s+/)] yields an empty piece after the last
    space and the hook counts it as a word. The content has 200 words,
    for which [max(1, ceil(wordCount / 200))] is 1. *)
Theorem readTime_counts_empty_piece :
  count_words two_hundred_words = 200%nat
  ∧ spec_readTime two_hundred_words = 1
  ∧ wordCount two_hundred_words = 201
  ∧ ∀ toLowerCase,
      readTime <$> body_of
        (create_article toLowerCase true 10 1 0
           (draft_of two_hundred_words) ∅).1 = Some 2.
Proof.
  split; [vm_compute; reflexivity|].
  split; [vm_compute; reflexivity|].
  split; [vm_compute; reflexivity|].
  intros toLowerCase. vm_compute. reflexivity.
Qed.

(** ** Excerpt *)

(** C8 (counterexample). For a content of 300 ['#'] followed by
    "hello" the stored excerpt is "hello": the markers are stripped
    from the whole content before it is cut, and no ellipsis is added
    although the content is longer than 300 characters. Stripping the
    first 300 characters would leave nothing but the ellipsis. And for
    a content of 300 times the letter a, the stored excerpt has 303
    characters: the hook runs after the validation, and appends the
    three dots to the 300 characters it kept. *)
Lemma excerpt_strips_before_cutting :
  excerpt <$> body_of
    (create_article (λ t, t) true 10 1 0 (draft_of markers_then_hello) ∅).1
  = Some (Some (js "hello"))
  ∧ spec_excerpt markers_then_hello = js "..."
  ∧ js "hello" ≠ spec_excerpt markers_then_hello
  ∧ (λ e, length (default [] e)) <$> (excerpt <$> body_of
      (create_article (λ t, t) true 10 1 0 (draft_of (replicate 300 97%N)) ∅).1)
    = Some 303%nat.
Proof.
  split; [vm_compute; reflexivity|].
  split; [vm_compute; reflexivity|].
  split; [vm_compute; discriminate|].
  vm_compute. reflexivity.
Qed.

(** The two regular cases of the derived excerpt. *)
Lemma derive_excerpt_cases c :
  let s := strip_markers c in
  ((length s < 300)%nat → derive_excerpt c = s)
  ∧ ((300 < length s)%nat → derive_excerpt c = take 300 s ++ js "...").
Proof.
  unfold derive_excerpt, plainText, substring0. split; intros Hlen.
  - rewrite take_ge by lia.
    destruct (Nat.eqb_spec (length (strip_markers c)) 300); [lia|].
    by rewrite app_nil_r.
  - rewrite length_take, Nat.min_l by lia. reflexivity.
Qed.

(** An article created without an excerpt gets the derived one. *)
Lemma create_article_excerpt toLowerCase valid user new_id now body
    (db : gmap N Article) doc db' :
  truthy_str (b_excerpt body) = false →
  create_article toLowerCase valid user new_id now body db = (Ok 201 doc, db') →
  excerpt doc = Some (derive_excerpt (content doc)).
Proof.
  intros He. unfold create_article. destruct valid; [|done]. cbn [negb].
  destruct (new_Article toLowerCase user body) as [a|] eqn:Hnew; [|done].
  unfold save. destruct (validate _); [|done]. intros [= <- <-].
  assert (excerpt a = b_excerpt body) as Hex.
  { unfold new_Article in Hnew.
    destruct (b_title body); [|done]. destruct (b_content body); [|done].
    cbn in Hnew. by injection Hnew as <-. }
  destruct (pre_save_frame (λ _, true) now a) as (_ & Hc & _).
  cbn [excerpt content]. rewrite Hc, pre_save_excerpt, Hex, He. done.
Qed.

(** C8 (amended). On every save of a document that validates, with
    [content] modified and no excerpt, the stored excerpt is derived
    from the content with every ['#'], ['*'] and ['`'] removed, the
    markers being stripped from the whole content before it is cut:
    when the stripped text has fewer than 300 characters the excerpt is
    that text, without ellipsis, and has fewer than 300 characters; when
    it has 300 or more, the excerpt starts with its first 300
    characters. *)
Theorem excerpt_derivation isNew isModified now id a db :
  isModified P_content = true →
  truthy_str (excerpt a) = false →
  validate a = true →
  ∃ doc e,
    save isNew isModified now id a db = Some (doc, <[id := doc]> db)
    ∧ excerpt doc = Some e
    ∧ Forall (λ c, is_marker c = false) e
    ∧ let s := strip_markers (content a) in
      ((length s < 300)%nat → e = s ∧ (length e < 300)%nat)
      ∧ ((300 ≤ length s)%nat → take 300 e = take 300 s).
Proof.
  intros Hm He Hv. eexists _, (derive_excerpt (content a)).
  split; [apply save_Some, Hv|].
  destruct (timestamps_frame isNew isModified now (pre_save isModified now a))
    as (_ & _ & -> & _).
  rewrite pre_save_excerpt, Hm, He. cbn [andb negb]. split; [done|].
  destruct (derive_excerpt_cases (content a)) as [Hlt Hgt].
  unfold derive_excerpt, plainText, substring0 in *. cbv zeta in *.
  set (s := strip_markers (content a)) in *.
  assert (Forall (λ c, is_marker c = false) s) as Hclean.
  { apply Forall_forall. intros x Hx.
    by apply list_elem_of_filter in Hx as [? _]. }
  split; [|split].
  - apply Forall_app. split; [by apply Forall_take|].
    destruct (_ =? _)%nat; [by repeat constructor|constructor].
  - intros Hlen. by rewrite (Hlt Hlen).
  - intros Hlen. rewrite take_app_le by (rewrite length_take; lia).
    by rewrite take_take, Nat.min_id.
Qed.

Lemma excerpt_derivation_witness :
  let a := mkArticle (js "Title") (js "# Hello *world*") None 10 []
             (js "Other") (mkImage None None) 1 [] [] false None 0 [] 0 0 in
  validate a = true
  ∧ ∃ doc,
      save true (λ _, true) 5 1%N a ∅ = Some (doc, <[1%N := doc]> ∅)
      ∧ excerpt doc = Some (js " Hello world").
Proof.
  intros a. split; [reflexivity|].
  destruct (excerpt_derivation true (λ _, true) 5 1%N a ∅)
    as (doc & e & Hs & He & _ & Hlt & _); [reflexivity..|].
  exists doc. split; [exact Hs|]. rewrite He. f_equal.
  apply Hlt. vm_compute. lia.
Defined.

(** ** Bulk update *)

Section BulkUpdateFacts.
Variable castBoolean : JsValue → option bool.
Variable castString : JsValue → option jsstring.
Variable castOther : string → JsValue → option (Article → Article).

Lemma filter_updates_lookup (updates : gmap string JsValue) k :
  filter_updates updates !! k
  = if decide (k ∈ allowedUpdates) then updates !! k else None.
Proof.
  unfold filter_updates. destruct (updates !! k) as [v|] eqn:Hk.
  - case_decide as Hin.
    + apply map_lookup_filter_Some. done.
    + apply map_lookup_filter_None. right. intros v' Hv' Hin'. done.
  - case_decide; apply map_lookup_filter_None; by left.
Qed.

Lemma filter_updates_published (updates : gmap string JsValue) :
  filter_updates updates !! "published"%string = updates !! "published"%string.
Proof.
  rewrite filter_updates_lookup.
  rewrite decide_True; [done|unfold allowedUpdates; set_solver].
Qed.

Lemma filter_updates_category (updates : gmap string JsValue) :
  filter_updates updates !! "category"%string = updates !! "category"%string.
Proof.
  rewrite filter_updates_lookup.
  rewrite decide_True; [done|unfold allowedUpdates; set_solver].
Qed.

(** Keys outside [published] and [category] play no part. *)
Lemma filter_updates_ext (updates1 updates2 : gmap string JsValue) :
  updates1 !! "published"%string = updates2 !! "published"%string →
  updates1 !! "category"%string = updates2 !! "category"%string →
  filter_updates updates1 = filter_updates updates2.
Proof.
  intros Hp Hc. apply map_eq. intros k. rewrite !filter_updates_lookup.
  case_decide as Hin; [|done].
  unfold allowedUpdates in Hin.
  apply elem_of_cons in Hin as [->|Hin]; [done|].
  apply elem_of_cons in Hin as [->|Hin]; [done|].
  by apply elem_of_nil in Hin.
Qed.

Lemma updateMany_lookup ids user u (db : gmap N Article) i :
  (updateMany ids user u db).2 !! i
  = (λ a, if decide (owned_in ids user (i, a)) then apply_set u a else a)
      <$> db !! i.
Proof.
  unfold updateMany. simpl. rewrite map_lookup_imap.
  by destruct (db !! i).
Qed.

Lemma updateMany_count ids user u (db : gmap N Article) :
  (updateMany ids user u db).1
  = updated_records db (updateMany ids user u db).2.
Proof.
  unfold updated_records.
  pose proof (updateMany_lookup ids user u db) as Hl.
  unfold updateMany in *. simpl in *.
  f_equal. apply map_filter_ext. intros i a Hia. simpl.
  rewrite Hl, Hia. simpl.
  case_decide as Ho; split.
  - intros [_ Hne] [=]. done.
  - intros Hne. split; [done|]. congruence.
  - intros [? _]. done.
  - intros Hne. done.
Qed.

(** The filter loop leaves no key other than [published] and
    [category] for [updateMany] to set. *)
Lemma other_keys_filtered (updates : gmap string JsValue) :
  other_keys (filter_updates updates) = [].
Proof.
  unfold other_keys. apply map_to_list_empty_iff, map_empty. intros k.
  apply map_lookup_filter_None. right. intros v Hv [Hp Hc]. cbn in Hp, Hc.
  rewrite filter_updates_lookup in Hv. case_decide as Hin; [|done].
  unfold allowedUpdates in Hin.
  apply elem_of_cons in Hin as [->|Hin]; [done|].
  apply elem_of_cons in Hin as [->|Hin]; [done|].
  by apply elem_of_nil in Hin.
Qed.

Lemma apply_set_frame u a :
  set_other u = [] → same_outside_bulk a (apply_set u a).
Proof.
  unfold apply_set, same_outside_bulk. intros ->.
  destruct (set_pub u), (set_cat u), (set_pubAt u); simpl;
    repeat split; reflexivity.
Qed.

Lemma same_outside_bulk_refl a : same_outside_bulk a a.
Proof. unfold same_outside_bulk. repeat split; reflexivity. Qed.

Lemma apply_set_published u a :
  set_other u = [] →
  published (apply_set u a) = default (published a) (set_pub u).
Proof.
  unfold apply_set. intros ->.
  destruct (set_pub u), (set_cat u), (set_pubAt u); reflexivity.
Qed.

Lemma apply_set_category u a :
  set_other u = [] →
  category (apply_set u a) = default (category a) (set_cat u).
Proof.
  unfold apply_set. intros ->.
  destruct (set_pub u), (set_cat u), (set_pubAt u); reflexivity.
Qed.

Lemma apply_set_publishedAt u a :
  set_other u = [] →
  publishedAt (apply_set u a)
  = match set_pubAt u with Some d => Some d | None => publishedAt a end.
Proof.
  unfold apply_set. intros ->.
  destruct (set_pub u), (set_cat u), (set_pubAt u); reflexivity.
Qed.

(** The [$set] document of a request whose allowed values cast. *)
Lemma cast_update_Some (updates : gmap string JsValue) stamp now :
  (∀ v, updates !! "published"%string = Some v → is_Some (castBoolean v)) →
  (∀ v, updates !! "category"%string = Some v → is_Some (castString v)) →
  cast_update castBoolean castString castOther (filter_updates updates)
    stamp now
  = Some (mkSetDoc (updates !! "published"%string ≫= castBoolean)
            (updates !! "category"%string ≫= castString) stamp [] now).
Proof.
  intros Hp Hc. unfold cast_update.
  rewrite filter_updates_published, filter_updates_category.
  rewrite other_keys_filtered.
  destruct (updates !! "published"%string) as [vp|]; simpl.
  - destruct (Hp vp eq_refl) as [b ->]. simpl.
    destruct (updates !! "category"%string) as [vc|]; simpl; [|done].
    destruct (Hc vc eq_refl) as [c ->]. done.
  - destruct (updates !! "category"%string) as [vc|]; simpl; [|done].
    destruct (Hc vc eq_refl) as [c ->]. done.
Qed.

Lemma bulk_update_run user ids (updates : gmap string JsValue) now db :
  is_Some (updates !! "published"%string)
  ∨ is_Some (updates !! "category"%string) →
  (∀ v, updates !! "published"%string = Some v → is_Some (castBoolean v)) →
  (∀ v, updates !! "category"%string = Some v → is_Some (castString v)) →
  bulk_update castBoolean castString castOther true user ids updates now db
  = (Ok 200 (updateMany ids user
               (mkSetDoc (updates !! "published"%string ≫= castBoolean)
                  (updates !! "category"%string ≫= castString)
                  (publish_stamp (filter_updates updates) now) [] now) db).1,
     (updateMany ids user
        (mkSetDoc (updates !! "published"%string ≫= castBoolean)
           (updates !! "category"%string ≫= castString)
           (publish_stamp (filter_updates updates) now) [] now) db).2).
Proof.
  intros Hsome Hp Hc. unfold bulk_update. simpl.
  rewrite bool_decide_eq_false_2.
  2:{ apply map_size_non_empty_iff. intros Hempty.
      destruct Hsome as [[v Hv]|[v Hv]].
      - rewrite <- filter_updates_published, Hempty in Hv. done.
      - rewrite <- filter_updates_category, Hempty in Hv. done. }
  rewrite cast_update_Some by done. reflexivity.
Qed.

(** Whatever the request, a bulk update is never refused with 403,
    and a refused one changes nothing. *)
Lemma bulk_update_never_403 valid user ids updates now db :
  status_of (bulk_update castBoolean castString castOther valid user ids updates now db).1
  ≠ 403%nat
  ∧ (∀ s m,
       (bulk_update castBoolean castString castOther valid user ids updates now db).1
       = Err s m →
       (bulk_update castBoolean castString castOther valid user ids updates now db).2 = db).
Proof.
  unfold bulk_update. destruct valid; cbn [negb]; [|done].
  case_bool_decide; [done|].
  destruct (cast_update _ _ _ _ _ _); [|done].
  destruct (updateMany _ _ _ _). done.
Qed.

Lemma bulk_update_ignores_other_fields valid user ids updates1 updates2 now db :
  updates1 !! "published"%string = updates2 !! "published"%string →
  updates1 !! "category"%string = updates2 !! "category"%string →
  bulk_update castBoolean castString castOther valid user ids updates1 now db
  = bulk_update castBoolean castString castOther valid user ids updates2 now db.
Proof.
  intros Hp Hc. unfold bulk_update.
  by rewrite (filter_updates_ext updates1 updates2).
Qed.
End BulkUpdateFacts.

(** C6. A bulk update that carries [published] or [category] (with
    values the ODM casts) succeeds whoever owns the listed articles:
    documents that are not listed or not owned by the requester are left
    as they are, an owned one changes in no path other than [published],
    [category], [publishedAt] and [updatedAt], the keys of [updates]
    other than [published] and [category] have no effect, whatever
    [updateMany] would do with them, and [modifiedCount] is the number
    of documents the call changed. *)
Theorem bulk_update_partial_permissive castBoolean castString castOther
    user ids (updates : gmap string JsValue) now db :
  is_Some (updates !! "published"%string)
  ∨ is_Some (updates !! "category"%string) →
  (∀ v, updates !! "published"%string = Some v → is_Some (castBoolean v)) →
  (∀ v, updates !! "category"%string = Some v → is_Some (castString v)) →
  ∃ n db',
    bulk_update castBoolean castString castOther true user ids updates now db
    = (Ok 200 n, db')
    ∧ n = updated_records db db'
    ∧ (∀ i a, db !! i = Some a → ¬ (i ∈ ids ∧ author a = user) →
         db' !! i = Some a)
    ∧ (∀ i, db !! i = None → db' !! i = None)
    ∧ (∀ i a, db !! i = Some a → i ∈ ids → author a = user →
         ∃ a', db' !! i = Some a' ∧ same_outside_bulk a a'
           ∧ published a'
             = default (published a)
                 (updates !! "published"%string ≫= castBoolean)
           ∧ category a'
             = default (category a)
                 (updates !! "category"%string ≫= castString))
    ∧ (∀ updates2 : gmap string JsValue,
         updates2 !! "published"%string = updates !! "published"%string →
         updates2 !! "category"%string = updates !! "category"%string →
         bulk_update castBoolean castString castOther true user ids updates2
           now db
         = (Ok 200 n, db')).
Proof.
  intros Hsome Hp Hc.
  pose proof (bulk_update_run castBoolean castString castOther user ids
                updates now db Hsome Hp Hc) as Hrun.
  set (u := mkSetDoc _ _ _ _ _) in Hrun.
  exists (updateMany ids user u db).1, (updateMany ids user u db).2.
  split; [exact Hrun|].
  split; [apply updateMany_count|].
  split; [|split; [|split]].
  - intros i a Hia Hno. rewrite updateMany_lookup, Hia. simpl.
    by rewrite decide_False.
  - intros i Hi. by rewrite updateMany_lookup, Hi.
  - intros i a Hia Hin Hau. rewrite updateMany_lookup, Hia. simpl.
    rewrite decide_True by done.
    eexists. split; [done|]. split; [by apply apply_set_frame|].
    by rewrite apply_set_published, apply_set_category.
  - intros updates2 Hp2 Hc2. rewrite <- Hrun.
    by apply bulk_update_ignores_other_fields.
Qed.

(** Over [A, B] with [B] of another author, only [A] is updated and
    [modifiedCount] is 1; the [title] key of the request is dropped. *)
Lemma bulk_update_partial_permissive_witness :
  let A := sample 10 false None 0 [] in
  let B := sample 11 false None 0 [] in
  let db : gmap N Article := <[1%N := A]> (<[2%N := B]> ∅) in
  let updates : gmap string JsValue :=
    <["published"%string := JBool true]>
      (<["title"%string := JStr (js "x")]> ∅) in
  ∃ n db',
    bulk_update own_castBoolean own_castString own_castOther true 10
      [1; 2]%N updates 5000 db
    = (Ok 200 n, db')
    ∧ n = updated_records db db'
    ∧ n = 1%nat
    ∧ db' !! 2%N = Some B
    ∧ (published <$> db' !! 1%N) = Some true
    ∧ (title <$> db' !! 1%N) = Some (title A).
Proof.
  intros A B db updates.
  destruct (bulk_update_partial_permissive own_castBoolean own_castString
              own_castOther 10 [1; 2]%N updates 5000 db)
    as (n & db' & Hrun & Hn & Hother & _ & Hown & _).
  - left. exists (JBool true). reflexivity.
  - intros v Hv. vm_compute in Hv. injection Hv as <-. by eexists.
  - intros v Hv. vm_compute in Hv. discriminate.
  - exists n, db'. split; [exact Hrun|]. split; [exact Hn|].
    split; [|split; [|split]].
    + vm_compute in Hrun. by injection Hrun as <- _.
    + apply Hother; [reflexivity|]. intros [_ Hau]. vm_compute in Hau. discriminate.
    + destruct (Hown 1%N A) as (a' & -> & _ & Hpub & _);
        [vm_compute; reflexivity|apply list_elem_of_here|reflexivity|].
      simpl. by rewrite Hpub.
    + destruct (Hown 1%N A) as (a' & -> & (Ht & _) & _);
        [vm_compute; reflexivity|apply list_elem_of_here|reflexivity|].
      simpl. by rewrite Ht.
Defined.

(** ** [publishedAt] *)

(** Publishing in bulk stamps [publishedAt] on every matched document,
    whether or not it carries one already. *)
Lemma bulk_publish_stamps_every_match castBoolean castString castOther
    user ids (updates : gmap string JsValue) now db i a :
  updates !! "published"%string = Some (JBool true) →
  is_Some (castBoolean (JBool true)) →
  (∀ v, updates !! "category"%string = Some v → is_Some (castString v)) →
  db !! i = Some a → i ∈ ids → author a = user →
  publishedAt
    <$> (bulk_update castBoolean castString castOther true user ids updates
           now db).2 !! i
  = Some (Some now).
Proof.
  intros Hpub Hcast Hc Hia Hin Hau.
  rewrite bulk_update_run; [|by eauto|by intros v; rewrite Hpub; intros [= <-]|done].
  cbn [snd]. rewrite updateMany_lookup, Hia. cbn [fmap option_fmap option_map].
  rewrite decide_True by done. rewrite apply_set_publishedAt by done.
  cbn [set_pubAt].
  unfold publish_stamp. rewrite filter_updates_published, Hpub.
  by rewrite bool_decide_eq_true_2.
Qed.

(** C1 (defect of the code). An article published at time 1000 and
    published again through the bulk update at time 5000 has its
    [publishedAt] overwritten with 5000: the bulk path adds
    [publishedAt] to the update of every matched document, without the
    [!this.publishedAt] guard of the save hook. *)
Theorem bulk_publish_restamps_publishedAt castBoolean castString castOther :
  castBoolean (JBool true) = Some true →
  publishedAt (sample 10 true (Some 1000) 0 []) = Some 1000
  ∧ publishedAt
      <$> (bulk_update castBoolean castString castOther true 10 [1]%N
             {[ "published"%string := JBool true ]} 5000
             {[ 1%N := sample 10 true (Some 1000) 0 [] ]}).2 !! 1%N
    = Some (Some 5000).
Proof.
  intros Hcast. split; [reflexivity|].
  eapply bulk_publish_stamps_every_match.
  - apply lookup_singleton_eq.
  - rewrite Hcast. by eexists.
  - intros v Hv. rewrite lookup_singleton_ne in Hv; done.
  - apply lookup_singleton_eq.
  - set_solver.
  - reflexivity.
Qed.

Lemma bulk_publish_restamps_publishedAt_witness :
  own_castBoolean (JBool true) = Some true
  ∧ publishedAt
      <$> (bulk_update own_castBoolean own_castString own_castOther true 10
             [1]%N
             {[ "published"%string := JBool true ]} 5000
             {[ 1%N := sample 10 true (Some 1000) 0 [] ]}).2 !! 1%N
    = Some (Some 5000).
Proof.
  split; [reflexivity|].
  apply (bulk_publish_restamps_publishedAt own_castBoolean own_castString
           own_castOther).
  reflexivity.
Defined.

(** ** Like and bookmark toggles *)

(** Validation reads the validated paths only. *)
Lemma validate_ext a a' :
  title a' = title a → content a' = content a → excerpt a' = excerpt a →
  tags a' = tags a → category a' = category a → comments a' = comments a →
  validate a' = validate a.
Proof. unfold validate. by intros -> -> -> -> -> ->. Qed.

Lemma validate_comments a :
  validate a = true → forallb comment_ok (comments a) = true.
Proof. unfold validate. rewrite !andb_true_iff. tauto. Qed.

Lemma validate_set_comments a cs :
  validate a = true → forallb comment_ok cs = true →
  validate (set_comments cs a) = true.
Proof.
  unfold validate. cbn. rewrite !andb_true_iff. tauto.
Qed.

Lemma save_None isNew isModified now id a db :
  validate a = false → save isNew isModified now id a db = None.
Proof. intros H. unfold save. by rewrite H. Qed.

(** A save that modified [likes] or [bookmarks] alone stores the
    document as the handler left it, with a new [updatedAt]: the hook
    does not fire. *)
Lemma save_only_likes now id a db :
  validate a = true →
  save false (only P_likes) now id a db
  = Some (set_updatedAt now a, <[id := set_updatedAt now a]> db).
Proof.
  intros H. rewrite save_Some by done.
  by rewrite pre_save_unmodified.
Qed.

Lemma save_only_bookmarks now id a db :
  validate a = true →
  save false (only P_bookmarks) now id a db
  = Some (set_updatedAt now a, <[id := set_updatedAt now a]> db).
Proof.
  intros H. rewrite save_Some by done.
  by rewrite pre_save_unmodified.
Qed.

Lemma list_find_like user (l : list Like) :
  bool_decide (is_Some (list_find (λ like, like_user like = user) l))
  = bool_decide (user ∈ like_user <$> l).
Proof.
  apply bool_decide_ext. split.
  - intros [[i x] (Hx & <- & _)%list_find_Some].
    apply list_elem_of_fmap. exists x. split; [done|].
    by eapply list_elem_of_lookup_2.
  - intros (x & -> & Hx)%list_elem_of_fmap.
    destruct (list_find (λ like, like_user like = like_user x) l) eqn:Hf; [by eexists|].
    apply list_find_None in Hf. rewrite Forall_forall in Hf. by destruct (Hf x Hx).
Qed.

Section ToggleLists.
Context {A : Type} (key : A → N).

Lemma filter_other_absent user (l : list A) :
  user ∉ key <$> l → filter (λ x, key x ≠ user) l = l.
Proof.
  induction l as [|x l IH]; [done|]. simpl.
  rewrite not_elem_of_cons. intros [Hx Hl].
  rewrite filter_cons_True by done. by rewrite IH.
Qed.

Lemma filter_other_removes user (l : list A) :
  user ∉ key <$> filter (λ x, key x ≠ user) l.
Proof.
  intros (x & -> & Hx)%list_elem_of_fmap.
  apply list_elem_of_filter in Hx as [Hx _]. done.
Qed.

(** With at most one entry per user, removing a present user's
    entries removes exactly one. *)
Lemma filter_other_length user (l : list A) :
  NoDup (key <$> l) → user ∈ key <$> l →
  S (length (filter (λ x, key x ≠ user) l)) = length l.
Proof.
  induction l as [|x l IH]; simpl.
  - intros _ []%elem_of_nil.
  - rewrite NoDup_cons. intros [Hx Hl] Hin.
    destruct (decide (key x = user)) as [<-|Hne].
    + rewrite filter_cons_False by (intros H; by apply H).
      by rewrite filter_other_absent.
    + rewrite filter_cons_True by done. simpl.
      apply elem_of_cons in Hin as [?|Hin]; [congruence|].
      by rewrite IH.
Qed.

Lemma filter_other_push user (l : list A) x :
  key x = user → user ∉ key <$> l →
  filter (λ x, key x ≠ user) (l ++ [x]) = l.
Proof.
  intros Hx Hl. rewrite filter_app, filter_other_absent by done.
  rewrite filter_cons_False by (intros H; by apply H).
  by rewrite filter_nil, app_nil_r.
Qed.
End ToggleLists.

Lemma like_article_run user id new_id now db a :
  db !! id = Some a → validate a = true →
  like_article user id new_id now db
  = let likes' :=
      if user_likes user a
      then filter (λ like, like_user like ≠ user) (likes a)
      else likes a ++ [mkLike new_id user now] in
    (Ok 200 (mkLikeResult (length likes') (negb (user_likes user a))),
     <[id := set_updatedAt now (set_likes likes' a)]> db).
Proof.
  intros Hdb Hok. unfold like_article, user_likes. rewrite Hdb.
  rewrite <- list_find_like.
  destruct (list_find _ (likes a)) as [p|] eqn:Hfind.
  - rewrite (bool_decide_eq_true_2 (is_Some (Some p))) by eauto.
    by rewrite save_only_likes.
  - rewrite (bool_decide_eq_false_2 (is_Some None)) by (by intros [? ?]).
    by rewrite save_only_likes.
Qed.

Lemma bookmark_article_run user id now db a :
  db !! id = Some a → validate a = true →
  bookmark_article user id now db
  = let bookmarks' :=
      if user_bookmarked user a
      then filter (λ b, b ≠ user) (bookmarks a)
      else bookmarks a ++ [user] in
    (Ok 200 (negb (user_bookmarked user a)),
     <[id := set_updatedAt now (set_bookmarks bookmarks' a)]> db).
Proof.
  intros Hdb Hok. unfold bookmark_article, user_bookmarked. rewrite Hdb.
  destruct (bool_decide (user ∈ bookmarks a)); by rewrite save_only_bookmarks.
Qed.

(** On a stored article that does not validate, the [save] of a toggle
    throws: the answer is 500 and nothing is written. *)
Lemma like_article_invalid user id new_id now db a :
  db !! id = Some a → validate a = false →
  like_article user id new_id now db = (Err 500 "Server error", db).
Proof.
  intros Hdb Hv. unfold like_article. rewrite Hdb.
  destruct (list_find _ (likes a)); by rewrite save_None.
Qed.

Lemma bookmark_article_invalid user id now db a :
  db !! id = Some a → validate a = false →
  bookmark_article user id now db = (Err 500 "Server error", db).
Proof.
  intros Hdb Hv. unfold bookmark_article. rewrite Hdb.
  destruct (bool_decide (user ∈ bookmarks a)); by rewrite save_None.
Qed.

(** The toggles keep the likes and the bookmarks at one entry per
    user at most. *)
Lemma like_article_keeps_one_entry user id new_id now (db : gmap N Article) a a' :
  db !! id = Some a → validate a = true →
  NoDup (like_user <$> likes a) →
  (like_article user id new_id now db).2 !! id = Some a' →
  NoDup (like_user <$> likes a').
Proof.
  intros Hdb Hok Hnd. rewrite (like_article_run user id new_id now db a) by done.
  cbn [snd]. rewrite lookup_insert_eq. intros [= <-]. cbn [likes set_updatedAt set_likes].
  unfold user_likes. case_bool_decide as Hin.
  - apply (sublist_NoDup _ (like_user <$> likes a) Hnd).
    apply fmap_sublist. apply sublist_filter.
  - rewrite fmap_app. apply NoDup_app. split; [done|]. split.
    + intros x Hx ->%list_elem_of_singleton. done.
    + apply NoDup_singleton.
Qed.

Lemma bookmark_article_keeps_one_entry user id now (db : gmap N Article) a a' :
  db !! id = Some a → validate a = true →
  NoDup (bookmarks a) →
  (bookmark_article user id now db).2 !! id = Some a' →
  NoDup (bookmarks a').
Proof.
  intros Hdb Hok Hnd. rewrite (bookmark_article_run user id now db a) by done.
  cbn [snd]. rewrite lookup_insert_eq. intros [= <-].
  cbn [bookmarks set_updatedAt set_bookmarks].
  unfold user_bookmarked. case_bool_decide as Hin.
  - apply (sublist_NoDup _ (bookmarks a) Hnd). apply sublist_filter.
  - apply NoDup_app. split; [done|]. split.
    + intros x Hx ->%list_elem_of_singleton. done.
    + apply NoDup_singleton.
Qed.

(** On an article that validates and holds one like per user at most,
    two like toggles of a user bring the like state and the number of
    likes back; the first one flips the state, removing the entry of the
    user or appending one. *)
Lemma like_toggle_twice user id nid1 nid2 now1 now2 db a :
  db !! id = Some a → validate a = true →
  NoDup (like_user <$> likes a) →
  ∃ r1 db1 a1 r2 db2 a2,
    like_article user id nid1 now1 db = (Ok 200 r1, db1)
    ∧ db1 !! id = Some a1
    ∧ like_article user id nid2 now2 db1 = (Ok 200 r2, db2)
    ∧ db2 !! id = Some a2
    ∧ isLiked r1 = negb (user_likes user a)
    ∧ user_likes user a1 = negb (user_likes user a)
    ∧ likesCount r1 = length (likes a1)
    ∧ (if user_likes user a
       then likes a1 = filter (λ like, like_user like ≠ user) (likes a)
            ∧ S (length (likes a1)) = length (likes a)
       else likes a1 = likes a ++ [mkLike nid1 user now1])
    ∧ isLiked r2 = user_likes user a
    ∧ user_likes user a2 = user_likes user a
    ∧ likesCount r2 = length (likes a)
    ∧ length (likes a2) = length (likes a).
Proof.
  intros Hdb Hok Hnd.
  pose proof (like_article_run user id nid1 now1 db a Hdb Hok) as H1.
  cbv zeta in H1.
  destruct (user_likes user a) eqn:Hu; unfold user_likes in Hu;
    [apply bool_decide_eq_true_1 in Hu|apply bool_decide_eq_false_1 in Hu].
  - set (a1 := set_updatedAt now1 (set_likes _ a)) in H1.
    assert (user_likes user a1 = false) as Hu1
      by apply bool_decide_eq_false_2, filter_other_removes.
    pose proof (like_article_run user id nid2 now2 (<[id := a1]> db) a1
                  (lookup_insert_eq _ _ _) Hok) as H2.
    cbv zeta in H2. rewrite Hu1 in H2.
    pose proof (filter_other_length like_user user (likes a) Hnd Hu) as Hlen.
    eexists _, _, a1, _, _, _.
    split; [exact H1|]. split; [apply lookup_insert_eq|].
    split; [exact H2|]. split; [apply lookup_insert_eq|].
    cbn [isLiked likesCount negb]. rewrite Hu1.
    repeat split; try done.
    + apply bool_decide_eq_true_2. cbn. rewrite fmap_app.
      apply elem_of_app. right. by apply list_elem_of_singleton.
    + cbn. rewrite length_app. cbn. lia.
    + cbn. rewrite length_app. cbn. lia.
  - set (a1 := set_updatedAt now1 (set_likes _ a)) in H1.
    assert (user_likes user a1 = true) as Hu1.
    { apply bool_decide_eq_true_2. cbn. rewrite fmap_app.
      apply elem_of_app. right. by apply list_elem_of_singleton. }
    pose proof (like_article_run user id nid2 now2 (<[id := a1]> db) a1
                  (lookup_insert_eq _ _ _) Hok) as H2.
    cbv zeta in H2. rewrite Hu1 in H2.
    assert (filter (λ like, like_user like ≠ user) (likes a1) = likes a) as Hback
      by (by apply filter_other_push).
    rewrite Hback in H2.
    eexists _, _, a1, _, _, _.
    split; [exact H1|]. split; [apply lookup_insert_eq|].
    split; [exact H2|]. split; [apply lookup_insert_eq|].
    cbn [isLiked likesCount negb]. rewrite Hu1.
    repeat split; try done.
    by apply bool_decide_eq_false_2.
Qed.

Lemma bookmark_toggle_twice user id now1 now2 db a :
  db !! id = Some a → validate a = true →
  NoDup (bookmarks a) →
  ∃ r1 db1 a1 r2 db2 a2,
    bookmark_article user id now1 db = (Ok 200 r1, db1)
    ∧ db1 !! id = Some a1
    ∧ bookmark_article user id now2 db1 = (Ok 200 r2, db2)
    ∧ db2 !! id = Some a2
    ∧ r1 = negb (user_bookmarked user a)
    ∧ user_bookmarked user a1 = negb (user_bookmarked user a)
    ∧ (if user_bookmarked user a
       then bookmarks a1 = filter (λ b, b ≠ user) (bookmarks a)
            ∧ S (length (bookmarks a1)) = length (bookmarks a)
       else bookmarks a1 = bookmarks a ++ [user])
    ∧ r2 = user_bookmarked user a
    ∧ user_bookmarked user a2 = user_bookmarked user a
    ∧ length (bookmarks a2) = length (bookmarks a).
Proof.
  intros Hdb Hok Hnd.
  assert (∀ l : list N, (λ x, x) <$> l = l) as Hid by apply list_fmap_id.
  pose proof (bookmark_article_run user id now1 db a Hdb Hok) as H1.
  cbv zeta in H1.
  destruct (user_bookmarked user a) eqn:Hu; unfold user_bookmarked in Hu;
    [apply bool_decide_eq_true_1 in Hu|apply bool_decide_eq_false_1 in Hu].
  - set (a1 := set_updatedAt now1 (set_bookmarks _ a)) in H1.
    assert (user_bookmarked user a1 = false) as Hu1.
    { apply bool_decide_eq_false_2.
      pose proof (filter_other_removes (λ x : N, x) user (bookmarks a)) as Hr.
      by rewrite Hid in Hr. }
    pose proof (bookmark_article_run user id now2 (<[id := a1]> db) a1
                  (lookup_insert_eq _ _ _) Hok) as H2.
    cbv zeta in H2. rewrite Hu1 in H2.
    pose proof (filter_other_length (λ x : N, x) user (bookmarks a)) as Hlen.
    rewrite Hid in Hlen. specialize (Hlen Hnd Hu).
    eexists _, _, a1, _, _, _.
    split; [exact H1|]. split; [apply lookup_insert_eq|].
    split; [exact H2|]. split; [apply lookup_insert_eq|].
    cbn [negb]. rewrite Hu1.
    repeat split; try done.
    + apply bool_decide_eq_true_2. cbn.
      apply elem_of_app. right. by apply list_elem_of_singleton.
    + cbn. rewrite length_app. cbn. lia.
  - set (a1 := set_updatedAt now1 (set_bookmarks _ a)) in H1.
    assert (user_bookmarked user a1 = true) as Hu1.
    { apply bool_decide_eq_true_2. cbn.
      apply elem_of_app. right. by apply list_elem_of_singleton. }
    pose proof (bookmark_article_run user id now2 (<[id := a1]> db) a1
                  (lookup_insert_eq _ _ _) Hok) as H2.
    cbv zeta in H2. rewrite Hu1 in H2.
    assert (filter (λ b, b ≠ user) (bookmarks a1) = bookmarks a) as Hback.
    { pose proof (filter_other_push (λ x : N, x) user (bookmarks a) user eq_refl)
        as Hp.
      rewrite Hid in Hp. by apply Hp. }
    rewrite Hback in H2.
    eexists _, _, a1, _, _, _.
    split; [exact H1|]. split; [apply lookup_insert_eq|].
    split; [exact H2|]. split; [apply lookup_insert_eq|].
    cbn [negb]. rewrite Hu1.
    repeat split; try done.
    by apply bool_decide_eq_false_2.
Qed.

(** C2 (defect of the code). An article created with 300 letters of
    content and no excerpt is stored with an excerpt of 303 characters:
    the hook derives it after the validation. The stored article no
    longer validates, so the first like toggle, and the first bookmark
    toggle, of a user who has no entry is answered 500 and adds none: the
    membership is not flipped. *)
Theorem toggle_fails_on_derived_excerpt :
  ∀ toLowerCase,
    let created :=
      create_article toLowerCase true 10 1 0 (draft_of (replicate 300 97%N)) ∅ in
    status_of created.1 = 201%nat
    ∧ (λ a, (length (default [] (excerpt a)), validate a,
             user_likes 20 a, user_bookmarked 20 a)) <$> created.2 !! 1%N
      = Some (303%nat, false, false, false)
    ∧ like_article 20 1 2 5 created.2 = (Err 500 "Server error", created.2)
    ∧ bookmark_article 20 1 5 created.2 = (Err 500 "Server error", created.2).
Proof.
  intros toLowerCase. cbv zeta.
  split; [vm_compute; reflexivity|].
  split; [vm_compute; reflexivity|].
  split; vm_compute; reflexivity.
Qed.

(** C10. A like toggle rewrites the stored article in its [likes] (and
    [updatedAt]) only, a bookmark toggle in its [bookmarks] (and
    [updatedAt]) only: title, content, excerpt, author, tags, category,
    featuredImage, readTime, comments, published, publishedAt and views
    are the same afterwards and the other documents are untouched,
    whether the toggle is answered 200 (the article validates) or 500
    (it does not, and nothing at all is written); and the save hook,
    finding neither [content] nor [published] modified, returns the
    document as it got it. *)
Theorem toggle_frame user id new_id now db a :
  db !! id = Some a →
  (∃ r a',
     like_article user id new_id now db = (r, <[id := a']> db)
     ∧ same_content a a' ∧ bookmarks a' = bookmarks a
     ∧ createdAt a' = createdAt a
     ∧ (if validate a then status_of r = 200%nat
        else r = Err 500 "Server error" ∧ a' = a))
  ∧ (∃ r a',
       bookmark_article user id now db = (r, <[id := a']> db)
       ∧ same_content a a' ∧ likes a' = likes a
       ∧ createdAt a' = createdAt a
       ∧ (if validate a then r = Ok 200 (negb (user_bookmarked user a))
          else r = Err 500 "Server error" ∧ a' = a))
  ∧ (∀ doc, pre_save (only P_likes) now doc = doc)
  ∧ (∀ doc, pre_save (only P_bookmarks) now doc = doc).
Proof.
  intros Hdb. destruct (validate a) eqn:Hv.
  - split; [|split; [|split]].
    + eexists _, _. split; [by apply like_article_run|].
      unfold same_content. by repeat split.
    + eexists _, _. split; [by apply bookmark_article_run|].
      unfold same_content. by repeat split.
    + intros doc. by apply pre_save_unmodified.
    + intros doc. by apply pre_save_unmodified.
  - split; [|split; [|split]].
    + exists (Err 500 "Server error"), a. rewrite insert_id by done.
      split; [by apply (like_article_invalid user id new_id now db a)|].
      unfold same_content. by repeat split.
    + exists (Err 500 "Server error"), a. rewrite insert_id by done.
      split; [by apply (bookmark_article_invalid user id now db a)|].
      unfold same_content. by repeat split.
    + intros doc. by apply pre_save_unmodified.
    + intros doc. by apply pre_save_unmodified.
Qed.

Lemma toggle_frame_witness :
  let a := sample 10 true (Some 1000) 3 [mkLike 1 7 900] in
  let db : gmap N Article := {[ 1%N := a ]} in
  db !! 1%N = Some a
  ∧ ∃ r a',
      like_article 8 1 2 2000 db = (r, <[1%N := a']> db)
      ∧ same_content a a' ∧ bookmarks a' = bookmarks a
      ∧ status_of r = 200%nat.
Proof.
  intros a db.
  assert (db !! 1%N = Some a) as Hdb by (vm_compute; reflexivity).
  split; [exact Hdb|].
  destruct (toggle_frame 8 1 2 2000 db a Hdb)
    as [(r & a' & H1 & Hsame & Hbm & _ & Hst) _].
  exists r, a'. split; [exact H1|]. split; [exact Hsame|].
  split; [exact Hbm|exact Hst].
Defined.

(** ** Comments *)

Lemma comment_by_id_Some cid a c :
  comment_by_id cid a = Some c → c ∈ comments a ∧ comment_id c = cid.
Proof.
  unfold comment_by_id. destruct (list_find _ _) as [[i x]|] eqn:Hf; [|done].
  intros [= <-]. apply list_find_Some in Hf as (Hx & Hid & _).
  split; [by eapply list_elem_of_lookup_2|done].
Qed.

Lemma comment_by_id_deleted cid a l :
  comment_by_id cid (set_comments (filter (λ c, comment_id c ≠ cid) l) a) = None.
Proof.
  unfold comment_by_id. cbn.
  destruct (list_find _ _) as [[i x]|] eqn:Hf; [|done].
  apply list_find_Some in Hf as (Hx & Hid & _).
  apply list_elem_of_lookup_2, list_elem_of_filter in Hx as [Hne _]. done.
Qed.

Lemma forallb_filter_ok {A} (ok : A → bool) (P : A → Prop)
    `{!∀ x, Decision (P x)} (l : list A) :
  forallb ok l = true → forallb ok (filter P l) = true.
Proof.
  induction l as [|x l IH]; [done|]. simpl.
  intros [Hx Hl]%andb_true_iff.
  destruct (decide (P x)).
  - rewrite filter_cons_True by done. simpl. by rewrite Hx, IH.
  - rewrite filter_cons_False by done. by apply IH.
Qed.

Lemma delete_comment_run user id cid now db a c :
  db !! id = Some a → comment_by_id cid a = Some c →
  delete_comment user id cid now db
  = let a' :=
      set_comments (filter (λ c, comment_id c ≠ cid) (comments a)) a in
    if bool_decide (comment_user c ≠ user) && bool_decide (author a ≠ user)
    then (Err 403 "Not authorized to delete this comment", db)
    else if validate a'
    then (Ok 200 (), <[id := set_updatedAt now a']> db)
    else (Err 500 "Server error", db).
Proof.
  intros Hdb Hc. unfold delete_comment. rewrite Hdb, Hc. cbv zeta.
  destruct (_ && _); [done|].
  destruct (validate _) eqn:Hv.
  - rewrite save_Some by done. by rewrite pre_save_unmodified.
  - by rewrite save_None.
Qed.

Lemma validate_delete a cid :
  validate a = true →
  validate (set_comments (filter (λ c, comment_id c ≠ cid) (comments a)) a)
  = true.
Proof.
  intros Hv. apply validate_set_comments; [done|].
  by apply forallb_filter_ok, validate_comments.
Qed.

Lemma edit_first_ok cid v cs :
  forallb comment_ok cs = true →
  nonempty v && (length v <=? 1000)%nat = true →
  forallb comment_ok (edit_first cid v cs) = true.
Proof.
  intros Hcs Hv. induction cs as [|c cs IH]; [done|]. simpl in *.
  apply andb_true_iff in Hcs as [Hc Hcs].
  case_bool_decide; simpl.
  - by rewrite Hcs, andb_true_r.
  - by rewrite Hc, IH.
Qed.

Lemma edit_first_find cid v cs i c :
  list_find (λ c, comment_id c = cid) cs = Some (i, c) →
  list_find (λ c, comment_id c = cid) (edit_first cid v cs)
  = Some (i, mkComment (comment_id c) (comment_user c) v (comment_createdAt c)).
Proof.
  revert i. induction cs as [|x cs IH]; intros i; [done|]. simpl.
  case_bool_decide as Hx.
  - rewrite decide_True by done. intros [= <- <-].
    simpl. by rewrite decide_True.
  - rewrite decide_False by done.
    destruct (list_find _ cs) as [[j y]|] eqn:Hf; [|done].
    simpl. intros [= <- <-]. simpl. rewrite decide_False by done.
    by rewrite (IH j eq_refl).
Qed.

Lemma validate_edit a cid v :
  validate a = true → nonempty v && (length v <=? 1000)%nat = true →
  validate (set_comments (edit_first cid v (comments a)) a) = true.
Proof.
  intros Hv Hok. apply validate_set_comments; [done|].
  apply edit_first_ok; [by apply validate_comments|done].
Qed.

(** Deleting: 403 exactly for a requester who is neither the comment's
    author nor the article's; the two authors get through when the
    article validates, and are answered 500 when the article that is
    left does not. *)
Lemma delete_comment_rights user id cid now db a c :
  db !! id = Some a → comment_by_id cid a = Some c →
  (status_of (delete_comment user id cid now db).1 = 200%nat
   → user = comment_user c ∨ user = author a)
  ∧ (user ≠ comment_user c → user ≠ author a →
     delete_comment user id cid now db
     = (Err 403 "Not authorized to delete this comment", db))
  ∧ (user = comment_user c ∨ user = author a → validate a = true →
     ∃ a', delete_comment user id cid now db = (Ok 200 (), <[id := a']> db)
           ∧ comment_by_id cid a' = None)
  ∧ (user = comment_user c ∨ user = author a →
     validate
       (set_comments (filter (λ c, comment_id c ≠ cid) (comments a)) a)
     = false →
     delete_comment user id cid now db = (Err 500 "Server error", db)).
Proof.
  intros Hdb Hc. rewrite (delete_comment_run user id cid now db a c) by done.
  cbv zeta.
  destruct (decide (comment_user c = user)) as [Hcu|Hcu];
    destruct (decide (author a = user)) as [Hau|Hau].
  all: rewrite ?(bool_decide_eq_true_2 _ Hcu), ?(bool_decide_eq_true_2 _ Hau),
         ?(bool_decide_eq_false_2 (comment_user c ≠ user)) by (intros H; by apply H).
  all: rewrite ?(bool_decide_eq_false_2 (author a ≠ user)) by (intros H; by apply H).
  all: cbn [andb].
  1-3: split; [intros _; auto|];
       split; [intros; congruence|];
       split; [intros _ Hv; rewrite validate_delete by done;
               eexists; split; [done|apply comment_by_id_deleted]
              |intros _ ->; done].
  split; [done|]. split; [done|].
  split; [intros [?|?]; congruence|intros [?|?]; congruence].
Qed.

(** Editing: only the comment's author gets through. *)
Lemma update_comment_rights valid user id cid now v db a c :
  db !! id = Some a → comment_by_id cid a = Some c →
  (status_of (update_comment valid user id cid now v db).1 = 200%nat
   → user = comment_user c)
  ∧ (valid = true → user ≠ comment_user c →
     update_comment valid user id cid now v db
     = (Err 403 "Not authorized to update this comment", db))
  ∧ (valid = true → user = comment_user c → validate a = true →
     nonempty v && (length v <=? 1000)%nat = true →
     ∃ db', update_comment valid user id cid now v db
            = (Ok 200 (mkComment (comment_id c) (comment_user c) v
                         (comment_createdAt c)), db')).
Proof.
  intros Hdb Hc. unfold update_comment. rewrite Hdb, Hc.
  destruct valid; cbn [negb].
  2:{ split; [done|]. split; intros; done. }
  destruct (decide (comment_user c = user)) as [Hcu|Hcu].
  - rewrite (bool_decide_eq_false_2 (comment_user c ≠ user)) by (intros H; by apply H).
    split; [done|]. split; [intros; congruence|].
    intros _ _ Hok Hv. rewrite save_Some by (by apply validate_edit).
    unfold comment_by_id in Hc |- *.
    destruct (list_find _ (comments a)) as [[i x]|] eqn:Hf; [|done].
    injection Hc as ->.
    destruct (timestamps_frame false
      (changed a (set_comments (edit_first cid v (comments a)) a)) now
      (pre_save (changed a (set_comments (edit_first cid v (comments a)) a)) now
         (set_comments (edit_first cid v (comments a)) a)))
      as (_ & _ & _ & _ & _ & _ & _ & _ & _ & -> & _).
    destruct (pre_save_frame
      (changed a (set_comments (edit_first cid v (comments a)) a)) now
      (set_comments (edit_first cid v (comments a)) a))
      as (_ & _ & _ & _ & _ & _ & _ & -> & _).
    cbn [comments set_comments].
    rewrite (edit_first_find cid v (comments a) i c Hf). cbn. by eexists.
  - rewrite (bool_decide_eq_true_2 (comment_user c ≠ user)) by done.
    cbn [fst status_of]. split; [done|]. split; [done|]. intros; congruence.
Qed.

(** C9 (defect of the code). User 10 creates an article, user 7
    comments on it, and user 10 updates the article with 300 letters of
    content and an empty excerpt: the hook stores a derived excerpt of
    303 characters, which the schema does not accept. From then on the
    deletion of the comment is answered 500, and the comment stays,
    for the author of the comment and for the author of the article
    alike, while a third user is still answered 403. *)
Theorem authorized_comment_delete_fails :
  ∀ toLowerCase,
    let db1 :=
      (create_article toLowerCase true 10 1 0 (draft_of (js "short")) ∅).2 in
    let db2 := (add_comment true 7 1 5 10 (js "nice") db1).2 in
    let updated :=
      update_article toLowerCase true 10 1 20
        (updates_of (mkBody None (Some (replicate 300 97%N)) (Some []) None
                       None None)) db2 in
    let db3 := updated.2 in
    status_of updated.1 = 200%nat
    ∧ (λ a, (author a, comment_user <$> comment_by_id 5 a,
             length (default [] (excerpt a)))) <$> db3 !! 1%N
      = Some (10%N, Some 7%N, 303%nat)
    ∧ delete_comment 7 1 5 30 db3 = (Err 500 "Server error", db3)
    ∧ delete_comment 10 1 5 30 db3 = (Err 500 "Server error", db3)
    ∧ delete_comment 8 1 5 30 db3
      = (Err 403 "Not authorized to delete this comment", db3).
Proof.
  intros toLowerCase. cbv zeta.
  split; [vm_compute; reflexivity|].
  split; [vm_compute; reflexivity|].
  split; [vm_compute; reflexivity|].
  split; vm_compute; reflexivity.
Qed.

(** ** Bulk delete *)

Lemma found_ids_in user ids (db : gmap N Article) i :
  i ∈ (map_to_list (filter (owned_in ids user) db)).*1 →
  i ∈ ids ∧ ∃ a, db !! i = Some a ∧ author a = user.
Proof.
  intros ([j a] & -> & Hja)%list_elem_of_fmap.
  apply elem_of_map_to_list, map_lookup_filter_Some in Hja as [Hdb [Hin Hau]].
  split; [done|]. by exists a.
Qed.

Lemma found_length_le user ids (db : gmap N Article) :
  (length (map_to_list (filter (owned_in ids user) db)) ≤ length ids)%nat.
Proof.
  rewrite <- (length_fmap fst). apply submseteq_length, NoDup_submseteq.
  - apply NoDup_fst_map_to_list.
  - intros i Hi. by apply found_ids_in in Hi as [? _].
Qed.

(** One listed id that is missing or belongs to someone else makes the
    owned matches fewer than the listed ids. *)
Lemma found_length_lt user ids (db : gmap N Article) i :
  i ∈ ids → (∀ a, db !! i = Some a → author a ≠ user) →
  (length (map_to_list (filter (owned_in ids user) db)) < length ids)%nat.
Proof.
  intros Hin Hbad.
  set (found := map_to_list (filter (owned_in ids user) db)).
  assert (i ∉ found.*1) as Hi.
  { intros (_ & a & Hdb & Hau)%found_ids_in. by apply (Hbad a). }
  assert (i :: found.*1 ⊆+ ids) as Hsub.
  { apply NoDup_submseteq.
    - apply NoDup_cons. split; [done|apply NoDup_fst_map_to_list].
    - intros j [->|Hj]%elem_of_cons; [done|].
      by apply found_ids_in in Hj as [? _]. }
  apply submseteq_length in Hsub. cbn in Hsub.
  rewrite length_fmap in Hsub. lia.
Qed.

Lemma found_length_eq user ids (db : gmap N Article) :
  NoDup ids → (∀ i, i ∈ ids → ∃ a, db !! i = Some a ∧ author a = user) →
  length (map_to_list (filter (owned_in ids user) db)) = length ids.
Proof.
  intros Hnd Hall. apply Nat.le_antisymm; [apply found_length_le|].
  rewrite <- (length_fmap fst (map_to_list _)).
  apply submseteq_length, NoDup_submseteq; [done|].
  intros i Hi. destruct (Hall i Hi) as (a & Hdb & Hau).
  apply list_elem_of_fmap. exists (i, a). split; [done|].
  apply elem_of_map_to_list, map_lookup_filter_Some. by repeat split.
Qed.

Lemma bulk_delete_refused user ids (db : gmap N Article) i :
  i ∈ ids → (∀ a, db !! i = Some a → author a ≠ user) →
  bulk_delete true user ids db
  = (Err 403 "Some articles not found or not authorized", db, []).
Proof.
  intros Hin Hbad. unfold bulk_delete. cbn [negb].
  pose proof (found_length_lt user ids db i Hin Hbad).
  rewrite bool_decide_eq_true_2 by lia. reflexivity.
Qed.

Lemma bulk_delete_done user ids (db : gmap N Article) n db' events :
  bulk_delete true user ids db = (Ok 200 n, db', events) →
  n = length ids
  ∧ (∀ i, i ∈ ids →
       db' !! i = None ∧ ∃ a, db !! i = Some a ∧ author a = user)
  ∧ (∀ i, i ∉ ids → db' !! i = db !! i)
  ∧ ∃ released,
      events = released ++ [ArticlesDeleted ids user]
      ∧ (∀ i a c pid, i ∈ ids → db !! i = Some a →
           public_id (featuredImage a) = Some (c :: pid) →
           ImageDeleted (c :: pid) ∈ released)
      ∧ Forall (λ e, ∃ pid, e = ImageDeleted pid) released.
Proof.
  unfold bulk_delete. cbn [negb].
  case_bool_decide as Hlen; [done|]. intros [= <- <- <-].
  assert (∀ i, i ∈ ids → ∃ a, db !! i = Some a ∧ author a = user) as Hown.
  { intros i Hi. destruct (db !! i) as [a|] eqn:Hdb.
    - destruct (decide (author a = user)) as [Hau|Hau]; [by exists a|].
      assert (∀ a', db !! i = Some a' → author a' ≠ user) as Hbad
        by (intros a'; rewrite Hdb; by intros [= <-]).
      pose proof (found_length_lt user ids db i Hi Hbad). lia.
    - assert (∀ a', db !! i = Some a' → author a' ≠ user) as Hbad
        by (intros a'; by rewrite Hdb).
      pose proof (found_length_lt user ids db i Hi Hbad). lia. }
  split; [lia|]. split; [|split].
  - intros i Hi. split; [|by apply Hown].
    apply map_lookup_filter_None. right. intros a Hdb Hno. apply Hno.
    destruct (Hown i Hi) as (a' & Hdb' & Hau). split; [done|]. cbn. congruence.
  - intros i Hi. destruct (db !! i) as [a|] eqn:Hdb.
    + apply map_lookup_filter_Some. split; [done|]. by intros [? _].
    + apply map_lookup_filter_None. by left.
  - eexists. split; [done|]. split.
    + intros i a c pid Hi Hdb Hpid. apply list_elem_of_omap.
      exists (i, a). split.
      * apply elem_of_map_to_list, map_lookup_filter_Some. split; [done|].
        destruct (Hown i Hi) as (a' & Hdb' & Hau). split; [done|]. cbn. congruence.
      * cbn. by rewrite Hpid.
    + apply Forall_forall. intros e ([i a] & _ & He)%list_elem_of_omap.
      cbn in He. destruct (public_id (featuredImage a)) as [[|c pid]|]; [done| |done].
      injection He as <-. by eexists.
Qed.

(** C5. A bulk delete is refused as a whole, with 403 and nothing
    deleted nor released, as soon as one listed id is missing or belongs
    to another author. When it succeeds, every listed article was the
    requester's and is gone, the articles that were not listed are
    untouched, and the handler released the stored image of each listed
    article before it issued the deletion. A list of distinct ids that
    are all the requester's does succeed. *)
Theorem bulk_delete_all_or_nothing user ids (db : gmap N Article) :
  (∀ i, i ∈ ids → (∀ a, db !! i = Some a → author a ≠ user) →
     bulk_delete true user ids db
     = (Err 403 "Some articles not found or not authorized", db, []))
  ∧ (∀ n db' events,
       bulk_delete true user ids db = (Ok 200 n, db', events) →
       n = length ids
       ∧ (∀ i, i ∈ ids →
            db' !! i = None ∧ ∃ a, db !! i = Some a ∧ author a = user)
       ∧ (∀ i, i ∉ ids → db' !! i = db !! i)
       ∧ ∃ released,
           events = released ++ [ArticlesDeleted ids user]
           ∧ (∀ i a c pid, i ∈ ids → db !! i = Some a →
                public_id (featuredImage a) = Some (c :: pid) →
                ImageDeleted (c :: pid) ∈ released)
           ∧ Forall (λ e, ∃ pid, e = ImageDeleted pid) released)
  ∧ (NoDup ids →
     (∀ i, i ∈ ids → ∃ a, db !! i = Some a ∧ author a = user) →
     ∃ db' events,
       bulk_delete true user ids db = (Ok 200 (length ids), db', events)).
Proof.
  split; [|split].
  - intros i. apply bulk_delete_refused.
  - apply bulk_delete_done.
  - intros Hnd Hall. unfold bulk_delete. cbn [negb].
    rewrite bool_decide_eq_false_2
      by (intros H; apply H; by apply found_length_eq).
    rewrite found_length_eq by done. by eexists _, _.
Qed.

(** Over [A, B] with [B] of another author the call is refused and both
    articles stay; over [A] alone it succeeds. *)
Lemma bulk_delete_example :
  let A := sample 10 false None 0 [] in
  let B := sample 11 false None 0 [] in
  let db : gmap N Article := <[1%N := A]> (<[2%N := B]> ∅) in
  bulk_delete true 10 [1; 2]%N db
  = (Err 403 "Some articles not found or not authorized", db, [])
  ∧ bulk_delete true 10 [1]%N db
    = (Ok 200 1%nat, {[ 2%N := B ]}, [ArticlesDeleted [1%N] 10%N]).
Proof. split; vm_compute; reflexivity. Qed.

(** The count of the owned matches is compared with the length of the
    list, so a list that names an owned article twice is refused too. *)
Lemma bulk_delete_repeated_id :
  let db : gmap N Article := {[ 1%N := sample 10 false None 0 [] ]} in
  bulk_delete true 10 [1; 1]%N db
  = (Err 403 "Some articles not found or not authorized", db, []).
Proof. vm_compute. reflexivity. Qed.

(** ** Sorting *)

Lemma bson_leb_spec x y :
  bson_leb x y = true
  ↔ bson_rank x < bson_rank y
    ∨ bson_rank x = bson_rank y ∧ bson_payload x ≤ bson_payload y.
Proof.
  unfold bson_leb.
  rewrite orb_true_iff, andb_true_iff, Z.ltb_lt, Z.eqb_eq, Z.leb_le. tauto.
Qed.

Lemma bson_leb_false x y :
  bson_leb x y = false
  ↔ bson_rank y < bson_rank x
    ∨ bson_rank x = bson_rank y ∧ bson_payload y < bson_payload x.
Proof.
  rewrite <- not_true_iff_false, bson_leb_spec. lia.
Qed.

Lemma desc_leb_total spec a b :
  desc_leb spec a b = true ∨ desc_leb spec b a = true.
Proof.
  induction spec as [|p spec IH]; cbn [desc_leb]; [by left|].
  destruct (bson_leb (sort_key p a) (sort_key p b)) eqn:Hab,
    (bson_leb (sort_key p b) (sort_key p a)) eqn:Hba; cbn [andb]; auto.
  bson_facts bson_leb_spec bson_leb_false. lia.
Qed.

Lemma desc_leb_trans spec a b c :
  desc_leb spec a b = true → desc_leb spec b c = true →
  desc_leb spec a c = true.
Proof.
  induction spec as [|p spec IH]; cbn [desc_leb]; [done|].
  destruct (bson_leb (sort_key p a) (sort_key p b)) eqn:Hab,
    (bson_leb (sort_key p b) (sort_key p a)) eqn:Hba,
    (bson_leb (sort_key p b) (sort_key p c)) eqn:Hbc,
    (bson_leb (sort_key p c) (sort_key p b)) eqn:Hcb,
    (bson_leb (sort_key p a) (sort_key p c)) eqn:Hac,
    (bson_leb (sort_key p c) (sort_key p a)) eqn:Hca;
    cbn [andb]; try done; try (by apply IH); intros _ _; bson_facts bson_leb_spec bson_leb_false; lia.
Qed.

Lemma before_total spec : Total (before spec).
Proof.
  intros x y. unfold before.
  destruct (desc_leb_total spec x.2 y.2) as [->| ->]; [by left|by right].
Qed.

Lemma before_trans spec : Transitive (before spec).
Proof.
  intros x y z Hxy%Is_true_true Hyz%Is_true_true.
  apply Is_true_true. by apply (desc_leb_trans spec _ y.2).
Qed.

(** The documents come out in the order of the sort specification, and
    a page of them is in that order too. *)
Lemma sort_desc_sorted spec l : StronglySorted (before spec) (sort_desc spec l).
Proof.
  apply (@StronglySorted_merge_sort _ (before spec) _
           (before_trans spec) (before_total spec)).
Qed.

(** ** Pages *)

(** A page is answered when the skip is not negative; it holds the
    documents after the skipped ones, as many as the limit says. *)
Lemma paginate_Some p l found pg :
  paginate p l found = Some pg ↔
  0 ≤ (or_default 1 p - 1) * or_default 10 l
  ∧ pg = mkPage
           (take (Z.to_nat (Z.abs (or_default 10 l)))
              (drop (Z.to_nat ((or_default 1 p - 1) * or_default 10 l)) found))
           (or_default 1 p) (or_default 10 l) (length found)
           (ceil_div (Z.of_nat (length found)) (or_default 10 l)).
Proof.
  unfold paginate, skip_limit.
  destruct (Z.ltb_spec ((or_default 1 p - 1) * or_default 10 l) 0); cbn.
  - split; [done|]. intros [? _]. lia.
  - split; [intros [= <-]; by split|]. by intros [_ ->].
Qed.

Lemma paginate_None p l found :
  paginate p l found = None ↔ (or_default 1 p - 1) * or_default 10 l < 0.
Proof.
  unfold paginate, skip_limit.
  destruct (Z.ltb_spec ((or_default 1 p - 1) * or_default 10 l) 0); cbn.
  - done.
  - split; [done|lia].
Qed.

Lemma page_response_Ok o pg : page_response o = Ok 200 pg ↔ o = Some pg.
Proof. destruct o; cbn; split; congruence. Qed.

(** The first page is always answered. *)
Lemma paginate_first l found :
  ∃ pg, paginate None l found = Some pg
        ∧ articles pg = take (Z.to_nat (Z.abs (limit pg))) found
        ∧ page pg = 1 ∧ limit pg = or_default 10 l
        ∧ total pg = length found.
Proof.
  eexists. split; [apply paginate_Some; split; [cbn; lia|reflexivity]|].
  cbn. by rewrite drop_0.
Qed.

Lemma paginate_sorted spec p l found pg :
  paginate p l found = Some pg →
  StronglySorted (before spec) found →
  StronglySorted (before spec) (articles pg).
Proof.
  intros [_ ->]%paginate_Some Hs. cbn [articles].
  set (n := Z.to_nat ((or_default 1 p - 1) * or_default 10 l)).
  rewrite <- (take_drop n found) in Hs.
  apply StronglySorted_app_1_r in Hs.
  rewrite <- (take_drop (Z.to_nat (Z.abs (or_default 10 l))) (drop n found))
    in Hs.
  by apply StronglySorted_app_1_l in Hs.
Qed.

Lemma paginate_subseteq p l found pg :
  paginate p l found = Some pg → articles pg ⊆ found.
Proof.
  intros [_ ->]%paginate_Some. cbn.
  etrans; [apply subseteq_take|apply subseteq_drop].
Qed.

(** ** Visibility *)

Lemma get_article_spec requester id now (db : gmap N Article) :
  match db !! id with
  | Some a =>
      if visible requester a
      then get_article requester id now db
           = (Ok 200 (set_views (views a + 1) a),
              alter (λ a, set_updatedAt now (set_views (views a + 1) a)) id db)
      else get_article requester id now db = (Err 404 "Article not found", db)
  | None => get_article requester id now db = (Err 404 "Article not found", db)
  end.
Proof.
  unfold get_article, visible. destruct (db !! id) as [a|]; [|done].
  by destruct (published a), (isAuthor requester a).
Qed.

Section FeedFacts.
Variable toLowerCase : jsstring → jsstring.
Variable regex_i : jsstring → option (jsstring → bool).
Variable castObjectId : jsstring → option ObjectId.

Lemma feed_query_published q matches a :
  feed_query toLowerCase regex_i castObjectId q = Some matches →
  matches a = true → published a = true.
Proof.
  unfold feed_query.
  destruct (match present (q_author q) with Some _ => _ | None => _ end);
    [|done].
  destruct (match present (q_search q) with Some _ => _ | None => _ end);
    [|done].
  cbn. intros [= <-]. rewrite !andb_true_iff. tauto.
Qed.

Lemma sort_desc_elem spec l x : x ∈ sort_desc spec l ↔ x ∈ l.
Proof. unfold sort_desc. by rewrite merge_sort_Permutation. Qed.

(** Whatever the query and the requester, the feed returns stored
    documents that are published. *)
Lemma feed_only_published requester q (db : gmap N Article) page i a :
  list_articles toLowerCase regex_i castObjectId requester q db = Ok 200 page →
  (i, a) ∈ articles page → db !! i = Some a ∧ published a = true.
Proof.
  unfold list_articles.
  destruct (feed_query toLowerCase regex_i castObjectId q) as [matches|] eqn:Hq;
    [|done].
  intros Hpg%page_response_Ok Hin.
  apply (paginate_subseteq _ _ _ _ Hpg), sort_desc_elem in Hin.
  apply list_elem_of_filter in Hin as [Hm Hin]. cbn in Hm.
  apply elem_of_map_to_list in Hin. split; [done|].
  apply (feed_query_published q matches a Hq). by apply Is_true_true.
Qed.

(** Without a search term and an author filter the feed answers its
    first page. *)
Lemma feed_answers requester q (db : gmap N Article) :
  present (q_search q) = None → present (q_author q) = None →
  q_page q = None →
  ∃ page,
    list_articles toLowerCase regex_i castObjectId requester q db = Ok 200 page.
Proof.
  intros Hs Ha Hp. unfold list_articles, feed_query. rewrite Hs, Ha, Hp. cbn.
  set (found := sort_desc _ _).
  destruct (paginate_first (q_limit q) found) as (pg & -> & _).
  by exists pg.
Qed.

(** Without filters, the first page of the feed holds every published
    article as long as they fit in it. *)
Lemma feed_lists_published requester l (db : gmap N Article) i a :
  db !! i = Some a → published a = true →
  ∃ page,
    list_articles toLowerCase regex_i castObjectId requester
      (mkListQuery None l None None None None) db = Ok 200 page
    ∧ (Z.of_nat (total page) ≤ limit page → (i, a) ∈ articles page).
Proof.
  intros Hdb Hpub. unfold list_articles, feed_query. cbn.
  set (found := sort_desc _ _).
  destruct (paginate_first l found) as (pg & -> & Harts & _ & _ & Htot).
  exists pg. split; [done|]. rewrite Harts, Htot. intros Hfit.
  rewrite take_ge by lia.
  apply sort_desc_elem, list_elem_of_filter. split.
  - cbn. by rewrite Hpub.
  - by apply elem_of_map_to_list.
Qed.
End FeedFacts.

(** C4 (counterexample). The author of a draft gets it from the detail
    route, and the visibility rule holds of it, but the general list
    requested by that same author does not contain it. *)
Lemma feed_hides_own_draft :
  let draft := sample 10 false None 0 [] in
  let db : gmap N Article := {[ 1%N := draft ]} in
  visible (Some 10%N) draft = true
  ∧ status_of (get_article (Some 10%N) 1 50 db).1 = 200%nat
  ∧ list_articles (λ t, t) (λ _, None) (λ _, None) (Some 10%N) plain_query db
    = Ok 200 (mkPage [] 1 10 0 0).
Proof. repeat split; vm_compute; reflexivity. Qed.

(** C4 (amended). The detail route applies the visibility filter: an
    article is returned when it is published or the requester is its
    author, and the answer is 404 otherwise, as for an unknown id; so a
    draft is readable by its author only. The general list applies a
    stricter filter: whatever the query and whoever the requester, it
    returns published articles only, so a draft never appears in it, not
    even to its own author; a published article does appear. *)
Theorem visibility_filter toLowerCase regex_i castObjectId requester q id now
    (db : gmap N Article) :
  match db !! id with
  | Some a =>
      if visible requester a
      then get_article requester id now db
           = (Ok 200 (set_views (views a + 1) a),
              alter (λ a, set_updatedAt now (set_views (views a + 1) a)) id db)
      else get_article requester id now db = (Err 404 "Article not found", db)
  | None => get_article requester id now db = (Err 404 "Article not found", db)
  end
  ∧ (∀ page i a,
       list_articles toLowerCase regex_i castObjectId requester q db
       = Ok 200 page →
       (i, a) ∈ articles page → db !! i = Some a ∧ published a = true)
  ∧ (∀ requester',
       list_articles toLowerCase regex_i castObjectId requester' q db
       = list_articles toLowerCase regex_i castObjectId requester q db)
  ∧ (∀ l i a, db !! i = Some a → published a = true →
       ∃ page,
         list_articles toLowerCase regex_i castObjectId requester
           (mkListQuery None l None None None None) db = Ok 200 page
         ∧ (Z.of_nat (total page) ≤ limit page → (i, a) ∈ articles page)).
Proof.
  split; [apply get_article_spec|]. split; [|split].
  - intros page i a. apply feed_only_published.
  - reflexivity.
  - intros l i a. apply feed_lists_published.
Qed.

(** ** Trending *)

Lemma like_field_length l : like_field "length" l = None.
Proof. reflexivity. Qed.

(** No like subdocument has a field [length]: the path [likes.length]
    selects nothing and every article gets the key [null]. *)
Lemma sort_key_likes_length a : sort_key (ByLikes "length") a = BNull.
Proof.
  unfold sort_key, path_values.
  induction (likes a) as [|l ls IH]; [done|].
  cbn [omap list_omap]. by rewrite like_field_length.
Qed.

(** The trending order is the order by views, then by [publishedAt]. *)
Lemma trending_sort_two_keys a b :
  desc_leb trending_sort a b = desc_leb [ByViews; ByPublishedAt] a b.
Proof.
  unfold trending_sort. cbn [desc_leb]. by rewrite !sort_key_likes_length.
Qed.

(** The candidates of the trending query: the published articles whose
    [publishedAt] is not older than [days] days, with 7 for [days] when
    the parameter is absent or zero. *)
Lemma trending_candidates requester p l q_days now (db : gmap N Article) :
  (∀ page i a,
     trending requester p l q_days now db = Ok 200 page →
     (i, a) ∈ articles page →
     db !! i = Some a ∧ published a = true
     ∧ ∃ d, publishedAt a = Some d
            ∧ now - or_default 7 q_days * msPerDay ≤ d)
  ∧ ∃ page,
      trending requester None l q_days now db = Ok 200 page
      ∧ (∀ i a d, db !! i = Some a → published a = true →
           publishedAt a = Some d →
           now - or_default 7 q_days * msPerDay ≤ d →
           Z.of_nat (total page) ≤ limit page → (i, a) ∈ articles page).
Proof.
  unfold trending. split.
  - intros page i a Hpg%page_response_Ok Hin.
    apply (paginate_subseteq _ _ _ _ Hpg), sort_desc_elem in Hin.
    apply list_elem_of_filter in Hin as [Hc Hin]. cbn in Hc.
    apply elem_of_map_to_list in Hin. split; [done|].
    unfold trending_candidate in Hc.
    apply Is_true_true, andb_true_iff in Hc as [Hpub Hd]. split; [done|].
    destruct (publishedAt a) as [d|]; [|done]. exists d. split; [done|]. lia.
  - set (found := sort_desc _ _).
    destruct (paginate_first l found) as (pg & -> & Harts & _ & _ & Htot).
    exists pg. split; [done|]. intros i a d Hdb Hpub Hd Hle Hfit.
    rewrite Harts. rewrite Htot in Hfit. rewrite take_ge by lia.
    apply sort_desc_elem, list_elem_of_filter. split.
    + cbn. unfold trending_candidate. rewrite Hpub, Hd. cbn.
      apply Is_true_true. lia.
    + by apply elem_of_map_to_list.
Qed.

Lemma StronglySorted_weaken {A} (R R' : relation A) l :
  (∀ x y, R x y → R' x y) → StronglySorted R l → StronglySorted R' l.
Proof.
  intros HR. induction 1 as [|x l _ IH Hx]; constructor; [done|].
  eapply Forall_impl; [exact Hx|]. intros y. apply HR.
Qed.

(** A page of the trending feed is ordered by views descending, then by
    [publishedAt] descending; the likes play no part. *)
Lemma trending_order requester p l q_days now (db : gmap N Article) page :
  trending requester p l q_days now db = Ok 200 page →
  StronglySorted (before [ByViews; ByPublishedAt]) (articles page).
Proof.
  unfold trending. intros Hpg%page_response_Ok.
  apply (StronglySorted_weaken (before trending_sort)).
  - intros x y. unfold before. by rewrite trending_sort_two_keys.
  - apply (paginate_sorted _ _ _ _ _ Hpg), sort_desc_sorted.
Qed.

(** The handler at work, at day 10 with [days = 7]: the article
    published 8 days ago is left out and the one published 6 days ago
    is kept, and of two candidates with the same views the one with one
    like and the later date comes before the one with five likes. *)
Lemma trending_handler_example :
  let A := sample 10 true (Some (day 4)) 50 (likes_of [21; 22; 23; 24; 25]%N) in
  let B := sample 11 true (Some (day 9)) 50 (likes_of [21]%N) in
  let C := sample 12 true (Some (day 2)) 99 [] in
  let db : gmap N Article := <[1%N := A]> (<[2%N := B]> (<[3%N := C]> ∅)) in
  articles <$> body_of (trending None None None (Some 7) (day 10) db)
  = Some [(2%N, B); (1%N, A)]
  ∧ spec_trending_before B A = false
  ∧ spec_trending_before A B = true.
Proof. repeat split; vm_compute; reflexivity. Qed.

(** ** The router *)

Section RouterFacts.
Variable isValid : jsstring → bool.
Variable toLowerCase : jsstring → jsstring.

(** A path of one segment goes to the detail route, whatever the
    segment. *)
Lemma route_of_one_segment segment :
  route_of toLowerCase [segment] = Some (GetDetail, [("id"%string, segment)]).
Proof. reflexivity. Qed.

Lemma match_path_length pattern path params :
  match_path toLowerCase pattern path = Some params →
  length path = length pattern.
Proof.
  revert path params.
  induction pattern as [|[s|name] pattern IH]; intros [|segment path] params;
    cbn; try done.
  - case_bool_decide; [|done]. intros Hm. f_equal. by eapply IH.
  - destruct (match_path _ _ _) eqn:Hm; [|done]. intros _. f_equal.
    by eapply IH.
Qed.

(** No path is passed to the handler of the trending route: its path
    has one segment, and such a path is taken by the detail route. *)
Lemma route_of_never_trending path params :
  route_of toLowerCase path ≠ Some (GetTrending, params).
Proof.
  destruct path as [|segment [|segment' path]].
  - done.
  - by rewrite route_of_one_segment.
  - unfold route_of, get_routes. cbn [omap list_omap fst snd match_path].
    repeat case_bool_decide; cbn; try done;
      destruct path; cbn; done.
Qed.

Lemma dispatch_get_never_trending path :
  runs GetTrending (dispatch_get isValid toLowerCase path) = false.
Proof.
  unfold dispatch_get.
  destruct (route_of toLowerCase path) as [[route params]|] eqn:Hr; [|done].
  destruct route; cbn; unfold validate_param; try done.
  - by destruct (from_option _ _ _).
  - by destruct (from_option _ _ _).
  - by apply route_of_never_trending in Hr.
Qed.
End RouterFacts.

(** C7 (defect of the code). The request [GET /trending] never reaches
    the trending handler: the detail route [/:id] is registered before it
    and matches the path, its [validateObjectId] does not take
    "trending" for an ObjectId, and the answer is 400 with 'Invalid
    article ID format' in place of the ranked list. *)
Theorem trending_route_is_shadowed isValid toLowerCase :
  isValid (js "trending") = false →
  route_of toLowerCase [js "trending"]
  = Some (GetDetail, [("id"%string, js "trending")])
  ∧ dispatch_get isValid toLowerCase [js "trending"]
    = Refused 400 "Invalid article ID format"
  ∧ runs GetTrending (dispatch_get isValid toLowerCase [js "trending"]) = false.
Proof.
  intros Hid. split; [reflexivity|].
  assert (dispatch_get isValid toLowerCase [js "trending"]
          = Refused 400 "Invalid article ID format") as ->; [|done].
  unfold dispatch_get. rewrite route_of_one_segment.
  unfold validate_param.
  assert (param "id" [("id"%string, js "trending")] = Some (js "trending"))
    as -> by reflexivity.
  cbn [from_option]. by rewrite Hid.
Qed.

Lemma trending_route_is_shadowed_witness :
  hex24 (js "trending") = false
  ∧ dispatch_get hex24 (λ s, s) [js "trending"]
    = Refused 400 "Invalid article ID format".
Proof.
  split; [reflexivity|].
  apply (trending_route_is_shadowed hex24 (λ s, s)). reflexivity.
Defined.

(** * Properties of the remaining routes *)

(** ** Delete *)

Lemma delete_article_cases deleteImage user id (db : gmap N Article) :
  match db !! id with
  | None =>
      delete_article deleteImage user id db
      = (Err 404 "Article not found", db, [])
  | Some a =>
      if bool_decide (author a = user) then
        match old_image a ≫= deleteImage with
        | None =>
            delete_article deleteImage user id db
            = (Ok 200 (), delete id db,
               from_option (λ pid, [ImageDeleted pid]) [] (old_image a))
        | Some _ =>
            delete_article deleteImage user id db
            = (Err 500 "Server error", db,
               from_option (λ pid, [ImageDeleted pid]) [] (old_image a))
        end
      else
        delete_article deleteImage user id db
        = (Err 403 "Not authorized to delete this article", db, [])
  end.
Proof.
  unfold delete_article. destruct (db !! id) as [a|]; [|done].
  destruct (decide (author a = user)) as [Hu|Hu].
  - rewrite (bool_decide_eq_true_2 _ Hu), bool_decide_eq_false_2 by naive_solver.
    destruct (old_image a) as [pid|]; cbn; [|done].
    by destruct (deleteImage pid).
  - by rewrite (bool_decide_eq_false_2 _ Hu), bool_decide_eq_true_2.
Qed.

(** X1. [DELETE /:id] answers 200 exactly when the article exists, the
    requester is its author and the release of its image (if it has
    one) did not fail; then that article, and no other, is gone from
    the store. An unknown id gives 404, somebody else's article 403,
    and every answer other than 200 leaves the store as it was. *)
Theorem delete_article_effect deleteImage user id (db : gmap N Article) :
  let r := delete_article deleteImage user id db in
  (status_of r.1.1 = 200%nat
   ↔ ∃ a, db !! id = Some a ∧ author a = user
          ∧ old_image a ≫= deleteImage = None)
  ∧ (status_of r.1.1 = 200%nat →
     r.1.2 !! id = None ∧ ∀ j, j ≠ id → r.1.2 !! j = db !! j)
  ∧ (status_of r.1.1 ≠ 200%nat → r.1.2 = db)
  ∧ (db !! id = None → r = (Err 404 "Article not found", db, []))
  ∧ (∀ a, db !! id = Some a → author a ≠ user →
       r = (Err 403 "Not authorized to delete this article", db, [])).
Proof.
  cbn zeta. pose proof (delete_article_cases deleteImage user id db) as H.
  destruct (db !! id) as [a|] eqn:Hdb.
  - destruct (decide (author a = user)) as [Hu|Hu].
    + rewrite (bool_decide_eq_true_2 _ Hu) in H.
      destruct (old_image a ≫= deleteImage) as [msg|] eqn:Hrel; rewrite H; cbn.
      * repeat split; try done.
        -- intros (a' & [= <-] & _ & Hn). congruence.
        -- intros a' [= <-]. done.
      * repeat split; try done.
        -- intros _. by exists a.
        -- by rewrite lookup_delete_eq.
        -- intros j Hj. by rewrite lookup_delete_ne.
        -- intros a' [= <-]. done.
    + rewrite (bool_decide_eq_false_2 _ Hu) in H. rewrite H. cbn.
      repeat split; try done.
      intros (a' & [= <-] & Hu' & _). done.
  - rewrite H. cbn. repeat split; try done.
    intros (a' & [=] & _).
Qed.

(** The documents a request of [user] on the ids [ids] finds. *)
Lemma owned_in_singleton user id (db : gmap N Article) a :
  db !! id = Some a → author a = user →
  filter (owned_in [id] user) db = {[ id := a ]}
  ∧ filter (λ ia, ¬ owned_in [id] user ia) db = delete id db.
Proof.
  intros Hdb Hu. split; apply map_eq; intros j.
  - destruct (decide (j = id)) as [->|Hj].
    + rewrite lookup_singleton_eq. apply map_lookup_filter_Some.
      split; [done|]. split; [apply list_elem_of_here|done].
    + rewrite lookup_singleton_ne by done. apply map_lookup_filter_None.
      right. intros x _ [Hin _]. cbn in Hin.
      apply list_elem_of_singleton in Hin. done.
  - destruct (decide (j = id)) as [->|Hj].
    + rewrite lookup_delete_eq. apply map_lookup_filter_None.
      right. intros x Hx Hn. apply Hn. rewrite Hdb in Hx.
      injection Hx as <-. split; [apply list_elem_of_here|done].
    + rewrite lookup_delete_ne by done.
      destruct (db !! j) as [x|] eqn:Hx.
      * apply map_lookup_filter_Some. split; [done|].
        intros [Hin _]. cbn in Hin. apply list_elem_of_singleton in Hin. done.
      * apply map_lookup_filter_None. by left.
Qed.

Lemma owned_in_singleton_none user id (db : gmap N Article) :
  (∀ a, db !! id = Some a → author a ≠ user) →
  filter (owned_in [id] user) db = ∅.
Proof.
  intros Hno. apply map_eq. intros j. rewrite lookup_empty.
  apply map_lookup_filter_None. right. intros x Hx [Hin Hu]. cbn in *.
  apply list_elem_of_singleton in Hin as ->. by apply (Hno x).
Qed.

(** X2. Deleting one article through [DELETE /:id] and through the
    bulk route with the one-element list [[id]] leave the same store
    and are accepted in the same cases (the release of images taken
    not to fail); the bulk route answers 403 where the single route
    answers 404 or 403, and on success it issues the same image
    releases, followed by its [deleteMany]. *)
Theorem delete_article_as_bulk_delete user id (db : gmap N Article) :
  let r := delete_article (λ _, None) user id db in
  let b := bulk_delete true user [id] db in
  b.1.2 = r.1.2
  ∧ (status_of r.1.1 = 200%nat ↔ status_of b.1.1 = 200%nat)
  ∧ (status_of r.1.1 = 200%nat →
     b.1.1 = Ok 200 1%nat ∧ b.2 = r.2 ++ [ArticlesDeleted [id] user])
  ∧ (status_of r.1.1 ≠ 200%nat →
     b = (Err 403 "Some articles not found or not authorized", db, [])).
Proof.
  cbn zeta. pose proof (delete_article_cases (λ _, None) user id db) as H.
  unfold bulk_delete. cbn [negb].
  destruct (db !! id) as [a|] eqn:Hdb.
  - destruct (decide (author a = user)) as [Hu|Hu].
    + rewrite (bool_decide_eq_true_2 _ Hu) in H.
      replace (old_image a ≫= (λ _ : list N, @None string)) with (@None string)
        in H by by destruct (old_image a).
      rewrite H.
      destruct (owned_in_singleton user id db a Hdb Hu) as [-> ->].
      rewrite map_to_list_singleton. cbn.
      repeat split; try done.
      unfold old_image. by destruct (public_id (featuredImage a)) as [[|c pid]|].
    + rewrite (bool_decide_eq_false_2 _ Hu) in H. rewrite H.
      rewrite owned_in_singleton_none
        by (intros x Hx; rewrite Hdb in Hx; by injection Hx as <-).
      rewrite map_to_list_empty. cbn. repeat split; done.
  - rewrite H. rewrite owned_in_singleton_none by (intros x Hx; congruence).
    rewrite map_to_list_empty. cbn. repeat split; done.
Qed.

(** ** Pagination *)

Lemma or_default_nonzero d x : d ≠ 0 → or_default d x ≠ 0.
Proof.
  intros Hd. destruct x as [z|]; cbn; [|done].
  by destruct (Z.eqb_spec z 0).
Qed.

Lemma paginate_pages p l found pg :
  paginate p l found = Some pg → 1 ≤ limit pg →
  (pages pg - 1) * limit pg < Z.of_nat (length found) ≤ pages pg * limit pg.
Proof.
  intros [_ ->]%paginate_Some. cbn [pages limit]. intros Hl.
  by apply (ceil_div_spec (Z.of_nat (length found)) (or_default 10 l) _
              ltac:(lia)).
Qed.

(** With a page number and a page size of 1 or more, the page is
    answered and holds the documents [(page - 1) * limit] to
    [page * limit]. *)
Lemma paginate_nat (k n : nat) p l found :
  or_default 1 p = Z.of_nat k → or_default 10 l = Z.of_nat n → (1 ≤ k)%nat →
  ∃ pg, paginate p l found = Some pg
        ∧ articles pg = take n (drop ((k - 1) * n) found).
Proof.
  intros Hp Hl Hk. eexists. split.
  - apply paginate_Some. split; [nia|reflexivity].
  - cbn [articles]. rewrite Hp, Hl. f_equal; [lia|]. f_equal. nia.
Qed.

Lemma concat_pages (l : nat) {A} (found : list A) k :
  concat ((λ n, take l (drop ((n - 1) * l) found)) <$> seq 1 k)
  = take (k * l) found.
Proof.
  induction k as [|k IH]; [done|].
  rewrite seq_S, fmap_app, concat_app, IH. cbn [fmap list_fmap concat].
  rewrite app_nil_r. replace (1 + k - 1)%nat with k by lia.
  replace (S k * l)%nat with (k * l + l)%nat by lia.
  rewrite <- (take_drop (k * l) (take (k * l + l) found)).
  rewrite take_take, Nat.min_l by lia. f_equal.
  rewrite skipn_firstn_comm. f_equal. lia.
Qed.

(** X3. Every list route cuts what it found into pages the same way.
    The page number and the page size are the numbers of the request,
    negative ones included, with 1 and 10 in place of a missing or zero
    one. The query throws exactly when the skip, [(page - 1) * limit],
    is negative. A page that is answered holds consecutive documents of
    what was found, as many as the absolute value of the limit at most,
    and [total] is the number of documents found whatever the page; when
    the limit is 1 or more, [pages] is the least number of pages of that
    size that holds them all, and a page past the last one is empty. *)
Theorem paginate_bounds q_page q_limit found :
  or_default 1 q_page ≠ 0 ∧ or_default 10 q_limit ≠ 0
  ∧ (q_page = None ∨ q_page = Some 0 → or_default 1 q_page = 1)
  ∧ (q_limit = None ∨ q_limit = Some 0 → or_default 10 q_limit = 10)
  ∧ (∀ z, z ≠ 0 → or_default 1 (Some z) = z ∧ or_default 10 (Some z) = z)
  ∧ (paginate q_page q_limit found = None
     ↔ (or_default 1 q_page - 1) * or_default 10 q_limit < 0)
  ∧ (∀ p, paginate q_page q_limit found = Some p →
       page p = or_default 1 q_page ∧ limit p = or_default 10 q_limit
       ∧ Z.of_nat (length (articles p)) ≤ Z.abs (limit p)
       ∧ articles p `sublist_of` found
       ∧ total p = length found
       ∧ (1 ≤ limit p →
          (pages p - 1) * limit p < Z.of_nat (total p) ≤ pages p * limit p)
       ∧ (1 ≤ limit p → pages p < page p → articles p = [])).
Proof.
  split; [by apply or_default_nonzero|].
  split; [by apply or_default_nonzero|].
  split; [by intros [->| ->]|]. split; [by intros [->| ->]|].
  split. { intros z Hz. cbn. by destruct (Z.eqb_spec z 0). }
  split; [apply paginate_None|].
  intros p Hp. pose proof (paginate_pages _ _ _ _ Hp) as Hpages.
  apply paginate_Some in Hp as [Hskip ->].
  cbn [page limit articles total pages] in *.
  split; [done|]. split; [done|]. split; [rewrite length_take; lia|].
  split. { etrans; [apply sublist_take|apply sublist_drop]. }
  split; [done|]. split; [done|].
  intros Hl Hlt. specialize (Hpages Hl).
  rewrite drop_ge; [by rewrite take_nil|]. nia.
Qed.

(** X4. With a page size of 1 or more, the pages of a result, requested
    one after the other, are consecutive pieces of it: each of the pages
    1 to [pages] is answered, and put end to end they give back
    everything that was found, in order, each entry once. *)
Theorem pages_partition q_limit found :
  1 ≤ or_default 10 q_limit →
  ∃ first,
    paginate None q_limit found = Some first
    ∧ (∀ k, 1 ≤ k → is_Some (paginate (Some k) q_limit found))
    ∧ concat ((λ k : nat,
                 from_option articles []
                   (paginate (Some (Z.of_nat k)) q_limit found))
                <$> seq 1 (Z.to_nat (pages first)))
      = found.
Proof.
  intros Hl.
  destruct (paginate_first q_limit found) as (first & Hfirst & _ & _ & Hlim & _).
  exists first. split; [done|].
  pose proof (paginate_pages _ _ _ _ Hfirst) as Hp. rewrite Hlim in Hp.
  specialize (Hp Hl). split.
  - intros k Hk. eexists. apply paginate_Some. split; [|reflexivity].
    cbn. destruct (Z.eqb_spec k 0); nia.
  - set (n := Z.to_nat (or_default 10 q_limit)).
    transitivity
      (concat ((λ k, take n (drop ((k - 1) * n) found))
                 <$> seq 1 (Z.to_nat (pages first)))).
    + f_equal. apply list_fmap_ext. intros i k Hk.
      apply lookup_seq in Hk as [-> _].
      destruct (paginate_nat (1 + i) n (Some (Z.of_nat (1 + i))) q_limit found)
        as (pg & Hpg & Harts); [|lia|lia|].
      { cbn. by destruct (Z.eqb_spec (Z.of_nat (1 + i)) 0); [lia|]. }
      rewrite Hpg. exact Harts.
    + rewrite concat_pages. apply take_ge. nia.
Qed.

Lemma pages_partition_witness :
  1 ≤ or_default 10 (Some 2)
  ∧ ∃ first,
      paginate None (Some 2)
        [(1%N, sample 10 true None 0 []); (2%N, sample 10 true None 1 []);
         (3%N, sample 10 true None 2 [])] = Some first
      ∧ pages first = 2.
Proof.
  split; [vm_compute; discriminate|].
  destruct (pages_partition (Some 2)
              [(1%N, sample 10 true None 0 []); (2%N, sample 10 true None 1 []);
               (3%N, sample 10 true None 2 [])])
    as (first & Hfirst & _); [vm_compute; discriminate|].
  exists first. split; [exact Hfirst|].
  vm_compute in Hfirst. by injection Hfirst as <-.
Defined.

Lemma elem_of_concat {A} (x : A) (ls : list (list A)) :
  x ∈ concat ls → ∃ l, x ∈ l ∧ l ∈ ls.
Proof.
  induction ls as [|l ls IH]; cbn; [by intros ?%elem_of_nil|].
  rewrite elem_of_app. intros [Hx|Hx].
  - exists l. split; [done|apply list_elem_of_here].
  - destruct (IH Hx) as (l' & Hl & Hin). exists l'.
    split; [done|by apply list_elem_of_further].
Qed.

Lemma found_on_some_page q_limit (found : list (ObjectId * Article))
    (x : ObjectId * Article) :
  1 ≤ or_default 10 q_limit → x ∈ found →
  ∃ k pg, 1 ≤ k ∧ paginate (Some k) q_limit found = Some pg ∧ x ∈ articles pg.
Proof.
  intros Hl Hin. set (n := Z.to_nat (or_default 10 q_limit)).
  rewrite <- (take_ge found (length found * n)) in Hin by nia.
  rewrite <- concat_pages in Hin.
  apply elem_of_concat in Hin as (pg & Hx & Hpg).
  apply list_elem_of_fmap in Hpg as (k & -> & Hk).
  apply elem_of_seq in Hk.
  destruct (paginate_nat k n (Some (Z.of_nat k)) q_limit found)
    as (pg & Hpg & Harts); [|lia|lia|].
  { cbn. by destruct (Z.eqb_spec (Z.of_nat k) 0); [lia|]. }
  exists (Z.of_nat k), pg. split; [lia|]. split; [done|]. by rewrite Harts.
Qed.

(** ** The lists of a user *)

Section Listing.
Context (P : ObjectId * Article → Prop) `{!∀ x, Decision (P x)}.
Context (spec : list SortPath).

Lemma listed_found p l (db : gmap N Article) pg i a :
  paginate p l (sort_desc spec (filter P (map_to_list db))) = Some pg →
  (i, a) ∈ articles pg → db !! i = Some a ∧ P (i, a).
Proof.
  intros Hpg Hin. apply (paginate_subseteq _ _ _ _ Hpg), sort_desc_elem in Hin.
  apply list_elem_of_filter in Hin as [HP Hin].
  by apply elem_of_map_to_list in Hin.
Qed.

Lemma found_listed l (db : gmap N Article) i a :
  1 ≤ or_default 10 l → db !! i = Some a → P (i, a) →
  ∃ k pg, 1 ≤ k
          ∧ paginate (Some k) l (sort_desc spec (filter P (map_to_list db)))
            = Some pg
          ∧ (i, a) ∈ articles pg.
Proof.
  intros Hl Hdb HP. apply found_on_some_page; [done|].
  apply sort_desc_elem, list_elem_of_filter. split; [done|].
  by apply elem_of_map_to_list.
Qed.
End Listing.

Lemma before_createdAt x y :
  before [ByCreatedAt] x y → createdAt y.2 ≤ createdAt x.2.
Proof.
  unfold before. cbn. intros H. apply Is_true_true in H.
  destruct (createdAt x.2 <=? createdAt y.2) eqn:H1,
    (createdAt y.2 <=? createdAt x.2) eqn:H2; cbn in H; lia.
Qed.

(** X5. [GET /user/my-articles] lists the requester's own articles,
    drafts included, and nothing else. The route answers 200 when the
    skip is not negative (so for a page number and a page size of 1 or
    more) and 500 when it is. Every entry of a page is a stored article
    of the requester, a page is ordered by creation date, newest first,
    and [total] is the [totalArticles] of the requester's statistics;
    with a page size of 1 or more, every stored article of the
    requester, published or not, is on one of the pages. *)
Theorem my_articles_lists_own user p l (db : gmap N Article) :
  (if (or_default 1 p - 1) * or_default 10 l <? 0
   then my_articles user p l db = Err 500 "Server error"
   else status_of (my_articles user p l db) = 200%nat)
  ∧ (∀ pg, my_articles user p l db = Ok 200 pg →
       (∀ i a, (i, a) ∈ articles pg → db !! i = Some a ∧ author a = user)
       ∧ StronglySorted (λ x y, createdAt y.2 ≤ createdAt x.2) (articles pg)
       ∧ total pg = totalArticles (stats_overview user db))
  ∧ (1 ≤ or_default 10 l →
     ∀ i a, db !! i = Some a → author a = user →
       ∃ k pg', 1 ≤ k
                ∧ my_articles user (Some k) l db = Ok 200 pg'
                ∧ (i, a) ∈ articles pg').
Proof.
  unfold my_articles. set (found := sort_desc _ _). split; [|split].
  - destruct (Z.ltb_spec ((or_default 1 p - 1) * or_default 10 l) 0) as [Hlt|Hge].
    + by apply paginate_None with (found := found) in Hlt as ->.
    + destruct (paginate p l found) as [pg|] eqn:Hpg; [done|].
      apply paginate_None in Hpg. lia.
  - intros pg Hpg%page_response_Ok. split; [|split].
    + intros i a.
      by apply (listed_found (λ ia, author ia.2 = user) [ByCreatedAt] p l db pg).
    + eapply StronglySorted_weaken; [apply before_createdAt|].
      apply (paginate_sorted _ _ _ _ _ Hpg), sort_desc_sorted.
    + apply paginate_Some in Hpg as [_ ->].
      unfold found, stats_overview, countDocuments, sort_desc.
      cbn [total totalArticles]. by rewrite merge_sort_Permutation.
  - intros Hl i a Hdb Hu.
    destruct (found_listed (λ ia, author ia.2 = user) [ByCreatedAt] l db i a
                Hl Hdb Hu) as (k & pg' & Hk & Hpg & Hin).
    exists k, pg'. split; [done|]. split; [|done]. fold found in Hpg.
    by rewrite Hpg.
Qed.

Lemma save_inv isNew m now id x (db : gmap N Article) doc db' :
  save isNew m now id x db = Some (doc, db') →
  validate x = true
  ∧ doc = timestamps isNew m now (pre_save m now x)
  ∧ db' = <[id := doc]> db.
Proof.
  unfold save. destruct (validate x); [|done]. by intros [= <- <-].
Qed.

(** What a save never changes. *)
Lemma save_frame isNew m now id x (db : gmap N Article) doc db' :
  save isNew m now id x db = Some (doc, db') →
  title doc = title x ∧ content doc = content x ∧ author doc = author x
  ∧ tags doc = tags x ∧ category doc = category x
  ∧ featuredImage doc = featuredImage x ∧ likes doc = likes x
  ∧ comments doc = comments x ∧ published doc = published x
  ∧ views doc = views x ∧ bookmarks doc = bookmarks x.
Proof.
  intros (_ & -> & _)%save_inv.
  pose proof (timestamps_frame isNew m now (pre_save m now x)) as Ht.
  pose proof (pre_save_frame m now x) as Hp. cbn zeta in Ht, Hp.
  destruct Ht as (-> & -> & _ & -> & -> & -> & -> & _ & -> & -> & -> & _ & -> & ->).
  by destruct Hp as (-> & -> & -> & -> & -> & -> & -> & -> & -> & -> & -> & _).
Qed.

(** X6. The bookmark toggle and [GET /user/bookmarks] fit together:
    after a toggle that answers [isBookmarked: true] on a published
    article, the article is on one of the pages of the user's bookmark
    list, whatever the page size of 1 or more; after a toggle that
    answers [false] it is on none. A bookmarked draft is never listed,
    its author asking or not. *)
Theorem bookmark_then_bookmarks_list user id now (db : gmap N Article) b db' :
  bookmark_article user id now db = (Ok 200 b, db') →
  ∃ a',
    db' !! id = Some a'
    ∧ (user ∈ bookmarks a' ↔ b = true)
    ∧ (b = true → published a' = true →
       ∀ l, 1 ≤ or_default 10 l →
         ∃ k pg, 1 ≤ k
                 ∧ bookmarked_articles user (Some k) l db' = Ok 200 pg
                 ∧ (id, a') ∈ articles pg)
    ∧ (b = false ∨ published a' = false →
       ∀ p l pg x, bookmarked_articles user p l db' = Ok 200 pg →
                   (id, x) ∉ articles pg).
Proof.
  unfold bookmark_article. destruct (db !! id) as [a|] eqn:Hdb; [|done].
  destruct (save _ _ _ _ _ _) as [[doc db1]|] eqn:Hs; [|done].
  intros [= <- <-]. exists doc.
  pose proof (save_frame _ _ _ _ _ _ _ _ Hs)
    as (_ & _ & _ & _ & _ & _ & _ & _ & Hpub & _ & Hbm).
  apply save_inv in Hs as (_ & _ & ->).
  assert (user ∈ bookmarks doc ↔ negb (bool_decide (user ∈ bookmarks a)) = true)
    as Hmem.
  { rewrite Hbm. case_bool_decide as Hin; cbn.
    - split; [|done]. intros [Hne _]%list_elem_of_filter. done.
    - split; [done|]. intros _. apply elem_of_app. right.
      apply list_elem_of_here. }
  split; [by rewrite lookup_insert_eq|]. split; [done|]. split.
  - intros Hb Hp l Hl.
    destruct (found_listed
                (λ ia, user ∈ bookmarks ia.2 ∧ published ia.2 = true)
                [ByCreatedAt] l (<[id := doc]> db) id doc)
      as (k & pg & Hk & Hpg & Hin).
    + done.
    + by rewrite lookup_insert_eq.
    + split; [by apply Hmem|done].
    + exists k, pg. split; [done|]. split; [|done].
      unfold bookmarked_articles. by rewrite Hpg.
  - intros Hno p l pg x Hpg%page_response_Ok Hin.
    apply (listed_found
             (λ ia, user ∈ bookmarks ia.2 ∧ published ia.2 = true)
             [ByCreatedAt] p l _ pg _ _ Hpg)
      in Hin as [Hx [Hbx Hpx]].
    rewrite lookup_insert_eq in Hx. injection Hx as <-. cbn in Hbx, Hpx.
    destruct Hno as [Hf|Hf]; [|congruence].
    apply Hmem in Hbx. congruence.
Qed.

Lemma bookmark_then_bookmarks_list_witness :
  let a := sample 10 true (Some 1000) 3 [] in
  let db : gmap N Article := {[ 1%N := a ]} in
  ∃ db' a',
    bookmark_article 7 1 2000 db = (Ok 200 true, db')
    ∧ db' !! 1%N = Some a'
    ∧ ∃ k pg, bookmarked_articles 7 (Some k) None db' = Ok 200 pg
              ∧ (1%N, a') ∈ articles pg.
Proof.
  cbn zeta.
  destruct (bookmark_then_bookmarks_list 7 1 2000
              {[ 1%N := sample 10 true (Some 1000) 3 [] ]} true
              (bookmark_article 7 1 2000
                 {[ 1%N := sample 10 true (Some 1000) 3 [] ]}).2)
    as (a' & Hdb & Hmem & Hlist & _); [vm_compute; reflexivity|].
  eexists _, a'. split; [vm_compute; reflexivity|]. split; [exact Hdb|].
  destruct (Hlist eq_refl) with (l := @None Z) as (k & pg & _ & Hpg & Hin).
  - vm_compute in Hdb. by injection Hdb as <-.
  - vm_compute. discriminate.
  - by exists k, pg.
Defined.

(** X7. [GET /user/:userId] is the public feed restricted to that
    author: for a user id the ODM casts to [userId], the feed
    requested with [author] set to it (and no other filter) and the
    profile route select the same articles, in the same order, cut
    into the same pages with the same totals. *)
Theorem user_articles_is_author_feed toLowerCase regex_i castObjectId requester
    s userId p l (db : gmap N Article) :
  nonempty (trim s) = true → castObjectId (trim s) = Some userId →
  list_articles toLowerCase regex_i castObjectId requester
    (mkListQuery p l None None None (Some s)) db
  = user_articles requester userId p l db.
Proof.
  intros Hs Hc. unfold list_articles, user_articles, feed_query. cbn.
  assert (nonempty s = true) as ->.
  { destruct s; [done|done]. }
  rewrite Hs. cbn. rewrite Hc. cbn. do 3 f_equal.
  apply list_filter_iff. intros [i a]. cbn.
  rewrite !andb_true_r. rewrite Is_true_true, andb_true_iff, bool_decide_eq_true.
  tauto.
Qed.

Lemma user_articles_is_author_feed_witness :
  let db : gmap N Article :=
    <[1%N := sample 10 true (Some 1000) 0 []]>
      (<[2%N := sample 11 true (Some 900) 0 []]>
         (<[3%N := sample 10 false None 0 []]> ∅)) in
  nonempty (trim (js " u10 ")) = true
  ∧ list_articles (λ t, t) (λ _, None) (λ _, Some 10%N) None
      (mkListQuery None None None None None (Some (js " u10 "))) db
    = user_articles None 10 None None db
  ∧ articles <$> body_of (user_articles None 10 None None db)
    = Some [(1%N, sample 10 true (Some 1000) 0 [])].
Proof.
  cbn zeta. split; [vm_compute; reflexivity|]. split.
  - apply (user_articles_is_author_feed (λ t, t) (λ _, None) (λ _, Some 10%N) None
             (js " u10 ") 10 None None); vm_compute; reflexivity.
  - vm_compute; reflexivity.
Defined.

(** ** Statistics *)

Lemma stats_overview_own user (db : gmap N Article) :
  stats_overview user db = stats_of (own user db).
Proof.
  unfold stats_overview, stats_of, countDocuments, aggregate_sum, own, sum_of.
  f_equal.
  - rewrite list_filter_filter. f_equal. apply list_filter_iff.
    intros [i a]. cbn. tauto.
  - rewrite list_filter_filter. f_equal. apply list_filter_iff.
    intros [i a]. cbn. tauto.
  - by destruct (filter _ _).
  - by destruct (filter _ _).
  - by destruct (filter _ _).
  - by destruct (filter _ _).
Qed.

Lemma sum_of_cons f x l : sum_of f (x :: l) = f x.2 + sum_of f l.
Proof. done. Qed.

Lemma sum_of_Permutation f l l' : l ≡ₚ l' → sum_of f l = sum_of f l'.
Proof.
  induction 1 as [|x l l' _ IH|x y l|l l' l'' _ IH1 _ IH2].
  - done.
  - rewrite !sum_of_cons. lia.
  - rewrite !sum_of_cons. lia.
  - congruence.
Qed.

Lemma stats_of_Permutation l l' : l ≡ₚ l' → stats_of l = stats_of l'.
Proof.
  intros H. unfold stats_of.
  rewrite (sum_of_Permutation views l l' H),
    (sum_of_Permutation (λ a, Z.of_nat (length (likes a))) l l' H),
    (sum_of_Permutation (λ a, Z.of_nat (length (comments a))) l l' H),
    (sum_of_Permutation (λ a, Z.of_nat (length (bookmarks a))) l l' H).
  by rewrite H.
Qed.

(** The articles of a user before and after one document is replaced,
    up to the order of the store. *)
Lemma own_lookup user (db : gmap N Article) i a :
  db !! i = Some a →
  own user db
  ≡ₚ (if decide (author a = user) then [(i, a)] else [])
     ++ own user (delete i db).
Proof.
  intros Hdb. unfold own. rewrite <- (map_to_list_delete db i a Hdb).
  rewrite filter_cons. cbn. by destruct (decide (author a = user)).
Qed.

Lemma own_insert user (db : gmap N Article) i a' :
  own user (<[i := a']> db)
  ≡ₚ (if decide (author a' = user) then [(i, a')] else [])
     ++ own user (delete i db).
Proof.
  rewrite <- (insert_delete_eq db). rewrite (own_lookup user _ i a').
  - by rewrite delete_insert_eq, delete_delete_eq.
  - by rewrite lookup_insert_eq.
Qed.

Lemma own_delete user (db : gmap N Article) i a :
  db !! i = Some a → author a ≠ user → own user (delete i db) ≡ₚ own user db.
Proof.
  intros Hdb Hu. rewrite (own_lookup user db i a Hdb).
  by destruct (decide (author a = user)).
Qed.

(** Replacing a document of another author does not move the
    statistics of [user]. *)
Lemma stats_overview_other user (db : gmap N Article) i a a' :
  db !! i = Some a → author a ≠ user → author a' ≠ user →
  stats_overview user (<[i := a']> db) = stats_overview user db.
Proof.
  intros Hdb Hu Hu'. rewrite !stats_overview_own. apply stats_of_Permutation.
  rewrite own_insert, (own_lookup user db i a Hdb).
  by destruct (decide (author a = user)), (decide (author a' = user)).
Qed.



(** The statistics of [user] after a stored document is replaced by
    one of the same author and the same publication state. *)
Lemma stats_replace user (db : gmap N Article) i a a' :
  db !! i = Some a → author a' = author a → published a' = published a →
  let s := stats_overview user db in
  let s' := stats_overview user (<[i := a']> db) in
  let d := λ (f : Article → Z), if decide (author a = user) then f a' - f a else 0 in
  totalArticles s' = totalArticles s
  ∧ publishedArticles s' = publishedArticles s
  ∧ draftArticles s' = draftArticles s
  ∧ totalViews s' = totalViews s + d views
  ∧ totalLikes s' = totalLikes s + d (λ a, Z.of_nat (length (likes a)))
  ∧ totalComments s' = totalComments s + d (λ a, Z.of_nat (length (comments a)))
  ∧ totalBookmarks s' = totalBookmarks s + d (λ a, Z.of_nat (length (bookmarks a))).
Proof.
  intros Hdb Hau Hpub. cbn zeta. rewrite !stats_overview_own.
  rewrite (stats_of_Permutation _ _ (own_insert user db i a')),
    (stats_of_Permutation _ _ (own_lookup user db i a Hdb)).
  rewrite Hau. destruct (decide (author a = user)) as [Hu|Hu].
  - unfold stats_of. cbn [app]. rewrite !filter_cons, !sum_of_cons.
    cbn [snd totalArticles publishedArticles draftArticles totalViews
           totalLikes totalComments totalBookmarks length].
    rewrite Hpub. repeat split; try lia.
    + by destruct (decide (published a = true)).
    + by destruct (decide (published a = false)).
  - cbn [app]. repeat split; lia.
Qed.

(** X9. A detail request that is answered (the article is published,
    or the requester is its author) counts as one view: the stored
    counter grows by exactly one, the response shows the value that is
    stored, nothing else of the article moves but [updatedAt], and the
    author's [totalViews] grows by one while every other figure of
    the author's statistics, and the statistics of every other user,
    stay the same. *)
Theorem detail_counts_one_view requester id now (db : gmap N Article) a :
  db !! id = Some a → visible requester a = true →
  let a' := set_updatedAt now (set_views (views a + 1) a) in
  let s := stats_overview (author a) db in
  let s' := stats_overview (author a) (<[id := a']> db) in
  get_article requester id now db
  = (Ok 200 (set_views (views a + 1) a), <[id := a']> db)
  ∧ views a' = views a + 1
  ∧ totalViews s' = totalViews s + 1
  ∧ totalArticles s' = totalArticles s
  ∧ publishedArticles s' = publishedArticles s
  ∧ totalLikes s' = totalLikes s
  ∧ totalComments s' = totalComments s
  ∧ totalBookmarks s' = totalBookmarks s
  ∧ (∀ u, u ≠ author a →
       stats_overview u (<[id := a']> db) = stats_overview u db).
Proof.
  intros Hdb Hvis. cbn zeta.
  pose proof (get_article_spec requester id now db) as Hget.
  rewrite Hdb, Hvis in Hget. rewrite Hget, (alter_alt_Some _ _ _ _ Hdb).
  split; [done|]. split; [done|].
  pose proof (stats_replace (author a) db id a
                (set_updatedAt now (set_views (views a + 1) a)) Hdb
                eq_refl eq_refl) as Hs.
  cbv beta zeta in Hs. rewrite !decide_True in Hs by done.
  destruct Hs as (H1 & H2 & H3 & H4 & H5 & H6 & H7). cbn [set_updatedAt set_views views likes comments bookmarks] in H4, H5, H6, H7.
  split_and!; try lia.
  intros u Hu. by apply (stats_overview_other u db id a).
Qed.

Lemma detail_counts_one_view_witness :
  let a := sample 10 true (Some 1000) 41 [] in
  let db : gmap N Article :=
    <[1%N := a]> (<[2%N := sample 10 false None 7 []]> ∅) in
  totalViews (stats_overview 10 db) = 48
  ∧ totalViews (stats_overview 10 (get_article None 1 2000 db).2) = 49.
Proof.
  intros a db.
  destruct (detail_counts_one_view None 1 2000 db a)
    as (Hget & _ & Hv & _); [vm_compute; reflexivity..|].
  split; [vm_compute; reflexivity|].
  rewrite Hget. cbn [snd]. etrans; [exact Hv|]. vm_compute. reflexivity.
Defined.

(** X10. On an article that validates and holds one entry per user at
    most, the like and bookmark toggles move the author's statistics by
    exactly one entry: [totalLikes] (or [totalBookmarks]) grows by one
    when the toggle adds the user's entry and drops by one when it
    removes it, the other figures of the author stay as they were,
    and nobody else's statistics change. *)
Theorem toggles_move_statistics user id new_id now (db : gmap N Article) a :
  db !! id = Some a → validate a = true →
  NoDup (like_user <$> likes a) → NoDup (bookmarks a) →
  let s := stats_overview (author a) db in
  let sl := stats_overview (author a) (like_article user id new_id now db).2 in
  let sb := stats_overview (author a) (bookmark_article user id now db).2 in
  totalLikes sl = totalLikes s + (if user_likes user a then -1 else 1)
  ∧ totalBookmarks sl = totalBookmarks s
  ∧ totalViews sl = totalViews s ∧ totalComments sl = totalComments s
  ∧ totalArticles sl = totalArticles s
  ∧ totalBookmarks sb = totalBookmarks s
                        + (if user_bookmarked user a then -1 else 1)
  ∧ totalLikes sb = totalLikes s
  ∧ totalViews sb = totalViews s ∧ totalComments sb = totalComments s
  ∧ totalArticles sb = totalArticles s
  ∧ (∀ u, u ≠ author a →
       stats_overview u (like_article user id new_id now db).2
       = stats_overview u db
       ∧ stats_overview u (bookmark_article user id now db).2
         = stats_overview u db).
Proof.
  intros Hdb Hok Hnl Hnb. cbn zeta.
  rewrite (like_article_run user id new_id now db a Hdb Hok),
    (bookmark_article_run user id now db a Hdb Hok). cbn zeta. cbn [snd].
  set (l' := if user_likes user a then _ else _).
  set (b' := if user_bookmarked user a then _ else _).
  pose proof (stats_replace (author a) db id a
                (set_updatedAt now (set_likes l' a)) Hdb eq_refl eq_refl) as Hl.
  pose proof (stats_replace (author a) db id a
                (set_updatedAt now (set_bookmarks b' a)) Hdb eq_refl eq_refl)
    as Hb.
  cbv beta zeta in Hl, Hb. rewrite !decide_True in Hl, Hb by done.
  destruct Hl as (L1 & L2 & L3 & L4 & L5 & L6 & L7).
  destruct Hb as (B1 & B2 & B3 & B4 & B5 & B6 & B7).
  cbn [set_updatedAt set_likes set_bookmarks views likes comments bookmarks]
    in L4, L5, L6, L7, B4, B5, B6, B7.
  assert (Z.of_nat (length l') - Z.of_nat (length (likes a))
          = if user_likes user a then -1 else 1) as Hdl.
  { subst l'. unfold user_likes. case_bool_decide as Hin.
    - pose proof (filter_other_length like_user user (likes a) Hnl Hin). lia.
    - rewrite length_app. cbn. lia. }
  assert (Z.of_nat (length b') - Z.of_nat (length (bookmarks a))
          = if user_bookmarked user a then -1 else 1) as Hdb'.
  { subst b'. unfold user_bookmarked. case_bool_decide as Hin.
    - pose proof (filter_other_length (λ x, x) user (bookmarks a)) as Hf.
      rewrite list_fmap_id in Hf. specialize (Hf Hnb Hin). lia.
    - rewrite length_app. cbn. lia. }
  split_and!; try lia.
  intros u Hu. split; by apply (stats_overview_other u db id a).
Qed.

Lemma toggles_move_statistics_witness :
  let a := sample 10 true (Some 1000) 3 [mkLike 1 7 900; mkLike 2 8 950] in
  let db : gmap N Article := {[ 1%N := a ]} in
  totalLikes (stats_overview 10 db) = 2
  ∧ totalLikes (stats_overview 10 (like_article 7 1 3 2000 db).2) = 1
  ∧ totalLikes (stats_overview 10 (like_article 9 1 3 2000 db).2) = 3.
Proof.
  cbn zeta. split; [vm_compute; reflexivity|]. split.
  - destruct (toggles_move_statistics 7 1 3 2000
                {[ 1%N := sample 10 true (Some 1000) 3
                            [mkLike 1 7 900; mkLike 2 8 950] ]}
                (sample 10 true (Some 1000) 3 [mkLike 1 7 900; mkLike 2 8 950]))
      as (H & _).
    + vm_compute; reflexivity.
    + vm_compute; reflexivity.
    + refine (bool_decide_unpack _ _). vm_compute. exact I.
    + apply NoDup_nil_2.
    + etrans; [exact H|]. vm_compute. reflexivity.
  - vm_compute. reflexivity.
Defined.

(** ** Comments *)

Lemma save_only_comments now id a (db : gmap N Article) :
  validate a = true →
  save false (only P_comments) now id a db
  = Some (set_updatedAt now a, <[id := set_updatedAt now a]> db).
Proof.
  intros H. rewrite save_Some by done.
  by rewrite pre_save_unmodified.
Qed.

Lemma validate_push a c :
  validate a = true → comment_ok c = true →
  validate (set_comments (comments a ++ [c]) a) = true.
Proof.
  intros Hv Hc. apply validate_set_comments; [done|].
  rewrite forallb_app, (validate_comments a Hv). cbn. by rewrite Hc.
Qed.

Lemma add_comment_run user id new_id now text (db : gmap N Article) a :
  db !! id = Some a → validate a = true →
  nonempty text && (length text <=? 1000)%nat = true →
  add_comment true user id new_id now text db
  = (Ok 201 (mkComment new_id user text now),
     <[id := set_updatedAt now
               (set_comments (comments a ++ [mkComment new_id user text now])
                  a)]> db).
Proof.
  intros Hdb Hok Htext. unfold add_comment. cbn [negb]. rewrite Hdb.
  rewrite save_only_comments.
  - cbn [comments set_updatedAt set_comments]. by rewrite last_snoc.
  - by apply validate_push.
Qed.

(** X11. [POST /:id/comments] appends: on an article that validates, a
    comment of 1 to 1000 characters is stored after the comments the
    article had, with the requester as its user, and is the comment the
    response returns; the author's [totalComments] grows by one. When
    the id the comment gets is new among the article's comments, its
    deletion by the same user gives back the comments the article had
    before. A request the body validation refuses changes nothing, and
    neither does one on an article that does not validate, which is
    answered 500. *)
Theorem add_comment_appends user id new_id now text (db : gmap N Article) a :
  db !! id = Some a → validate a = true →
  nonempty text && (length text <=? 1000)%nat = true →
  let c := mkComment new_id user text now in
  let a' := set_updatedAt now (set_comments (comments a ++ [c]) a) in
  add_comment true user id new_id now text db = (Ok 201 c, <[id := a']> db)
  ∧ totalComments (stats_overview (author a) (<[id := a']> db))
    = totalComments (stats_overview (author a) db) + 1
  ∧ (new_id ∉ comment_id <$> comments a →
     ∀ now2,
       delete_comment user id new_id now2 (<[id := a']> db)
       = (Ok 200 (), <[id := set_updatedAt now2 a]> db))
  ∧ add_comment false user id new_id now text db
    = (Err 400 "Validation failed", db)
  ∧ (∀ id2 x user2 new_id2 now2 text2,
       db !! id2 = Some x →
       validate (set_comments
                   (comments x ++ [mkComment new_id2 user2 text2 now2]) x)
       = false →
       add_comment true user2 id2 new_id2 now2 text2 db
       = (Err 500 "Server error", db)).
Proof.
  intros Hdb Hok Htext. cbn zeta.
  set (c := mkComment new_id user text now).
  set (a' := set_updatedAt now (set_comments (comments a ++ [c]) a)).
  split_and!.
  - by apply add_comment_run.
  - pose proof (stats_replace (author a) db id a a' Hdb eq_refl eq_refl) as Hs.
    cbv beta zeta in Hs. rewrite !decide_True in Hs by done.
    destruct Hs as (_ & _ & _ & _ & _ & H6 & _).
    cbn [a' set_updatedAt set_comments comments] in H6.
    rewrite length_app in H6. cbn [length] in H6. lia.
  - intros Hnew now2.
    assert (comment_by_id new_id a' = Some c) as Hc.
    { unfold comment_by_id. cbn [a' comments set_updatedAt set_comments].
      assert (list_find (λ c0, comment_id c0 = new_id) (comments a) = None)
        as Hnone.
      { apply list_find_None, Forall_forall. intros x Hx Heq. apply Hnew.
        apply list_elem_of_fmap. by exists x. }
      rewrite list_find_app_r by done. cbn. by rewrite decide_True. }
    rewrite (delete_comment_run user id new_id now2 (<[id := a']> db) a' c)
      by (done || by rewrite lookup_insert_eq).
    cbv zeta.
    rewrite !bool_decide_eq_false_2 by (cbn; naive_solver). cbn [andb].
    cbn [a' comments set_updatedAt set_comments].
    rewrite (filter_other_push comment_id new_id (comments a) c) by done.
    assert (set_comments (comments a) a' = set_updatedAt now a) as ->
      by (by destruct a).
    rewrite (validate_ext a (set_updatedAt now a)) by done. rewrite Hok.
    by rewrite insert_insert_eq.
  - done.
  - intros id2 x user2 new_id2 now2 text2 Hx Hbad. unfold add_comment.
    cbn [negb]. rewrite Hx. by rewrite save_None.
Qed.

Lemma add_comment_appends_witness :
  let a := sample 10 true (Some 1000) 0 [] in
  let db : gmap N Article := <[1%N := a]> ∅ in
  let c := mkComment 5 7 (js "nice") 2000 in
  add_comment true 7 1 5 2000 (js "nice") db
  = (Ok 201 c, <[1%N := set_updatedAt 2000 (set_comments [c] a)]> db)
  ∧ delete_comment 7 1 5 3000
      (<[1%N := set_updatedAt 2000 (set_comments [c] a)]> db)
    = (Ok 200 (), <[1%N := set_updatedAt 3000 a]> db).
Proof.
  intros a db c.
  destruct (add_comment_appends 7 1 5 2000 (js "nice") db a)
    as (Hadd & _ & Hdel & _); [vm_compute; reflexivity..|].
  split; [exact Hadd|]. apply Hdel. cbn. apply not_elem_of_nil.
Defined.

Lemma edit_first_fmap {B} (f : Comment → B) cid v cs :
  (∀ c, f (mkComment (comment_id c) (comment_user c) v (comment_createdAt c))
        = f c) →
  f <$> edit_first cid v cs = f <$> cs.
Proof.
  intros Hf. induction cs as [|c cs IH]; [done|]. cbn.
  case_bool_decide; cbn; [by rewrite Hf|by rewrite IH].
Qed.

Lemma edit_first_other cid v cs i x :
  cs !! i = Some x → comment_id x ≠ cid → edit_first cid v cs !! i = Some x.
Proof.
  revert i. induction cs as [|c cs IH]; intros i Hi Hx; [done|]. cbn.
  destruct i as [|i]; cbn in Hi.
  - injection Hi as ->. by rewrite bool_decide_eq_false_2.
  - case_bool_decide; cbn; [done|by apply IH].
Qed.

Lemma edit_first_same cid v cs i c :
  list_find (λ c, comment_id c = cid) cs = Some (i, c) →
  edit_first cid v cs = cs ↔ comment_content c = v.
Proof.
  revert i. induction cs as [|x cs IH]; intros i Hf; [done|].
  cbn in Hf |- *. destruct (decide (comment_id x = cid)) as [Hx|Hx].
  - injection Hf as _ ->. rewrite bool_decide_eq_true_2 by done.
    split.
    + intros [= H]. by rewrite <- H at 1.
    + intros <-. by destruct c.
  - rewrite bool_decide_eq_false_2 by done.
    destruct (list_find _ cs) as [[j y]|] eqn:Hcs; [|done].
    injection Hf as _ ->. rewrite <- (IH j eq_refl). split; [|congruence].
    by intros [= ->].
Qed.

Lemma bool_decide_ne_refl {A} `{EqDecision A} (x : A) :
  bool_decide (x ≠ x) = false.
Proof. apply bool_decide_eq_false_2. by intros H. Qed.

Lemma save_comment_edit now id a cs (db : gmap N Article) :
  validate (set_comments cs a) = true →
  save false (changed a (set_comments cs a)) now id (set_comments cs a) db
  = let doc := if bool_decide (comments a ≠ cs)
               then set_updatedAt now (set_comments cs a)
               else set_comments cs a in
    Some (doc, <[id := doc]> db).
Proof.
  intros Hv. rewrite save_Some by done.
  rewrite pre_save_unmodified
    by (cbn; apply bool_decide_eq_false_2; by intros H).
  unfold timestamps. cbn zeta.
  replace (existsb _ all_paths) with (bool_decide (comments a ≠ cs)); [done|].
  cbn. rewrite !bool_decide_ne_refl. cbn. by rewrite orb_false_r.
Qed.

(** X12. On an article that validates, an edit of a comment by its
    author, to a text of 1 to 1000 characters, changes the text of that
    one comment and nothing else: the other comments stay where they
    are, the ids, users and dates of all comments are kept, and so is
    every other path of the article. [updatedAt] moves exactly when the
    new text differs from the stored one; an edit that repeats the
    stored text leaves the document as it was. *)
Theorem update_comment_edits_one user id cid now v (db : gmap N Article) a c :
  db !! id = Some a → validate a = true → comment_by_id cid a = Some c →
  comment_user c = user → nonempty v && (length v <=? 1000)%nat = true →
  ∃ a',
    update_comment true user id cid now v db
    = (Ok 200 (mkComment cid user v (comment_createdAt c)), <[id := a']> db)
    ∧ comment_by_id cid a'
      = Some (mkComment cid user v (comment_createdAt c))
    ∧ (∀ i x, comments a !! i = Some x → comment_id x ≠ cid →
         comments a' !! i = Some x)
    ∧ comment_id <$> comments a' = comment_id <$> comments a
    ∧ comment_user <$> comments a' = comment_user <$> comments a
    ∧ comment_createdAt <$> comments a' = comment_createdAt <$> comments a
    ∧ same_content (set_comments (comments a') a) a'
    ∧ likes a' = likes a ∧ bookmarks a' = bookmarks a
    ∧ updatedAt a' = (if decide (comment_content c = v)
                      then updatedAt a else now)
    ∧ (comment_content c = v → a' = a).
Proof.
  intros Hdb Hok Hc Hu Hv.
  pose proof (comment_by_id_Some cid a c Hc) as [_ Hcid].
  unfold comment_by_id in Hc.
  destruct (list_find _ (comments a)) as [[i x]|] eqn:Hf; [|done].
  injection Hc as ->.
  pose proof (edit_first_same cid v (comments a) i c Hf) as Hsame.
  unfold update_comment. cbn [negb]. rewrite Hdb. unfold comment_by_id at 1.
  rewrite Hf. cbn [fmap option_fmap option_map snd].
  rewrite (bool_decide_eq_false_2 (comment_user c ≠ user)) by (by intros H).
  rewrite save_comment_edit by (by apply validate_edit). cbn zeta.
  set (x := set_comments (edit_first cid v (comments a)) a).
  set (a' := if bool_decide _ then set_updatedAt now x else x).
  assert (comments a' = edit_first cid v (comments a)) as Hcs.
  { subst a'. by destruct (bool_decide _). }
  exists a'.
  assert (comment_by_id cid a'
          = Some (mkComment cid user v (comment_createdAt c))) as Hnew.
  { unfold comment_by_id. rewrite Hcs.
    rewrite (edit_first_find cid v (comments a) i c Hf). cbn.
    by rewrite Hcid, Hu. }
  rewrite Hnew. split_and!; try done.
  - intros j y Hj Hy. rewrite Hcs. by apply edit_first_other.
  - rewrite Hcs. by apply edit_first_fmap.
  - rewrite Hcs. by apply edit_first_fmap.
  - rewrite Hcs. by apply edit_first_fmap.
  - subst a' x. by destruct (bool_decide _).
  - subst a' x. by destruct (bool_decide _).
  - subst a' x. by destruct (bool_decide _).
  - subst a' x. destruct (decide (comment_content c = v)) as [Hcv|Hcv].
    + rewrite bool_decide_eq_false_2; [done|].
      intros Hne. apply Hne. symmetry. by apply Hsame.
    + rewrite bool_decide_eq_true_2; [done|].
      intros Heq. apply Hcv, Hsame. done.
  - intros Hcv. subst a' x. apply Hsame in Hcv. rewrite Hcv.
    rewrite bool_decide_eq_false_2 by (by intros H). by destruct a.
Qed.

Lemma update_comment_edits_one_witness :
  let x := mkComment 5 7 (js "nice") 900 in
  let y := mkComment 6 8 (js "first") 950 in
  let a := mkArticle (js "Title") (js "Some content") None 10 [] (js "Other")
             (mkImage None None) 1 [] [y; x] true (Some 800) 0 [] 0 0 in
  let db : gmap N Article := <[1%N := a]> ∅ in
  ∃ a',
    update_comment true 7 1 5 2000 (js "nicer") db
    = (Ok 200 (mkComment 5 7 (js "nicer") 900), <[1%N := a']> db)
    ∧ comments a' !! 0%nat = Some y
    ∧ updatedAt a' = 2000.
Proof.
  intros x y a db.
  destruct (update_comment_edits_one 7 1 5 2000 (js "nicer") db a x)
    as (a' & Hup & _ & Hother & _ & _ & _ & _ & _ & _ & Hupd & _);
    [vm_compute; reflexivity..|].
  exists a'. split; [exact Hup|]. split; [by apply Hother|].
  rewrite Hupd. reflexivity.
Defined.

(** ** Featured image *)

(** The save of the image route: the hook sees neither [content] nor
    [published] modified, and [updatedAt] moves when the image differs
    from the stored one. *)
Lemma save_image_run now id a img (db : gmap N Article) :
  validate a = true →
  save false (changed a (set_featuredImage img a)) now id
    (set_featuredImage img a) db
  = let doc := if bool_decide (featuredImage a ≠ img)
               then set_updatedAt now (set_featuredImage img a)
               else set_featuredImage img a in
    Some (doc, <[id := doc]> db).
Proof.
  intros Hok. rewrite save_Some by (by rewrite (validate_ext a)).
  rewrite pre_save_unmodified
    by (cbn; apply bool_decide_eq_false_2; by intros H).
  unfold timestamps. cbn zeta.
  replace (existsb _ all_paths) with (bool_decide (featuredImage a ≠ img));
    [done|].
  cbn. rewrite !bool_decide_ne_refl. cbn. by rewrite orb_false_r.
Qed.

Lemma upload_article_image_run deleteImage primary fallback verr user id now
    f (db : gmap N Article) a :
  file_buffer f ≠ Some [] → file_size f ≠ 0 →
  db !! id = Some a → author a = user →
  upload_article_image deleteImage primary fallback verr user id now
    (Some f) db
  = let released := from_option (λ pid, [ImageDeleted pid]) [] (old_image a) in
    match old_image a ≫= deleteImage with
    | Some msg => (Err 500 ("Server error: " +:+ msg), db, released)
    | None =>
        match upload_with_fallback primary fallback with
        | Failed msg => (Err 500 ("Server error: " +:+ msg), db, released)
        | Uploaded r =>
            match save false
                    (changed a
                       (set_featuredImage (mkImage (public_id r) (url r)) a))
                    now id
                    (set_featuredImage (mkImage (public_id r) (url r)) a)
                    db with
            | Some (doc, db') => (Ok 200 (featuredImage doc), db', released)
            | None => (Err 500 ("Server error: " +:+ verr), db, released)
            end
        end
    end.
Proof.
  intros Hbuf Hsize Hdb Hu. unfold upload_article_image.
  replace (match file_buffer f with
           | Some buffer => bool_decide (length buffer = 0%nat)
           | None => false
           end) with false.
  - rewrite (proj2 (Z.eqb_neq _ _) Hsize), Hdb.
    by rewrite bool_decide_eq_false_2 by (by intros H).
  - destruct (file_buffer f) as [[|b buffer]|]; done.
Qed.

(** X13. [POST /:id/image] refuses before it acts: a request without
    a file, or with an empty one, is answered 400 whatever the article
    and the requester; an unknown article is answered 404 and
    somebody else's article 403. None of these answers releases an
    image, a 200 is only given to the author of the article, and every
    answer other than 200 leaves the store as it was. *)
Theorem upload_image_refusals deleteImage primary fallback verr user id now
    file (db : gmap N Article) :
  let r := upload_article_image deleteImage primary fallback verr user id now
             file db in
  (status_of r.1.1 = 400%nat
   ↔ file = None
     ∨ ∃ f, file = Some f ∧ (file_buffer f = Some [] ∨ file_size f = 0))
  ∧ (status_of r.1.1 = 404%nat
     ↔ status_of r.1.1 ≠ 400%nat ∧ db !! id = None)
  ∧ (status_of r.1.1 = 403%nat
     ↔ status_of r.1.1 ≠ 400%nat
       ∧ ∃ a, db !! id = Some a ∧ author a ≠ user)
  ∧ (status_of r.1.1 = 200%nat → ∃ a, db !! id = Some a ∧ author a = user)
  ∧ (status_of r.1.1 = 400%nat ∨ status_of r.1.1 = 404%nat
     ∨ status_of r.1.1 = 403%nat → r.2 = [])
  ∧ (status_of r.1.1 ≠ 200%nat → r.1.2 = db).
Proof.
  cbn zeta. destruct file as [f|].
  2:{ cbn. split_and!; try done; try tauto; try solve_refusal. }
  destruct (decide (file_buffer f = Some [])) as [Hb|Hb].
  { unfold upload_article_image. rewrite Hb. cbn.
    split_and!; try done; try tauto; try solve_refusal. }
  destruct (decide (file_size f = 0)) as [Hs|Hs].
  { unfold upload_article_image. rewrite Hs.
    destruct (file_buffer f) as [[|b buffer]|]; cbn;
      split_and!; try done; try tauto; try solve_refusal. }
  assert (¬ (Some f = None
             ∨ ∃ f0, Some f = Some f0
                     ∧ (file_buffer f0 = Some [] ∨ file_size f0 = 0))) as Hfile.
  { intros [?|(f0 & [= <-] & [?|?])]; done. }
  destruct (db !! id) as [a|] eqn:Hdb.
  - destruct (decide (author a = user)) as [Hu|Hu].
    + rewrite (upload_article_image_run _ _ _ _ _ _ _ f db a Hb Hs Hdb Hu).
      cbn zeta.
      destruct (old_image a ≫= deleteImage) as [msg|]; cbn.
      { split_and!; try done; try tauto; try solve_refusal. }
      destruct (upload_with_fallback primary fallback) as [r|msg]; cbn.
      2:{ split_and!; try done; try tauto; try solve_refusal. }
      destruct (save _ _ _ _ _ _) as [[doc db']|]; cbn;
        split_and!; try done; try tauto; try solve_refusal.
    + unfold upload_article_image.
      replace (match file_buffer f with
               | Some buffer => bool_decide (length buffer = 0%nat)
               | None => false
               end) with false
        by (destruct (file_buffer f) as [[|b buffer]|]; done).
      rewrite (proj2 (Z.eqb_neq _ _) Hs), Hdb.
      rewrite bool_decide_eq_true_2 by done. cbn.
      split_and!; try done; try tauto; try solve_refusal.
  - unfold upload_article_image.
    replace (match file_buffer f with
             | Some buffer => bool_decide (length buffer = 0%nat)
             | None => false
             end) with false
      by (destruct (file_buffer f) as [[|b buffer]|]; done).
    rewrite (proj2 (Z.eqb_neq _ _) Hs), Hdb. cbn.
    split_and!; try done; try tauto; try solve_refusal.
Qed.

(** X14. When the author uploads an image that has content, the
    article validates, the release of the old image (if there is one)
    does not fail and the upload, or its fallback, succeeds, the
    article's [featuredImage] becomes the uploaded image, which the
    response returns; the other paths of the article are kept,
    [updatedAt] moves when the image differs from the stored one, and
    the release of the old image is the only release issued. When the
    article does not validate, the answer is 500 with the message of
    the validation error and the store is as it was, the old image
    released and the new one uploaded all the same. *)
Theorem upload_image_sets_featuredImage deleteImage primary fallback verr
    user id now f (db : gmap N Article) a img :
  file_buffer f ≠ Some [] → file_size f ≠ 0 →
  db !! id = Some a → author a = user →
  old_image a ≫= deleteImage = None →
  upload_with_fallback primary fallback = Uploaded img →
  if validate a
  then
    ∃ a',
      upload_article_image deleteImage primary fallback verr user id now
        (Some f) db
      = (Ok 200 img, <[id := a']> db,
         from_option (λ pid, [ImageDeleted pid]) [] (old_image a))
      ∧ featuredImage a' = img
      ∧ same_outside_image a a'
      ∧ updatedAt a' = (if decide (img = featuredImage a)
                        then updatedAt a else now)
  else
    upload_article_image deleteImage primary fallback verr user id now
      (Some f) db
    = (Err 500 ("Server error: " +:+ verr), db,
       from_option (λ pid, [ImageDeleted pid]) [] (old_image a)).
Proof.
  intros Hb Hs Hdb Hu Hrel Hup.
  rewrite (upload_article_image_run _ _ _ _ _ _ _ f db a Hb Hs Hdb Hu).
  cbn zeta. rewrite Hrel, Hup.
  replace (mkImage (public_id img) (url img)) with img by by destruct img.
  destruct (validate a) eqn:Hok.
  - rewrite (save_image_run now id a img db Hok). cbn zeta.
    eexists. split; [|split; [|split]].
    + f_equal. f_equal. by destruct (bool_decide (featuredImage a ≠ img)).
    + by destruct (bool_decide (featuredImage a ≠ img)).
    + by destruct (bool_decide (featuredImage a ≠ img)).
    + destruct (decide (img = featuredImage a)) as [He|He].
      * rewrite bool_decide_eq_false_2; [done|]. by intros H.
      * rewrite bool_decide_eq_true_2; [done|]. congruence.
  - rewrite save_None; [done|]. by rewrite (validate_ext a).
Qed.

Lemma upload_image_sets_featuredImage_witness :
  let old := mkImage (Some (js "old")) (Some (js "http://old")) in
  let new := mkImage (Some (js "new")) (Some (js "http://new")) in
  let a := set_featuredImage old (sample 10 false None 0 []) in
  let db : gmap N Article := <[1%N := a]> ∅ in
  let f := mkFile (js "a.png") (js "image/png") 3 (Some [1; 2; 3]%N) in
  ∃ a',
    upload_article_image (λ _, None) (Failed "Cloudinary is down")
      (Uploaded new) "" 10 1 2000 (Some f) db
    = (Ok 200 new, <[1%N := a']> db, [ImageDeleted (js "old")])
    ∧ featuredImage a' = new ∧ updatedAt a' = 2000.
Proof.
  intros old new a db f.
  pose proof (upload_image_sets_featuredImage (λ _, None)
                (Failed "Cloudinary is down") (Uploaded new) "" 10 1 2000 f db
                a new) as H.
  destruct H as (a' & Hr & Hi & _ & Hupd);
    [done|done|vm_compute; reflexivity..|].
  exists a'. split; [exact Hr|]. split; [exact Hi|]. rewrite Hupd. reflexivity.
Defined.

(** X15. The old image is released before the new one is uploaded:
    when the author's article has an image, its release succeeds and
    the upload then fails, the answer is 500 with the message of the
    upload error, the stored article is unchanged and still names the
    image whose release has been issued. The fallback is tried only
    for an error whose message includes 'Cloudinary'. *)
Theorem upload_failure_after_release deleteImage primary fallback verr
    user id now f (db : gmap N Article) a pid msg :
  file_buffer f ≠ Some [] → file_size f ≠ 0 →
  db !! id = Some a → author a = user →
  old_image a = Some pid → deleteImage pid = None →
  upload_with_fallback primary fallback = Failed msg →
  upload_article_image deleteImage primary fallback verr user id now
    (Some f) db
  = (Err 500 ("Server error: " +:+ msg), db, [ImageDeleted pid])
  ∧ public_id (featuredImage a) = Some pid
  ∧ (∀ m other, primary = Failed m →
       includes (js "Cloudinary") (js m) = false →
       msg = m
       ∧ upload_article_image deleteImage primary other verr user id now
           (Some f) db
         = upload_article_image deleteImage primary fallback verr user id now
             (Some f) db).
Proof.
  intros Hb Hs Hdb Hu Hold Hrel Hup.
  rewrite (upload_article_image_run _ _ _ _ _ _ _ f db a Hb Hs Hdb Hu).
  cbn zeta. rewrite Hold. cbn [mbind option_bind from_option].
  rewrite Hrel, Hup. split; [done|]. split.
  - unfold old_image in Hold.
    by destruct (public_id (featuredImage a)) as [[|c p]|].
  - intros m other -> Hinc. unfold upload_with_fallback in Hup.
    rewrite Hinc in Hup. injection Hup as <-. split; [done|].
    rewrite !(upload_article_image_run _ _ _ _ _ _ _ f db a Hb Hs Hdb Hu).
    cbv beta iota zeta delta [upload_with_fallback]. rewrite Hinc, Hold.
    cbn [mbind option_bind from_option]. by rewrite Hrel.
Qed.

Lemma upload_failure_after_release_witness :
  let old := mkImage (Some (js "old")) (Some (js "http://old")) in
  let a := set_featuredImage old (sample 10 false None 0 []) in
  let db : gmap N Article := <[1%N := a]> ∅ in
  let f := mkFile (js "a.png") (js "image/png") 3 (Some [1; 2; 3]%N) in
  upload_article_image (λ _, None) (Failed "disk full")
    (Uploaded (mkImage None None)) "" 10 1 2000 (Some f) db
  = (Err 500 "Server error: disk full", db, [ImageDeleted (js "old")])
  ∧ db !! 1%N = Some a.
Proof.
  intros old a db f.
  destruct (upload_failure_after_release (λ _, None) (Failed "disk full")
              (Uploaded (mkImage None None)) "" 10 1 2000 f db a (js "old")
              "disk full")
    as (Hr & _); [done|done|vm_compute; reflexivity..|].
  split; [exact Hr|]. vm_compute. reflexivity.
Defined.

(** ** What no request does *)






(** The [$set] document of the bulk route holds no other key. *)
Lemma cast_update_filtered castBoolean castString castOther
    (updates : gmap string JsValue) stamp now u :
  cast_update castBoolean castString castOther (filter_updates updates)
    stamp now = Some u →
  set_other u = [].
Proof.
  unfold cast_update. rewrite other_keys_filtered.
  destruct (match filter_updates updates !! "published"%string with
            | Some v => Some <$> castBoolean v
            | None => Some None
            end); [|done].
  destruct (match filter_updates updates !! "category"%string with
            | Some v => Some <$> castString v
            | None => Some None
            end); [|done].
  cbn. by intros [= <-].
Qed.



(** The store a delete or an image upload leaves. *)
Lemma delete_article_store deleteImage user id (db : gmap N Article) :
  (delete_article deleteImage user id db).1.2 = db
  ∨ (delete_article deleteImage user id db).1.2 = delete id db.
Proof.
  unfold delete_article. destruct (db !! id) as [a|]; [|by left].
  destruct (bool_decide _); [by left|].
  destruct (old_image a) as [pid|]; [|by right].
  destruct (deleteImage pid); [by left|by right].
Qed.

Lemma upload_article_image_store deleteImage primary fallback verr user id now
    file (db : gmap N Article) :
  let db' := (upload_article_image deleteImage primary fallback verr user id
                now file db).1.2 in
  db' = db
  ∨ ∃ a a', db !! id = Some a ∧ db' = <[id := a']> db
            ∧ same_outside_image a a' ∧ validate a = true.
Proof.
  cbn zeta. unfold upload_article_image.
  destruct file as [f|]; [|by left].
  destruct (match file_buffer f with Some _ => _ | None => _ end); [by left|].
  destruct (file_size f =? 0); [by left|].
  destruct (db !! id) as [a|] eqn:Ha; [|by left].
  destruct (bool_decide _); [by left|]. cbn zeta.
  destruct (old_image a ≫= deleteImage); [by left|].
  destruct (upload_with_fallback primary fallback) as [r|msg]; [|by left].
  destruct (validate a) eqn:Hv.
  - rewrite save_image_run by done. cbn zeta. right. eexists a, _.
    split; [done|]. split; [done|]. split; [|done].
    by destruct (bool_decide _).
  - rewrite save_None; [by left|]. by rewrite (validate_ext a).
Qed.




(** The update route at work on a body with the keys [author], [views]
    and [publishedAt]: the article changes hands, its view counter is
    set to a million and its publication date is cleared. *)
Lemma update_rewrites_history :
  let b := sample 10 true (Some 1000) 3 [] in
  let db : gmap N Article := <[1%N := b]> ∅ in
  let updates :=
    mkUpdates None None None (Some 99%N) None None None None None None None
      (Some None) (Some 1000000) None in
  (λ r, (author r, views r, publishedAt r))
    <$> body_of (update_article (λ t, t) true 10 1 2000 updates db).1
  = Some (99%N, 1000000, None).
Proof. vm_compute. reflexivity. Qed.

(** ** What every reachable store keeps *)

Lemma validate_always_valid a : validate a = true → always_valid a = true.
Proof.
  unfold validate, always_valid. rewrite !andb_true_iff. tauto.
Qed.

Lemma always_valid_ext a a' :
  title a' = title a → content a' = content a → tags a' = tags a →
  comments a' = comments a → always_valid a' = always_valid a.
Proof. unfold always_valid. by intros -> -> -> ->. Qed.

Lemma store_valid_insert db i a :
  store_valid db → always_valid a = true → store_valid (<[i := a]> db).
Proof.
  intros Hdb Ha j b. destruct (decide (i = j)) as [->|Hne].
  - rewrite lookup_insert_eq. by intros [= <-].
  - rewrite lookup_insert_ne by done. apply Hdb.
Qed.

(** What [save] writes has passed the validators, and the hook does
    not touch the validated paths other than [excerpt]. *)
Lemma save_store_valid isNew m now id x db doc db' :
  save isNew m now id x db = Some (doc, db') →
  store_valid db → store_valid db'.
Proof.
  intros Hsave Hdb.
  pose proof (save_frame _ _ _ _ _ _ _ _ Hsave)
    as (Ht & Hc & _ & Htg & _ & _ & _ & Hcs & _).
  apply save_inv in Hsave as (Hv & _ & ->).
  apply store_valid_insert; [done|].
  rewrite (always_valid_ext x doc) by done. by apply validate_always_valid.
Qed.

Lemma step_store_valid db db' : step db db' → store_valid db → store_valid db'.
Proof.
  intros Hstep Hdb. destruct Hstep.
  - (* create *)
    unfold create_article. destruct valid; [|done]. cbn [negb].
    destruct (new_Article _ _ _) as [x|]; [|done].
    destruct (save _ _ _ _ _ _) as [[doc db']|] eqn:Hsave; [|done].
    by apply (save_store_valid _ _ _ _ _ _ _ _ Hsave).
  - (* update *)
    unfold update_article. destruct valid; [|done]. cbn [negb].
    destruct (db !! id) as [a|] eqn:Ha; [|done].
    case_bool_decide; [done|].
    destruct (save _ _ _ _ _ _) as [[doc db']|] eqn:Hsave; [|done].
    by apply (save_store_valid _ _ _ _ _ _ _ _ Hsave).
  - (* detail *)
    unfold get_article. destruct (db !! id) as [a|] eqn:Ha; [|done].
    destruct (_ && _); [done|]. cbn [snd].
    rewrite (alter_alt_Some _ _ _ _ Ha). apply store_valid_insert; [done|].
    rewrite (always_valid_ext a) by done. by apply (Hdb id).
  - (* like *)
    unfold like_article. destruct (db !! id) as [a|] eqn:Ha; [|done].
    cbn zeta.
    destruct (save _ _ _ _ _ _) as [[doc db']|] eqn:Hsave; [|done].
    by apply (save_store_valid _ _ _ _ _ _ _ _ Hsave).
  - (* bookmark *)
    unfold bookmark_article. destruct (db !! id) as [a|] eqn:Ha; [|done].
    cbn zeta.
    destruct (save _ _ _ _ _ _) as [[doc db']|] eqn:Hsave; [|done].
    by apply (save_store_valid _ _ _ _ _ _ _ _ Hsave).
  - (* add comment *)
    unfold add_comment. destruct valid; [|done]. cbn [negb].
    destruct (db !! id) as [a|] eqn:Ha; [|done].
    destruct (save _ _ _ _ _ _) as [[doc db']|] eqn:Hsave; [|done].
    pose proof (save_store_valid _ _ _ _ _ _ _ _ Hsave Hdb).
    by destruct (last (comments doc)).
  - (* update comment *)
    unfold update_comment. destruct valid; [|done]. cbn [negb].
    destruct (db !! id) as [a|] eqn:Ha; [|done].
    destruct (comment_by_id cid a); [|done].
    case_bool_decide; [done|].
    destruct (save _ _ _ _ _ _) as [[doc db']|] eqn:Hsave; [|done].
    pose proof (save_store_valid _ _ _ _ _ _ _ _ Hsave Hdb).
    by destruct (comment_by_id cid doc).
  - (* delete comment *)
    unfold delete_comment.
    destruct (db !! id) as [a|] eqn:Ha; [|done].
    destruct (comment_by_id cid a); [|done].
    destruct (_ && _); [done|].
    destruct (save _ _ _ _ _ _) as [[doc db']|] eqn:Hsave; [|done].
    by apply (save_store_valid _ _ _ _ _ _ _ _ Hsave).
  - (* bulk delete *)
    unfold bulk_delete. destruct valid; [|done]. cbn [negb].
    case_bool_decide; [done|]. cbn [fst snd].
    intros j b [Hb _]%map_lookup_filter_Some. by apply (Hdb j).
  - (* bulk update *)
    unfold bulk_update. destruct valid; [|done]. cbn [negb].
    case_bool_decide; [done|].
    destruct (cast_update _ _ _ _ _ _) as [u|] eqn:Hu; [|done].
    apply cast_update_filtered in Hu.
    cbn [updateMany snd]. intros j b. rewrite map_lookup_imap.
    destruct (db !! j) as [a|] eqn:Ha; [|done]. cbn.
    intros [= <-]. case_decide; [|by apply (Hdb j)].
    destruct (apply_set_frame u a Hu)
      as (Ht & Hc & _ & _ & Htg & _ & _ & _ & Hcs & _).
    rewrite (always_valid_ext a) by done. by apply (Hdb j).
Qed.

Lemma step_any_store_valid db db' :
  step_any db db' → store_valid db → store_valid db'.
Proof.
  intros Hstep Hok. destruct Hstep as [db' Hstep| |].
  - by apply (step_store_valid db db').
  - destruct (delete_article_store deleteImage user id db) as [-> | ->];
      [done|].
    intros j b [_ Hb]%lookup_delete_Some. by apply (Hok j).
  - destruct (upload_article_image_store deleteImage primary fallback
                validationError user id now file db)
      as [-> | (a & a' & Ha & -> & Hsame & _)]; [done|].
    apply store_valid_insert; [done|].
    destruct Hsame as (Ht & Hc & _ & _ & Htg & _ & _ & _ & Hcs & _).
    rewrite (always_valid_ext a) by done. by apply (Hok id).
Qed.

(** X17. Every store the handlers can reach from the empty one, the
    delete and image routes included, holds articles with a non-empty
    title of at most 200 characters, a non-empty content, tags of at
    most 30 characters and comments with a non-empty text of at most
    1000 characters: these paths are written by [save] only, which
    validates them. *)
Theorem reachable_any_always_valid db i a :
  reachable_any db → db !! i = Some a →
  nonempty (title a) = true ∧ (length (title a) ≤ 200)%nat
  ∧ nonempty (content a) = true
  ∧ Forall (λ t, (length t ≤ 30)%nat) (tags a)
  ∧ Forall (λ c, nonempty (comment_content c) = true
                 ∧ (length (comment_content c) ≤ 1000)%nat) (comments a).
Proof.
  intros Hr Ha.
  assert (store_valid db) as Hdb.
  { clear i a Ha. induction Hr as [|db db' _ IH Hstep].
    - intros i a. by rewrite lookup_empty.
    - by apply (step_any_store_valid db db'). }
  specialize (Hdb i a Ha). unfold always_valid in Hdb.
  rewrite !andb_true_iff in Hdb.
  destruct Hdb as ((((H1 & H2) & H3) & H4) & H5).
  split; [done|]. split; [by apply Nat.leb_le|]. split; [done|]. split.
  - apply Forall_forall. intros t Ht. rewrite forallb_forall in H4.
    apply Nat.leb_le, H4. by apply list_elem_of_In.
  - apply Forall_forall. intros c Hc. rewrite forallb_forall in H5.
    apply list_elem_of_In, H5 in Hc. unfold comment_ok in Hc.
    apply andb_true_iff in Hc as [? ?]. split; [done|by apply Nat.leb_le].
Qed.

Lemma reachable_any_always_valid_witness :
  let db0 : gmap N Article := ∅ in
  let db1 := (create_article (λ t, t) true 10 1 1000
                (draft_of (js "Some words")) db0).2 in
  let db2 := (add_comment true 7 1 5 2000 (js "nice") db1).2 in
  ∃ a, db2 !! 1%N = Some a
       ∧ length (comments a) = 1%nat
       ∧ nonempty (title a) = true
       ∧ Forall (λ c, nonempty (comment_content c) = true
                      ∧ (length (comment_content c) ≤ 1000)%nat) (comments a).
Proof.
  intros db0 db1 db2.
  assert (∃ a, db2 !! 1%N = Some a ∧ length (comments a) = 1%nat)
    as (a & Ha & Hl).
  { eexists. split; [vm_compute; reflexivity|reflexivity]. }
  exists a. split; [done|]. split; [done|].
  destruct (reachable_any_always_valid db2 1 a) as (H1 & _ & _ & _ & H5).
  - apply (reachable_any_step db1); [apply (reachable_any_step db0)|].
    + apply reachable_any_empty.
    + apply step_any_step, step_create. reflexivity.
    + apply step_any_step, step_add_comment.
  - exact Ha.
  - done.
Defined.

(** ** How the routes compose *)

(** X18. A deleted article is gone for every route: after a
    [DELETE /:id] answered 200, the detail route, a second delete and
    the like toggle answer 404 for that id, no page of the feed or of
    the author's own list shows it, and the author's [totalArticles]
    has dropped by one. *)
Theorem deleted_article_is_gone deleteImage user id (db : gmap N Article) :
  status_of (delete_article deleteImage user id db).1.1 = 200%nat →
  let db' := (delete_article deleteImage user id db).1.2 in
  (∀ requester now,
     get_article requester id now db' = (Err 404 "Article not found", db'))
  ∧ delete_article deleteImage user id db'
    = (Err 404 "Article not found", db', [])
  ∧ (∀ u new_id now,
       like_article u id new_id now db' = (Err 404 "Article not found", db'))
  ∧ (∀ p l pg x, my_articles user p l db' = Ok 200 pg → (id, x) ∉ articles pg)
  ∧ (∀ toLowerCase regex_i castObjectId requester q pg x,
       list_articles toLowerCase regex_i castObjectId requester q db'
       = Ok 200 pg →
       (id, x) ∉ articles pg)
  ∧ totalArticles (stats_overview user db)
    = S (totalArticles (stats_overview user db')).
Proof.
  pose proof (delete_article_cases deleteImage user id db) as H.
  destruct (db !! id) as [a|] eqn:Hdb; [|by rewrite H].
  destruct (decide (author a = user)) as [Hu|Hu].
  2:{ rewrite (bool_decide_eq_false_2 _ Hu) in H. by rewrite H. }
  rewrite (bool_decide_eq_true_2 _ Hu) in H.
  destruct (old_image a ≫= deleteImage); rewrite H; [done|].
  intros _. cbn zeta. cbn [fst snd].
  assert (delete id db !! id = None) as Hgone by apply lookup_delete_eq.
  split_and!.
  - intros requester now. unfold get_article. by rewrite Hgone.
  - unfold delete_article. by rewrite Hgone.
  - intros u new_id now. unfold like_article. by rewrite Hgone.
  - intros p l pg x Hpg%page_response_Ok Hin.
    apply (listed_found (λ ia, author ia.2 = user) [ByCreatedAt] p l _ pg _ _
             Hpg) in Hin as [Hx _].
    congruence.
  - intros toLowerCase regex_i castObjectId requester q pg x Hl Hin.
    apply (feed_only_published _ _ _ _ _ _ _ _ _ Hl) in Hin as [Hx _].
    congruence.
  - rewrite !stats_overview_own.
    rewrite (stats_of_Permutation _ _ (own_lookup user db id a Hdb)).
    by rewrite decide_True.
Qed.

Lemma deleted_article_is_gone_witness :
  let db : gmap N Article :=
    <[1%N := sample 10 true (Some 1000) 3 []]>
      (<[2%N := sample 10 false None 0 []]> ∅) in
  let db' := (delete_article (λ _, None) 10 1 db).1.2 in
  status_of (delete_article (λ _, None) 10 1 db).1.1 = 200%nat
  ∧ get_article None 1 2000 db' = (Err 404 "Article not found", db')
  ∧ totalArticles (stats_overview 10 db') = 1%nat.
Proof.
  intros db db'.
  assert (status_of (delete_article (λ _, None) 10 1 db).1.1 = 200%nat)
    as Hok by (vm_compute; reflexivity).
  destruct (deleted_article_is_gone (λ _, None) 10 1 db Hok)
    as (Hget & _ & _ & _ & _ & Hn).
  split; [exact Hok|]. split; [apply Hget|].
  apply (inj S). etrans; [symmetry; exact Hn|]. vm_compute. reflexivity.
Defined.

(** The newest document heads a list sorted by creation date. *)
Lemma sort_desc_newest_first (l : list (ObjectId * Article)) x :
  x ∈ l →
  (∀ y, y ∈ l → y ≠ x → createdAt y.2 < createdAt x.2) →
  head (sort_desc [ByCreatedAt] l) = Some x.
Proof.
  intros Hx Hnew.
  pose proof (sort_desc_sorted [ByCreatedAt] l) as Hs.
  assert (∀ y, y ∈ sort_desc [ByCreatedAt] l → y ∈ l) as Hback
    by (intros y; apply sort_desc_elem).
  apply (sort_desc_elem [ByCreatedAt]) in Hx.
  destruct (sort_desc [ByCreatedAt] l) as [|h t];
    [by apply elem_of_nil in Hx|].
  cbn. f_equal. destruct (decide (h = x)) as [|Hne]; [done|].
  apply elem_of_cons in Hx as [->|Hx]; [done|].
  apply StronglySorted_inv in Hs as [_ Hall].
  rewrite Forall_forall in Hall. apply Hall, before_createdAt in Hx.
  assert (h ∈ l) as Hh by (apply Hback; left).
  specialize (Hnew h Hh Hne). lia.
Qed.

(** A created document carries the time of the request. *)
Lemma create_article_createdAt toLowerCase valid user new_id now body
    (db : gmap N Article) doc db' :
  create_article toLowerCase valid user new_id now body db = (Ok 201 doc, db') →
  createdAt doc = now ∧ updatedAt doc = now.
Proof.
  unfold create_article. destruct valid; [|done]. cbn [negb].
  destruct (new_Article toLowerCase user body) as [a|]; [|done].
  unfold save. destruct (validate _); [|done].
  by intros [= <- <-].
Qed.

(** X19. A draft is private to its author: an article created with
    [published] false (or absent) is stored without a publication
    date, is on one of the pages of its author's own list, whatever the
    page size of 1 or more, heads the first page of that list, whatever
    the page size, a negative one included, when the author's other
    articles are older, and is returned to its author by the detail
    route, while the feed, the author's public profile list, the
    trending list and the bookmark lists show it on no page, and the
    detail route answers 404 to everybody else. *)
Theorem draft_is_private toLowerCase user new_id now body
    (db : gmap N Article) doc db' :
  create_article toLowerCase true user new_id now body db = (Ok 201 doc, db') →
  published doc = false →
  db' !! new_id = Some doc ∧ publishedAt doc = None
  ∧ (∀ l, 1 ≤ or_default 10 l →
       ∃ k pg, 1 ≤ k
               ∧ my_articles user (Some k) l db' = Ok 200 pg
               ∧ (new_id, doc) ∈ articles pg)
  ∧ (∀ p l,
       or_default 1 p = 1 →
       (∀ i a, db !! i = Some a → author a = user → createdAt a < now) →
       ∃ pg, my_articles user p l db' = Ok 200 pg
             ∧ head (articles pg) = Some (new_id, doc))
  ∧ (∀ now', status_of (get_article (Some user) new_id now' db').1 = 200%nat)
  ∧ (∀ requester now', requester ≠ Some user →
       get_article requester new_id now' db'
       = (Err 404 "Article not found", db'))
  ∧ (∀ toLowerCase' regex_i castObjectId requester q pg x,
       list_articles toLowerCase' regex_i castObjectId requester q db'
       = Ok 200 pg →
       (new_id, x) ∉ articles pg)
  ∧ (∀ requester p l pg x,
       user_articles requester user p l db' = Ok 200 pg →
       (new_id, x) ∉ articles pg)
  ∧ (∀ requester p l days now' pg x,
       trending requester p l days now' db' = Ok 200 pg →
       (new_id, x) ∉ articles pg)
  ∧ (∀ u p l pg x,
       bookmarked_articles u p l db' = Ok 200 pg → (new_id, x) ∉ articles pg).
Proof.
  intros Hc Hpub.
  destruct (create_article_Ok toLowerCase true user new_id now body db doc db'
              Hc) as (-> & _ & _ & Hpa & _ & _ & _ & Hau).
  rewrite Hpub in Hpa.
  destruct (create_article_createdAt toLowerCase true user new_id now body db
              doc _ Hc) as [Hnow _].
  assert (<[new_id := doc]> db !! new_id = Some doc) as Hdoc
    by apply lookup_insert_eq.
  split_and!; try done.
  - intros l Hl.
    destruct (found_listed (λ ia, author ia.2 = user) [ByCreatedAt] l
                (<[new_id := doc]> db) new_id doc Hl Hdoc Hau)
      as (k & pg & Hk & Hpg & Hin).
    exists k, pg. split; [done|]. split; [|done].
    unfold my_articles. by rewrite Hpg.
  - intros p l Hp Hold. unfold my_articles.
    set (found := filter _ _).
    assert (head (sort_desc [ByCreatedAt] found) = Some (new_id, doc))
      as Hhead.
    { apply sort_desc_newest_first.
      - apply list_elem_of_filter. split; [done|].
        by apply elem_of_map_to_list.
      - intros [j b] [Hb Hj%elem_of_map_to_list]%list_elem_of_filter Hne.
        cbn in Hb. cbn [snd]. rewrite Hnow.
        destruct (decide (j = new_id)) as [->|Hj'].
        + rewrite Hdoc in Hj. congruence.
        + rewrite lookup_insert_ne in Hj by done. by apply (Hold j). }
    eexists. split.
    { apply page_response_Ok, paginate_Some.
      split; [rewrite Hp; lia|reflexivity]. }
    cbn [articles]. rewrite Hp. cbn [Z.sub Z.mul Z.to_nat Z.pos_sub]. rewrite drop_0.
    pose proof (or_default_nonzero 10 l) as Hnz.
    destruct (sort_desc [ByCreatedAt] found) as [|h t]; [done|].
    destruct (Z.to_nat (Z.abs (or_default 10 l))) as [|n] eqn:Hn; [lia|].
    exact Hhead.
  - intros now'. unfold get_article. rewrite Hdoc, Hpub. cbn.
    by rewrite bool_decide_eq_true_2.
  - intros requester now' Hne. unfold get_article. rewrite Hdoc, Hpub.
    destruct requester as [u|]; cbn; [|done].
    rewrite bool_decide_eq_false_2; [done|]. congruence.
  - intros toLowerCase' regex_i castObjectId requester q pg x Hl Hin.
    apply (feed_only_published _ _ _ _ _ _ _ _ _ Hl) in Hin as [Hx Hp].
    congruence.
  - intros requester p l pg x Hpg%page_response_Ok Hin.
    apply (listed_found (λ ia, author ia.2 = user ∧ published ia.2 = true)
             [ByPublishedAt] p l _ pg _ _ Hpg)
      in Hin as [Hx [_ Hp]]. cbn in Hp. congruence.
  - intros requester p l days now' pg x Hpg%page_response_Ok Hin.
    apply (paginate_subseteq _ _ _ _ Hpg), sort_desc_elem in Hin.
    apply list_elem_of_filter in Hin as [Hcand Hx%elem_of_map_to_list].
    cbn in Hcand. unfold trending_candidate in Hcand.
    replace x with doc in Hcand by congruence. by rewrite Hpub in Hcand.
  - intros u p l pg x Hpg%page_response_Ok Hin.
    apply (listed_found (λ ia, u ∈ bookmarks ia.2 ∧ published ia.2 = true)
             [ByCreatedAt] p l _ pg _ _ Hpg)
      in Hin as [Hx [_ Hp]]. cbn in Hp. congruence.
Qed.

Lemma draft_is_private_witness :
  let db : gmap N Article := ∅ in
  let r := create_article (λ t, t) true 10 1 1000
             (draft_of (js "Some words")) db in
  ∃ doc, r = (Ok 201 doc, <[1%N := doc]> db)
         ∧ publishedAt doc = None
         ∧ get_article None 1 2000 (<[1%N := doc]> db)
           = (Err 404 "Article not found", <[1%N := doc]> db).
Proof.
  intros db r.
  assert (∃ doc, r = (Ok 201 doc, <[1%N := doc]> db) ∧ published doc = false)
    as (doc & Hr & Hp).
  { eexists. split; [vm_compute; reflexivity|reflexivity]. }
  exists doc. split; [exact Hr|].
  destruct (draft_is_private (λ t, t) 10 1 1000 (draft_of (js "Some words"))
              db doc (<[1%N := doc]> db) Hr Hp)
    as (_ & Hpa & _ & _ & _ & Hget & _).
  split; [exact Hpa|]. by apply Hget.
Defined.

(** ** The upload filter *)

Lemma starts_with_spec w s : starts_with w s = true ↔ ∃ post, s = w ++ post.
Proof.
  revert s. induction w as [|c w IH]; intros s; cbn.
  - split; [by exists s|done].
  - destruct s as [|d s].
    + split; [done|]. by intros (post & [=]).
    + rewrite andb_true_iff, N.eqb_eq, IH. split.
      * intros [-> [post ->]]. by exists post.
      * intros (post & [= -> ->]). split; [done|by exists post].
Qed.

Lemma includes_spec w s :
  includes w s = true ↔ ∃ pre post, s = pre ++ w ++ post.
Proof.
  induction s as [|d s IH]; cbn [includes].
  - rewrite orb_false_r, starts_with_spec. split.
    + intros [post H]. by exists [], post.
    + intros (pre & post & H). destruct pre as [|? ?]; [|done].
      by exists post.
  - rewrite orb_true_iff, starts_with_spec, IH. split.
    + intros [[post H]|(pre & post & ->)].
      * by exists [], post.
      * by exists (d :: pre), post.
    + intros (pre & post & H). destruct pre as [|c pre].
      * left. by exists post.
      * right. injection H as _ ->. by exists pre, post.
Qed.

Lemma allowedTypes_test_spec s :
  allowedTypes_test s = true
  ↔ ∃ w pre post, w ∈ allowedTypes ∧ s = pre ++ w ++ post.
Proof.
  unfold allowedTypes_test. rewrite existsb_exists. split.
  - intros (w & Hw%list_elem_of_In & (pre & post & ->)%includes_spec).
    by exists w, pre, post.
  - intros (w & pre & post & Hw & ->). exists w.
    split; [by apply list_elem_of_In|]. apply includes_spec. by eexists _, _.
Qed.

(** X20. The upload filter accepts a file exactly when one of the names
    jpeg, jpg, png, gif, webp occurs somewhere in the lower-cased
    extension of its original name and one of them occurs somewhere
    in its declared MIME type; the two names need not be the same,
    and neither has to be the whole extension or subtype. Any other
    file is refused with 'Only image files are allowed'. The size and
    the content of the file play no part. *)
Theorem fileFilter_accepts extname toLowerCase file :
  (fileFilter extname toLowerCase file = None
   ↔ (∃ w pre post,
        w ∈ allowedTypes
        ∧ toLowerCase (extname (file_originalname file)) = pre ++ w ++ post)
     ∧ (∃ w pre post,
          w ∈ allowedTypes ∧ file_mimetype file = pre ++ w ++ post))
  ∧ (fileFilter extname toLowerCase file ≠ None →
     fileFilter extname toLowerCase file
     = Some "Only image files are allowed"%string)
  ∧ (∀ size buffer,
       fileFilter extname toLowerCase
         (mkFile (file_originalname file) (file_mimetype file) size buffer)
       = fileFilter extname toLowerCase file).
Proof.
  unfold fileFilter. cbn zeta. rewrite <- !allowedTypes_test_spec.
  cbn [file_originalname file_mimetype].
  destruct (allowedTypes_test (file_mimetype file)),
    (allowedTypes_test (toLowerCase (extname (file_originalname file))));
    cbn [andb]; split_and!; try done; intuition congruence.
Qed.

(** ** The article manager *)

Lemma handleSelectArticle_NoDup prev articleId :
  NoDup prev → NoDup (handleSelectArticle prev articleId).
Proof.
  intros Hnd. unfold handleSelectArticle. case_bool_decide as Hin.
  - by apply NoDup_filter.
  - apply NoDup_app. split; [done|]. split; [|apply NoDup_singleton].
    intros x Hx ->%list_elem_of_singleton. done.
Qed.

Lemma handleSelectArticle_elem prev articleId x :
  x ∈ handleSelectArticle prev articleId → x ∈ prev ∨ x = articleId.
Proof.
  unfold handleSelectArticle. case_bool_decide.
  - intros [_ Hx]%list_elem_of_filter. by left.
  - intros [Hx|Hx%list_elem_of_singleton]%elem_of_app; [by left|by right].
Qed.

Lemma selection_after_snoc articles clicks click :
  selection_after articles (clicks ++ [click])
  = match click with
    | Toggle articleId =>
        handleSelectArticle (selection_after articles clicks) articleId
    | ToggleAll => handleSelectAll (selection_after articles clicks) articles
    end.
Proof. unfold selection_after. by rewrite foldl_app. Qed.

Lemma selection_after_ok articles clicks :
  NoDup articles.*1 → clicks_on articles clicks →
  NoDup (selection_after articles clicks)
  ∧ selection_after articles clicks ⊆ articles.*1.
Proof.
  intros Hnd. induction clicks as [|click clicks IH] using rev_ind.
  - intros _. split; [apply NoDup_nil_2|]. by intros x Hx%elem_of_nil.
  - intros [Hclicks Hclick]%Forall_app. destruct (IH Hclicks) as [IH1 IH2].
    rewrite Forall_singleton in Hclick. rewrite selection_after_snoc.
    destruct click as [articleId|].
    + split; [by apply handleSelectArticle_NoDup|].
      intros x [Hx| ->]%handleSelectArticle_elem; [by apply IH2|exact Hclick].
    + unfold handleSelectAll. case_bool_decide.
      * split; [apply NoDup_nil_2|]. by intros x Hx%elem_of_nil.
      * done.
Qed.

Lemma page_ids_NoDup (P : ObjectId * Article → Prop) `{!∀ x, Decision (P x)}
    spec p l (db : gmap N Article) pg :
  paginate p l (sort_desc spec (filter P (map_to_list db))) = Some pg →
  NoDup (articles pg).*1.
Proof.
  intros [_ ->]%paginate_Some. cbn [articles].
  eapply (sublist_NoDup _ (sort_desc spec (filter P (map_to_list db))).*1).
  - unfold sort_desc. rewrite merge_sort_Permutation.
    apply (sublist_NoDup _ (map_to_list db).*1);
      [apply NoDup_fst_map_to_list|].
    apply fmap_sublist, sublist_filter.
  - apply fmap_sublist. etrans; [apply sublist_take|apply sublist_drop].
Qed.

(** X21. The selection of the article manager fits the bulk delete
    route: whatever boxes the user clicks on the list of their own
    articles, one by one or all at once, the selection never holds an
    id twice and holds only ids of their articles, so a bulk delete
    of a selection that is not empty is accepted, answers with the
    number of selected articles, removes exactly these and leaves the
    other articles alone. With nothing selected no request is
    sent. *)
Theorem selection_bulk_delete castBoolean castString castOther user q_page
    q_limit clicks now (db : gmap N Article) pg :
  my_articles user q_page q_limit db = Ok 200 pg →
  clicks_on (articles pg) clicks →
  let selectedArticles := selection_after (articles pg) clicks in
  NoDup selectedArticles
  ∧ (∀ i, i ∈ selectedArticles → ∃ a, db !! i = Some a ∧ author a = user)
  ∧ (selectedArticles = [] →
     handleBulkAction castBoolean castString castOther (Some Delete)
       selectedArticles user now db = None)
  ∧ (selectedArticles ≠ [] →
     ∃ db',
       handleBulkAction castBoolean castString castOther (Some Delete)
         selectedArticles user now db
       = Some (Ok 200 (length selectedArticles), db')
       ∧ (∀ i, i ∈ selectedArticles → db' !! i = None)
       ∧ (∀ i, i ∉ selectedArticles → db' !! i = db !! i)).
Proof.
  intros Hpg%page_response_Ok Hclicks. cbn zeta.
  set (shown := articles pg) in *.
  assert (NoDup shown.*1) as Hshown
    by apply (page_ids_NoDup (λ ia, author ia.2 = user) _ _ _ _ _ Hpg).
  destruct (selection_after_ok shown clicks Hshown Hclicks) as [Hnd Hsub].
  assert (∀ i, i ∈ selection_after shown clicks →
               ∃ a, db !! i = Some a ∧ author a = user) as Hown.
  { intros i Hi. apply Hsub, list_elem_of_fmap in Hi as ([j a] & -> & Hin).
    apply (listed_found (λ ia, author ia.2 = user) [ByCreatedAt] q_page
             q_limit _ pg _ _ Hpg) in Hin.
    by exists a. }
  split; [done|]. split; [done|]. unfold handleBulkAction. split.
  - by intros ->.
  - intros Hne. rewrite bool_decide_eq_false_2
      by (by destruct (selection_after shown clicks)).
    destruct (bulk_delete true user (selection_after shown clicks) db)
      as [[r db'] events] eqn:Hbulk.
    assert (r = Ok 200 (length (selection_after shown clicks))) as ->.
    { unfold bulk_delete in Hbulk. cbn [negb] in Hbulk.
      rewrite (found_length_eq user _ db Hnd Hown) in Hbulk.
      rewrite bool_decide_eq_false_2 in Hbulk by (by intros H).
      by injection Hbulk as <- _ _. }
    destruct (bulk_delete_done user _ db _ db' events Hbulk)
      as (_ & Hdel & Hkeep & _).
    exists db'. split; [done|]. split; [|done].
    intros i Hi. by destruct (Hdel i Hi).
Qed.

Lemma selection_bulk_delete_witness :
  let db : gmap N Article :=
    <[1%N := sample 10 true (Some 1000) 3 []]>
      (<[2%N := sample 10 false None 0 []]>
         (<[3%N := sample 11 true (Some 900) 0 []]> ∅)) in
  let clicks := [Toggle 1; ToggleAll; Toggle 1]%N in
  ∃ pg db',
    my_articles 10 None (Some 50) db = Ok 200 pg
    ∧ selection_after (articles pg) clicks = [2%N]
    ∧ handleBulkAction own_castBoolean own_castString own_castOther
        (Some Delete) (selection_after (articles pg) clicks) 10 2000 db
      = Some (Ok 200 1%nat, db')
    ∧ db' !! 2%N = None ∧ db' !! 1%N = db !! 1%N.
Proof.
  intros db clicks.
  assert (∃ pg, my_articles 10 None (Some 50) db = Ok 200 pg
                ∧ selection_after (articles pg) clicks = [2%N]
                ∧ 1%N ∈ (articles pg).*1) as (pg & Hpg & Hsel & H1).
  { eexists. split; [vm_compute; reflexivity|].
    split; [vm_compute; reflexivity|].
    refine (bool_decide_unpack _ _). vm_compute. exact I. }
  destruct (selection_bulk_delete own_castBoolean own_castString own_castOther
              10 None (Some 50) clicks 2000 db pg Hpg)
    as (_ & _ & _ & Hdel).
  - constructor; [exact H1|]. constructor; [exact I|].
    constructor; [exact H1|]. constructor.
  - destruct Hdel as (db' & Hreq & Hgone & Hkeep); [by rewrite Hsel|].
    exists pg, db'. split; [done|]. split; [done|].
    rewrite Hsel in *. split; [done|]. split.
    + apply Hgone, list_elem_of_here.
    + apply Hkeep. by intros ?%list_elem_of_singleton.
Defined.

(** ** Create and update *)

Section CreateUpdateEffects.
Variable toLowerCase : jsstring → jsstring.

(** X22. [POST /] stores what the body says, normalised by the schema:
    the title trimmed, the tags trimmed and lower-cased, the category
    ['Other'] when the body has none or an empty one, [published]
    false when the body has none; the requester is the author, the
    counters start empty and both timestamps are the time of the
    request. What is stored satisfies the schema: a non-empty title of
    at most 200 characters, a non-empty content, a category of the
    list, tags of at most 30 characters. A refused request leaves the
    store as it was, an accepted one adds the one document under the
    new id. *)
Theorem create_article_stores_body valid user new_id now body
    (db : gmap N Article) :
  let r := create_article toLowerCase valid user new_id now body db in
  (valid = false → r = (Err 400 "Validation failed", db))
  ∧ (status_of r.1 ≠ 201%nat → r.2 = db)
  ∧ (∀ doc, r.1 = Ok 201 doc →
       r.2 = <[new_id := doc]> db
       ∧ Some (title doc) = trim <$> b_title body
       ∧ Some (content doc) = b_content body
       ∧ tags doc = (λ t, toLowerCase (trim t)) <$> default [] (b_tags body)
       ∧ category doc = (if truthy_str (b_category body)
                         then default [] (b_category body) else js "Other")
       ∧ published doc = default false (b_published body)
       ∧ author doc = user ∧ views doc = 0
       ∧ likes doc = [] ∧ comments doc = [] ∧ bookmarks doc = []
       ∧ featuredImage doc = mkImage None None
       ∧ createdAt doc = now ∧ updatedAt doc = now
       ∧ nonempty (title doc) = true ∧ (length (title doc) ≤ 200)%nat
       ∧ nonempty (content doc) = true
       ∧ category doc ∈ categories
       ∧ Forall (λ t, (length t ≤ 30)%nat) (tags doc)).
Proof.
  cbn zeta. unfold create_article.
  destruct valid; cbn [negb]; [|by split_and!].
  split; [done|].
  destruct (new_Article toLowerCase user body) as [x|] eqn:Hnew;
    [|by split_and!].
  destruct (save _ _ _ _ _ _) as [[doc db']|] eqn:Hsave; [|by split_and!].
  cbn [fst snd status_of]. split; [done|]. intros doc' [= <-].
  pose proof (save_frame _ _ _ _ _ _ _ _ Hsave)
    as (Ht & Hc & Hau & Htg & Hcat & Him & Hl & Hcs & Hp & Hv & Hb).
  apply save_inv in Hsave as (Hval & Hdoc & ->).
  assert (createdAt doc = now ∧ updatedAt doc = now) as [Hcr Hup].
  { by rewrite Hdoc. }
  unfold new_Article, tag_setter in Hnew.
  destruct (b_title body) as [t|]; [|done].
  destruct (b_content body) as [c|]; [|done].
  cbn in Hnew. injection Hnew as <-.
  cbn [title content tags category featuredImage likes comments published
         views bookmarks author] in *.
  unfold validate in Hval. cbn [title content tags category negb orb] in Hval.
  apply andb_true_iff in Hval as [Hval V7].
  apply andb_true_iff in Hval as [Hval V6].
  apply andb_true_iff in Hval as [Hval V5].
  apply andb_true_iff in Hval as [Hval V4].
  apply andb_true_iff in Hval as [Hval V3].
  apply andb_true_iff in Hval as [V1 V2].
  split_and!; try congruence.
  - cbn. congruence.
  - rewrite Hcat. by destruct (b_category body) as [[|? ?]|].
  - rewrite Ht. by apply Nat.leb_le.
  - rewrite Hcat. exact (proj1 (bool_decide_eq_true _) V6).
  - rewrite Htg. apply Forall_forall. intros u Hu. apply Nat.leb_le.
    rewrite forallb_forall in V5. apply V5. by apply list_elem_of_In.
Qed.

End CreateUpdateEffects.

(** ** Read time and excerpt *)

Lemma ceil_div_mono a b : a ≤ b → ceil_div a 200 ≤ ceil_div b 200.
Proof.
  intros Hab.
  pose proof (proj1 (ceil_div_spec a 200 _ ltac:(lia)) eq_refl).
  pose proof (proj1 (ceil_div_spec b 200 _ ltac:(lia)) eq_refl).
  lia.
Qed.

Lemma ceil_div_step a k :
  0 ≤ k ≤ 200 → ceil_div (a + k) 200 ≤ ceil_div a 200 + 1.
Proof.
  intros Hk.
  pose proof (proj1 (ceil_div_spec a 200 _ ltac:(lia)) eq_refl).
  pose proof (proj1 (ceil_div_spec (a + k) 200 _ ltac:(lia)) eq_refl).
  lia.
Qed.

(** X24. The read time the hook stores when the content changes is the
    number of minutes at 200 words a minute, rounded up and at least
    one, or one minute more: it is never below that figure, exceeds it
    by one at most, and equals it when the content neither starts nor
    ends with whitespace. When the content does not change the hook
    keeps the read time. *)
Theorem readTime_within_a_minute m now a :
  let a' := pre_save m now a in
  (m P_content = true →
   spec_readTime (content a) ≤ readTime a' ≤ spec_readTime (content a) + 1
   ∧ (starts_space (content a) = false →
      ends_space false (content a) = false →
      readTime a' = spec_readTime (content a)))
  ∧ (m P_content = false → readTime a' = readTime a).
Proof.
  cbn zeta. rewrite pre_save_readTime. split; intros Hm; rewrite Hm; [|done].
  split.
  - unfold spec_readTime, wordsPerMinute.
    pose proof (wordCount_count_words (content a)) as Hw.
    pose proof (wordCount_pos (content a)) as Hpos.
    pose proof (ceil_div_pos (wordCount (content a)) 200 ltac:(lia) Hpos).
    set (w := Z.of_nat (count_words (content a))) in *.
    assert (0 ≤ wordCount (content a) - w ≤ 200) as Hk
      by (destruct (starts_space _), (ends_space _ _); lia).
    pose proof (ceil_div_mono w (wordCount (content a)) ltac:(lia)).
    pose proof (ceil_div_step w (wordCount (content a) - w) Hk) as Hs.
    replace (w + (wordCount (content a) - w)) with (wordCount (content a))
      in Hs by lia.
    lia.
  - intros Hs He.
    pose proof (readTime_trimmed_content m now a Hm Hs He) as Ht.
    by rewrite pre_save_readTime, Hm in Ht.
Qed.

Lemma strip_markers_clean c :
  Forall (λ x, is_marker x = false) (strip_markers c).
Proof.
  apply Forall_forall. intros x Hx.
  by apply list_elem_of_filter in Hx as [Hm _].
Qed.

Lemma derive_excerpt_facts c :
  Forall (λ x, is_marker x = false) (derive_excerpt c)
  ∧ (length (derive_excerpt c) ≤ 303)%nat
  ∧ take 300 (derive_excerpt c) = take 300 (strip_markers c).
Proof.
  unfold derive_excerpt, plainText, substring0.
  pose proof (strip_markers_clean c) as Hclean.
  set (s := strip_markers c) in *.
  assert (Forall (λ x, is_marker x = false) (take 300 s)) as Htake
    by by apply Forall_take.
  destruct (length (take 300 s) =? 300)%nat eqn:Hlen.
  - apply Nat.eqb_eq in Hlen. split_and!.
    + apply Forall_app. split; [done|]. by repeat constructor.
    + rewrite length_app, Hlen. cbn. lia.
    + rewrite take_app_le by lia. rewrite take_take. f_equal.
  - apply Nat.eqb_neq in Hlen. rewrite app_nil_r.
    split_and!; [done|rewrite length_take; lia|].
    by rewrite take_take.
Qed.

(** X25. The excerpt of a created article is the one the body gives
    when it gives one; otherwise it is derived, and a derived excerpt
    holds none of the characters '#', '*' and '`', has 303 characters
    at most, starts with the first 300 characters of the content
    without these characters, and is that whole text when it is
    shorter than 300 characters. *)
Theorem created_excerpt toLowerCase valid user new_id now body
    (db : gmap N Article) doc db' :
  create_article toLowerCase valid user new_id now body db = (Ok 201 doc, db') →
  (truthy_str (b_excerpt body) = true → excerpt doc = b_excerpt body)
  ∧ (truthy_str (b_excerpt body) = false →
     ∃ e, excerpt doc = Some e
          ∧ Forall (λ x, is_marker x = false) e
          ∧ (length e ≤ 303)%nat
          ∧ take 300 e = take 300 (strip_markers (content doc))
          ∧ ((length (strip_markers (content doc)) < 300)%nat →
             e = strip_markers (content doc))).
Proof.
  intros Hc. split.
  - intros Ht. unfold create_article in Hc.
    destruct valid; [|done]. cbn [negb] in Hc.
    destruct (new_Article toLowerCase user body) as [x|] eqn:Hnew; [|done].
    destruct (save _ _ _ _ _ _) as [[d db1]|] eqn:Hsave; [|done].
    injection Hc as <- <-. apply save_inv in Hsave as (_ & -> & _).
    pose proof (timestamps_frame true (λ _, true) now
                  (pre_save (λ _, true) now x)) as Hf.
    cbn zeta in Hf. destruct Hf as (_ & _ & -> & _).
    rewrite pre_save_excerpt.
    unfold new_Article in Hnew.
    destruct (b_title body); [|done]. destruct (b_content body); [|done].
    cbn in Hnew. injection Hnew as <-. cbn [excerpt]. by rewrite Ht.
  - intros Ht.
    pose proof (create_article_excerpt toLowerCase valid user new_id now body
                  db doc db' Ht Hc) as He.
    destruct (derive_excerpt_facts (content doc)) as (H1 & H2 & H3).
    exists (derive_excerpt (content doc)). split_and!; try done.
    intros Hlt. by apply (derive_excerpt_cases (content doc)).
Qed.

Lemma created_excerpt_witness :
  let body := draft_of (js "# Hello *world*") in
  ∃ doc db',
    create_article (λ t, t) true 10 1 1000 body ∅ = (Ok 201 doc, db')
    ∧ excerpt doc = Some (js " Hello world").
Proof.
  intros body.
  assert (∃ doc db',
            create_article (λ t, t) true 10 1 1000 body ∅ = (Ok 201 doc, db'))
    as (doc & db' & Hc) by (eexists _, _; vm_compute; reflexivity).
  exists doc, db'. split; [exact Hc|].
  destruct (created_excerpt (λ t, t) true 10 1 1000 body ∅ doc db' Hc)
    as (_ & Hd).
  destruct (Hd eq_refl) as (e & -> & _ & _ & _ & Hshort).
  f_equal. vm_compute in Hc. injection Hc as <- _. apply Hshort.
  vm_compute. lia.
Defined.

(** ** Bulk publication *)

(** X26. The bulk route stamps [publishedAt] only when the value of
    [published] in the request is the boolean [true] itself: for a
    value that the ODM casts to true without being it, every matched
    article becomes published and keeps the [publishedAt] it had, so a
    draft that was never published is then published without a
    publication date, and the trending list never shows it. *)
Theorem bulk_publish_cast_skips_stamp castBoolean castString castOther user
    ids v now (db : gmap N Article) i a :
  castBoolean v = Some true → v ≠ JBool true →
  db !! i = Some a → i ∈ ids → author a = user →
  ∃ n db' a',
    bulk_update castBoolean castString castOther true user ids
      {[ "published"%string := v ]} now db = (Ok 200 n, db')
    ∧ db' !! i = Some a'
    ∧ published a' = true ∧ publishedAt a' = publishedAt a
    ∧ (publishedAt a = None →
       ∀ requester p l days now' pg,
         trending requester p l days now' db' = Ok 200 pg →
         (i, a') ∉ articles pg).
Proof.
  intros Hcast Hv Hdb Hi Hu.
  assert (({[ "published"%string := v ]} : gmap string JsValue)
            !! "published"%string = Some v) as Hp
    by apply lookup_singleton_eq.
  assert (({[ "published"%string := v ]} : gmap string JsValue)
            !! "category"%string = None) as Hc
    by (by apply lookup_singleton_ne).
  rewrite (bulk_update_run castBoolean castString castOther user ids
             {[ "published"%string := v ]} now db).
  2:{ left. by rewrite Hp. }
  2:{ intros v' Hv'. rewrite Hp in Hv'. injection Hv' as <-. by rewrite Hcast. }
  2:{ intros v' Hv'. by rewrite Hc in Hv'. }
  rewrite Hp, Hc. cbn [mbind option_bind]. rewrite Hcast.
  assert (publish_stamp (filter_updates {[ "published"%string := v ]}) now
          = None) as ->.
  { unfold publish_stamp. rewrite filter_updates_published, Hp.
    rewrite bool_decide_eq_false_2; [done|]. by intros [= ->]. }
  set (u := mkSetDoc (Some true) None None [] now).
  eexists _, _, (apply_set u a). split; [done|].
  assert ((updateMany ids user u db).2 !! i = Some (apply_set u a)) as Hi'.
  { rewrite updateMany_lookup, Hdb. cbn. by rewrite decide_True. }
  split; [done|]. split; [done|]. split; [done|].
  intros Hnone requester p l days now' pg Hpg%page_response_Ok Hin.
  apply (paginate_subseteq _ _ _ _ Hpg), sort_desc_elem in Hin.
  apply list_elem_of_filter in Hin as [Hcand _]. cbn in Hcand.
  unfold trending_candidate in Hcand. cbn in Hcand.
  by rewrite Hnone in Hcand.
Qed.

Lemma bulk_publish_cast_skips_stamp_witness :
  let db : gmap N Article := <[1%N := sample 10 false None 0 []]> ∅ in
  ∃ n db' a',
    bulk_update lenient_castBoolean own_castString own_castOther true 10
      [1%N] {[ "published"%string := JStr (js "true") ]} 5000 db
    = (Ok 200 n, db')
    ∧ db' !! 1%N = Some a'
    ∧ published a' = true ∧ publishedAt a' = None.
Proof.
  intros db.
  destruct (bulk_publish_cast_skips_stamp lenient_castBoolean own_castString
              own_castOther 10 [1%N] (JStr (js "true")) 5000 db 1
              (sample 10 false None 0 []))
    as (n & db' & a' & Hr & Ha' & Hp & Hpa & _);
    [reflexivity|done|reflexivity|apply list_elem_of_here|reflexivity|].
  exists n, db', a'. split; [exact Hr|]. split; [exact Ha'|].
  split; [exact Hp|]. rewrite Hpa. reflexivity.
Defined.

(** ** The feed *)

Lemma before_publishedAt x y dx dy :
  before [ByPublishedAt] x y →
  publishedAt x.2 = Some dx → publishedAt y.2 = Some dy → dy ≤ dx.
Proof.
  unfold before. cbn. intros H Hx Hy. rewrite Hx, Hy in H. cbn in H.
  apply Is_true_true in H.
  destruct (dx <=? dy) eqn:H1, (dy <=? dx) eqn:H2; cbn in H; lia.
Qed.

Section FeedFilters.
Variable toLowerCase : jsstring → jsstring.
Variable regex_i : jsstring → option (jsstring → bool).
Variable castObjectId : jsstring → option ObjectId.

Lemma feed_query_matches q matches a :
  feed_query toLowerCase regex_i castObjectId q = Some matches →
  matches a = true →
  published a = true
  ∧ (∀ t, present (q_tag q) = Some t → toLowerCase (trim t) ∈ tags a)
  ∧ (∀ c, present (q_category q) = Some c →
          q_category q ≠ Some (js "All") → category a = c)
  ∧ (∀ s, present (q_author q) = Some s → castObjectId s = Some (author a))
  ∧ (∀ s m, present (q_search q) = Some s → regex_i s = Some m →
            m (title a) = true ∨ m (content a) = true
            ∨ ∃ t, t ∈ tags a ∧ m t = true).
Proof.
  unfold feed_query. intros Hq Hm.
  destruct (match present (q_author q) with Some _ => _ | None => _ end)
    as [fa|] eqn:Hfa; [|done].
  destruct (match present (q_search q) with Some _ => _ | None => _ end)
    as [fs|] eqn:Hfs; [|done].
  cbn in Hq. injection Hq as <-.
  apply andb_true_iff in Hm as [Hm Hs].
  apply andb_true_iff in Hm as [Hm Hau].
  apply andb_true_iff in Hm as [Hm Hcat].
  apply andb_true_iff in Hm as [Hpub Htag].
  split; [done|]. split_and!.
  - intros t Ht. rewrite Ht in Htag. by apply bool_decide_eq_true in Htag.
  - intros c Hc Hall. rewrite Hc in Hcat.
    rewrite bool_decide_eq_false_2 in Hcat by done.
    by apply bool_decide_eq_true in Hcat.
  - intros s Hs'. rewrite Hs' in Hfa.
    destruct (castObjectId s) as [o|]; [|done]. cbn in Hfa.
    injection Hfa as <-. apply bool_decide_eq_true in Hau. by rewrite Hau.
  - intros s m Hs' Hre. rewrite Hs', Hre in Hfs. cbn in Hfs.
    injection Hfs as <-.
    apply orb_true_iff in Hs as [Hs|Hs]; [|right; right].
    + apply orb_true_iff in Hs as [Hs|Hs]; [by left|by right; left].
    + apply existsb_exists in Hs as (t & Ht%list_elem_of_In & Hmt).
      by exists t.
Qed.

(** X27. The filters of the feed select what they name: every entry
    of a page is a published article that carries the requested tag,
    as a tag is stored (trimmed and in lower case), has the requested
    category, is by the requested author and matches the search term
    in its title, its content or one of its tags, for those of the four
    parameters that are given; the category ['All'] selects like no
    category at all. A page is ordered by publication date, newest
    first. *)
Theorem feed_filters requester q (db : gmap N Article) pg :
  list_articles toLowerCase regex_i castObjectId requester q db = Ok 200 pg →
  (∀ i a, (i, a) ∈ articles pg →
     db !! i = Some a ∧ published a = true
     ∧ (∀ t, present (q_tag q) = Some t → toLowerCase (trim t) ∈ tags a)
     ∧ (∀ c, present (q_category q) = Some c →
             q_category q ≠ Some (js "All") → category a = c)
     ∧ (∀ s, present (q_author q) = Some s →
             castObjectId s = Some (author a))
     ∧ (∀ s m, present (q_search q) = Some s → regex_i s = Some m →
               m (title a) = true ∨ m (content a) = true
               ∨ ∃ t, t ∈ tags a ∧ m t = true))
  ∧ StronglySorted
      (λ x y, ∀ dx dy, publishedAt x.2 = Some dx → publishedAt y.2 = Some dy →
                       dy ≤ dx)
      (articles pg)
  ∧ list_articles toLowerCase regex_i castObjectId requester
      (mkListQuery (q_page q) (q_limit q) (q_tag q) (Some (js "All"))
         (q_search q) (q_author q)) db
    = list_articles toLowerCase regex_i castObjectId requester
        (mkListQuery (q_page q) (q_limit q) (q_tag q) None
           (q_search q) (q_author q)) db.
Proof.
  unfold list_articles at 1.
  destruct (feed_query toLowerCase regex_i castObjectId q) as [matches|] eqn:Hq;
    [|done].
  intros Hpg%page_response_Ok. split_and!.
  - intros i a Hin.
    apply (paginate_subseteq _ _ _ _ Hpg), sort_desc_elem in Hin.
    apply list_elem_of_filter in Hin as [Hm Hin%elem_of_map_to_list].
    split; [done|]. apply (feed_query_matches q matches a Hq).
    by apply Is_true_true.
  - eapply StronglySorted_weaken;
      [|apply (paginate_sorted [ByPublishedAt] _ _ _ _ Hpg),
          sort_desc_sorted].
    intros x y Hb dx dy. by apply before_publishedAt.
  - unfold list_articles, feed_query. cbn.
    destruct (match present (q_author q) with Some _ => _ | None => _ end);
      [|done].
    destruct (match present (q_search q) with Some _ => _ | None => _ end);
      done.
Qed.

End FeedFilters.

Lemma feed_filters_witness :
  let a1 := set_tags [js "coq"] (sample 10 true (Some 1000) 0 []) in
  let a2 := sample 11 true (Some 2000) 0 [] in
  let db : gmap N Article := <[1%N := a1]> (<[2%N := a2]> ∅) in
  let q := mkListQuery None None (Some (js " Coq ")) None None None in
  ∃ pg,
    list_articles ascii_toLowerCase (λ _, None) (λ _, None) None q db
    = Ok 200 pg
    ∧ articles pg = [(1%N, a1)]
    ∧ ∀ i a, (i, a) ∈ articles pg → js "coq" ∈ tags a.
Proof.
  intros a1 a2 db q.
  assert (∃ pg, list_articles ascii_toLowerCase (λ _, None) (λ _, None) None
                  q db = Ok 200 pg
                ∧ articles pg = [(1%N, a1)]) as (pg & Hpg & Hart).
  { eexists. split; [vm_compute; reflexivity|reflexivity]. }
  exists pg. split; [exact Hpg|]. split; [exact Hart|].
  destruct (feed_filters ascii_toLowerCase (λ _, None) (λ _, None) None q db
              pg Hpg)
    as (Hsel & _).
  intros i a Hin. destruct (Hsel i a Hin) as (_ & _ & Htag & _).
  apply (Htag (js "Coq")). vm_compute. reflexivity.
Defined.

(** ** Refused requests *)

Lemma edit_first_keeps_id cid v cs i c :
  list_find (λ c, comment_id c = cid) cs = Some (i, c) →
  is_Some (list_find (λ c, comment_id c = cid) (edit_first cid v cs)).
Proof. intros H. rewrite (edit_first_find cid v cs i c H). by eexists. Qed.

(** X28. A refused request writes nothing: whenever the detail route,
    the like or bookmark toggle, one of the three comment routes or
    the bulk delete answers with an error status, the store is the
    one the request found; the bulk delete then has released no image
    either. *)
Theorem refused_requests_write_nothing (db : gmap N Article) :
  (∀ requester id now,
     status_of (get_article requester id now db).1 ≠ 200%nat →
     (get_article requester id now db).2 = db)
  ∧ (∀ user id new_id now,
       status_of (like_article user id new_id now db).1 ≠ 200%nat →
       (like_article user id new_id now db).2 = db)
  ∧ (∀ user id now,
       status_of (bookmark_article user id now db).1 ≠ 200%nat →
       (bookmark_article user id now db).2 = db)
  ∧ (∀ valid user id new_id now text,
       status_of (add_comment valid user id new_id now text db).1 ≠ 201%nat →
       (add_comment valid user id new_id now text db).2 = db)
  ∧ (∀ valid user id cid now text,
       status_of (update_comment valid user id cid now text db).1 ≠ 200%nat →
       (update_comment valid user id cid now text db).2 = db)
  ∧ (∀ user id cid now,
       status_of (delete_comment user id cid now db).1 ≠ 200%nat →
       (delete_comment user id cid now db).2 = db)
  ∧ (∀ valid user ids,
       status_of (bulk_delete valid user ids db).1.1 ≠ 200%nat →
       (bulk_delete valid user ids db).1.2 = db
       ∧ (bulk_delete valid user ids db).2 = []).
Proof.
  split_and!.
  - intros requester id now. unfold get_article.
    destruct (db !! id) as [a|]; [|done]. by destruct (_ && _).
  - intros user id new_id now. unfold like_article.
    destruct (db !! id) as [a|]; [|done]. cbn zeta.
    by destruct (save _ _ _ _ _ _) as [[doc db']|].
  - intros user id now. unfold bookmark_article.
    destruct (db !! id) as [a|]; [|done]. cbn zeta.
    by destruct (save _ _ _ _ _ _) as [[doc db']|].
  - intros valid user id new_id now text. unfold add_comment.
    destruct valid; cbn [negb]; [|done].
    destruct (db !! id) as [a|]; [|done]. cbn zeta.
    destruct (save _ _ _ _ _ _) as [[doc db']|] eqn:Hsave; [|done].
    pose proof (save_frame _ _ _ _ _ _ _ _ Hsave)
      as (_ & _ & _ & _ & _ & _ & _ & Hcs & _).
    cbn [comments set_comments] in Hcs. rewrite Hcs, last_snoc. done.
  - intros valid user id cid now text. unfold update_comment.
    destruct valid; cbn [negb]; [|done].
    destruct (db !! id) as [a|]; [|done].
    destruct (comment_by_id cid a) as [c|] eqn:Hc; [|done].
    destruct (bool_decide _); [done|]. cbn zeta.
    destruct (save _ _ _ _ _ _) as [[doc db']|] eqn:Hsave; [|done].
    pose proof (save_frame _ _ _ _ _ _ _ _ Hsave)
      as (_ & _ & _ & _ & _ & _ & _ & Hcs & _).
    cbn [comments set_comments] in Hcs.
    unfold comment_by_id in Hc |- *.
    destruct (list_find _ (comments a)) as [[i x]|] eqn:Hf; [|done].
    rewrite Hcs.
    destruct (edit_first_keeps_id cid text (comments a) i x Hf) as [y ->].
    done.
  - intros user id cid now. unfold delete_comment.
    destruct (db !! id) as [a|]; [|done].
    destruct (comment_by_id cid a); [|done].
    destruct (_ && _); [done|].
    by destruct (save _ _ _ _ _ _) as [[doc db']|].
  - intros valid user ids. unfold bulk_delete.
    destruct valid; cbn [negb]; [|done]. by destruct (bool_decide _).
Qed.

(** ** Routing and comment deletion *)

(** X29. The router passes a GET request to the first registered route
    that matches its path: the feed for the empty path, the detail
    route for every path of one segment, and for a path of two segments
    under [user] the requester's own list, the bookmark list or the
    profile of the user the second segment names. The detail route and
    the profile route answer 400 when the segment is not a valid
    ObjectId. A longer path matches no route, and no path at all
    reaches the handler of the trending route, which is registered
    after the detail route. *)
Theorem get_routing isValid toLowerCase :
  dispatch_get isValid toLowerCase [] = Handled GetFeed []
  ∧ (∀ s, dispatch_get isValid toLowerCase [s]
          = if isValid s then Handled GetDetail [("id"%string, s)]
            else Refused 400 "Invalid article ID format")
  ∧ (∀ s t, toLowerCase s = js "user" →
       dispatch_get isValid toLowerCase [s; t]
       = if bool_decide (toLowerCase t = js "my-articles")
         then Handled GetMyArticles []
         else if bool_decide (toLowerCase t = js "bookmarks")
         then Handled GetBookmarks []
         else if isValid t then Handled GetUserArticles [("userId"%string, t)]
         else Refused 400 "Invalid user ID format")
  ∧ (∀ path, (3 ≤ length path)%nat →
       dispatch_get isValid toLowerCase path = Unmatched)
  ∧ (∀ path, runs GetTrending (dispatch_get isValid toLowerCase path) = false).
Proof.
  split; [reflexivity|]. split; [|split; [|split]].
  - intros s. unfold dispatch_get. rewrite route_of_one_segment.
    unfold validate_param.
    assert (param "id" [("id"%string, s)] = Some s) as -> by reflexivity.
    reflexivity.
  - intros s t Hs. unfold dispatch_get, route_of, get_routes.
    cbn [omap list_omap fst snd match_path]. rewrite Hs.
    rewrite (bool_decide_eq_true_2 (js "user" = js "user")) by done.
    rewrite (bool_decide_eq_false_2 (js "user" = js "stats"))
      by (vm_compute; discriminate).
    repeat case_bool_decide; cbn; done.
  - intros path Hlen. unfold dispatch_get.
    destruct (route_of toLowerCase path) as [[route params]|] eqn:Hr; [|done].
    unfold route_of in Hr. apply head_Some_elem_of in Hr.
    apply list_elem_of_omap in Hr as ([pattern r] & Hin & Hm).
    cbn [fst snd] in Hm.
    destruct (match_path toLowerCase pattern path) as [ps|] eqn:Hmatch;
      [|done].
    apply match_path_length in Hmatch.
    unfold get_routes in Hin.
    repeat (apply elem_of_cons in Hin as [Hin|Hin];
            [injection Hin as -> _; cbn in Hmatch; lia|]).
    by apply elem_of_nil in Hin.
  - apply dispatch_get_never_trending.
Qed.

(** X30. On an article that validates, the deletion of a comment by
    its author or by the author of the article is accepted and removes
    the comments with that id and nothing else: the other comments
    stay, in their order, every other path of the article but
    [updatedAt] is kept, and when the comment ids of the article are
    distinct exactly one comment goes and the author's [totalComments]
    drops by one. *)
Theorem delete_comment_removes_one user id cid now (db : gmap N Article) a c :
  db !! id = Some a → validate a = true → comment_by_id cid a = Some c →
  user = comment_user c ∨ user = author a →
  ∃ a',
    delete_comment user id cid now db = (Ok 200 (), <[id := a']> db)
    ∧ (∀ x, x ∈ comments a' ↔ x ∈ comments a ∧ comment_id x ≠ cid)
    ∧ comments a' `sublist_of` comments a
    ∧ same_content (set_comments (comments a') a) a'
    ∧ likes a' = likes a ∧ bookmarks a' = bookmarks a
    ∧ (NoDup (comment_id <$> comments a) →
       S (length (comments a')) = length (comments a)
       ∧ totalComments (stats_overview (author a) (<[id := a']> db))
         = totalComments (stats_overview (author a) db) - 1).
Proof.
  intros Hdb Hok Hc Hu.
  rewrite (delete_comment_run user id cid now db a c Hdb Hc). cbv zeta.
  replace (bool_decide (comment_user c ≠ user) && bool_decide (author a ≠ user))
    with false.
  2:{ symmetry. apply andb_false_iff.
      destruct Hu as [->| ->]; [left|right];
        apply bool_decide_eq_false_2; by intros H. }
  rewrite validate_delete by done.
  eexists. split; [done|]. cbn [comments set_updatedAt set_comments].
  split_and!; try done.
  - intros x. rewrite list_elem_of_filter. tauto.
  - apply sublist_filter.
  - intros Hnd.
    pose proof (comment_by_id_Some cid a c Hc) as [Hin Hcid].
    assert (S (length (filter (λ x, comment_id x ≠ cid) (comments a)))
            = length (comments a)) as Hlen.
    { apply (filter_other_length comment_id cid (comments a) Hnd).
      apply list_elem_of_fmap. by exists c. }
    split; [done|].
    pose proof (stats_replace (author a) db id a
                  (set_updatedAt now
                     (set_comments
                        (filter (λ x, comment_id x ≠ cid) (comments a)) a))
                  Hdb eq_refl eq_refl) as Hs.
    cbv beta zeta in Hs. rewrite !decide_True in Hs by done.
    destruct Hs as (_ & _ & _ & _ & _ & H6 & _).
    cbn [set_updatedAt set_comments comments] in H6. lia.
Qed.

Lemma delete_comment_removes_one_witness :
  let x := mkComment 5 7 (js "nice") 900 in
  let y := mkComment 6 8 (js "first") 950 in
  let a := mkArticle (js "Title") (js "Some content") None 10 [] (js "Other")
             (mkImage None None) 1 [] [y; x] true (Some 800) 0 [] 0 0 in
  let db : gmap N Article := <[1%N := a]> ∅ in
  ∃ a',
    delete_comment 10 1 6 2000 db = (Ok 200 (), <[1%N := a']> db)
    ∧ (x ∈ comments a' ∧ y ∉ comments a')
    ∧ length (comments a') = 1%nat.
Proof.
  intros x y a db.
  destruct (delete_comment_removes_one 10 1 6 2000 db a y)
    as (a' & Hr & Hmem & _ & _ & _ & _ & Hone);
    [vm_compute; reflexivity..|by right|].
  exists a'. split; [exact Hr|]. split.
  - split.
    + apply Hmem. split; [apply list_elem_of_further, list_elem_of_here|done].
    + intros [_ Hne]%Hmem. done.
  - destruct Hone as [Hlen _].
    + refine (bool_decide_unpack _ _). vm_compute. exact I.
    + cbn in Hlen. lia.
Defined.
